(** * HashEnv: the encrypted, versioned, access-controlled secret store

    A shallow embedding of the backend of gomaengineering/hashenv
    (lib/crypto.ts, lib/authorization.ts, lib/logging.ts, routes/env.ts,
    routes/projects.ts, routes/settings.ts and the Mongoose models they
    use, lib/secure-logger.ts and the sanitizers of
    middleware/validation.ts) together with the properties its
    specification states and further properties of the code. *)

From Stdlib Require Import ZArith List Bool String Ascii Lia Permutation.
Import ListNotations.
Open Scope string_scope.
Open Scope list_scope.
Open Scope Z_scope.

(** * Strings and buffers of the runtime

    A JavaScript string is a sequence of UTF-16 code units, a Node [Buffer]
    a sequence of bytes.  Both are lists of integers here. *)

Definition JSString := list Z.
Definition Buffer := list Z.

Definition inRange (lo hi x : Z) : bool := (lo <=? x) && (x <=? hi).

Definition isHighSurrogate (u : Z) : bool := inRange 0xD800 0xDBFF u.
Definition isLowSurrogate (u : Z) : bool := inRange 0xDC00 0xDFFF u.
Definition isContinuation (b : Z) : bool := inRange 0x80 0xBF b.

(** U+FFFD, which the UTF-8 codec of the runtime substitutes for whatever it
    cannot represent. *)
Definition REPLACEMENT : Z := 0xFFFD.

(** [String.prototype.isWellFormed]: every code unit is a 16-bit value and
    surrogates only occur as a high one followed by a low one. *)
Fixpoint isWellFormed (s : JSString) : bool :=
  match s with
  | [] => true
  | u :: t =>
      if isHighSurrogate u then
        match t with
        | l :: t' => isLowSurrogate l && isWellFormed t'
        | [] => false
        end
      else if isLowSurrogate u then false
      else inRange 0 0xFFFF u && isWellFormed t
  end.

(** The UTF-8 bytes of one code point. *)
Definition utf8Bytes (c : Z) : Buffer :=
  if c <? 0x80 then [c]
  else if c <? 0x800 then [0xC0 + c / 64; 0x80 + c mod 64]
  else if c <? 0x10000 then
    [0xE0 + c / 4096; 0x80 + (c / 64) mod 64; 0x80 + c mod 64]
  else
    [0xF0 + c / 262144; 0x80 + (c / 4096) mod 64;
     0x80 + (c / 64) mod 64; 0x80 + c mod 64].

(** The UTF-16 code units of one code point. *)
Definition utf16Units (c : Z) : JSString :=
  if c <? 0x10000 then [c]
  else [0xD800 + (c - 0x10000) / 1024; 0xDC00 + (c - 0x10000) mod 1024].

(** [Buffer.from(s, 'utf8')], which is also what [cipher.update(s, 'utf8')]
    feeds to the cipher: a surrogate pair becomes one four-byte sequence, an
    unpaired surrogate becomes U+FFFD. *)
Fixpoint utf8Encode (s : JSString) : Buffer :=
  match s with
  | [] => []
  | u :: t =>
      if isHighSurrogate u then
        match t with
        | l :: t' =>
            if isLowSurrogate l then
              utf8Bytes (0x10000 + (u - 0xD800) * 1024 + (l - 0xDC00))
                ++ utf8Encode t'
            else utf8Bytes REPLACEMENT ++ utf8Encode t
        | [] => utf8Bytes REPLACEMENT
        end
      else if isLowSurrogate u then utf8Bytes REPLACEMENT ++ utf8Encode t
      else utf8Bytes u ++ utf8Encode t
  end.

(** [buf.toString('utf8')]: well-formed sequences are decoded, every maximal
    ill-formed subpart becomes one U+FFFD and decoding resumes at the byte
    that broke the sequence. *)
Fixpoint utf8Decode (bs : Buffer) : JSString :=
  match bs with
  | [] => []
  | b0 :: t0 =>
      if inRange 0 0x7F b0 then b0 :: utf8Decode t0
      else if inRange 0xC2 0xDF b0 then
        match t0 with
        | b1 :: t1 =>
            if isContinuation b1
            then ((b0 - 0xC0) * 64 + (b1 - 0x80)) :: utf8Decode t1
            else REPLACEMENT :: utf8Decode t0
        | [] => [REPLACEMENT]
        end
      else if inRange 0xE0 0xEF b0 then
        match t0 with
        | b1 :: t1 =>
            if inRange (if b0 =? 0xE0 then 0xA0 else 0x80)
                       (if b0 =? 0xED then 0x9F else 0xBF) b1
            then
              match t1 with
              | b2 :: t2 =>
                  if isContinuation b2
                  then ((b0 - 0xE0) * 4096 + (b1 - 0x80) * 64 + (b2 - 0x80))
                         :: utf8Decode t2
                  else REPLACEMENT :: utf8Decode t1
              | [] => [REPLACEMENT]
              end
            else REPLACEMENT :: utf8Decode t0
        | [] => [REPLACEMENT]
        end
      else if inRange 0xF0 0xF4 b0 then
        match t0 with
        | b1 :: t1 =>
            if inRange (if b0 =? 0xF0 then 0x90 else 0x80)
                       (if b0 =? 0xF4 then 0x8F else 0xBF) b1
            then
              match t1 with
              | b2 :: t2 =>
                  if isContinuation b2 then
                    match t2 with
                    | b3 :: t3 =>
                        if isContinuation b3
                        then utf16Units ((b0 - 0xF0) * 262144
                                         + (b1 - 0x80) * 4096
                                         + (b2 - 0x80) * 64 + (b3 - 0x80))
                               ++ utf8Decode t3
                        else REPLACEMENT :: utf8Decode t2
                    | [] => [REPLACEMENT]
                    end
                  else REPLACEMENT :: utf8Decode t1
              | [] => [REPLACEMENT]
              end
            else REPLACEMENT :: utf8Decode t0
        | [] => [REPLACEMENT]
        end
      else REPLACEMENT :: utf8Decode t0
  end.

(** Unicode scalar values: the code points that are no surrogates. *)
Definition isScalar (c : Z) : Prop :=
  0 <= c <= 0x10FFFF /\ ~ (0xD800 <= c <= 0xDFFF).

(** * The Node runtime the backend calls into

    [Buffer.from(_, 'base64')] and the AES-256-GCM cipher of Node's [crypto]
    module are not part of the repository.  GCM is counter mode followed by
    a keyed tag over the ciphertext, so the cipher is given by its key
    stream and its tag function; [getAuthTag] returns sixteen bytes. *)

Class NodeRuntime := {
  base64Decode : string -> Buffer;
  keystream : Buffer -> Buffer -> nat -> Z;
  gcmTag : Buffer -> Buffer -> Buffer -> Buffer;
  gcmTag_length : forall key nonce ct, List.length (gcmTag key nonce ct) = 16%nat
}.

(** MongoDB ObjectIds, in their canonical rendering ([toString]): 24
    lower-case hexadecimal digits. *)
Definition ObjectId := string.

(** ** Documents (models/Project, models/EnvFile, models/EnvLog,
       models/User, models/UserSettings) *)

Inductive Permission := read | write.
Inductive Environment := dev | staging | prod.
Inductive LogAction := upload | download | edit | delete | access.

Record IProjectMember := {
  member_userId : ObjectId;
  member_permission : Permission
}.

Record IProject := {
  project_id : ObjectId;
  project_name : string;
  createdBy : ObjectId;
  members : list IProjectMember
}.

(** A [version] is a JavaScript number; the integers the handlers compute
    with stay far below 2^53, where such numbers are exact. *)
Record IEnvFile := {
  envFile_id : ObjectId;
  projectId : ObjectId;
  environment : Environment;
  encryptedData : Buffer;
  iv : Buffer;
  authTag : Buffer;
  version : Z;
  uploadedBy : ObjectId
}.

Record LogMetadata := {
  oldVersion : option Z;
  newVersion : option Z;
  fileName : option string
}.

Record IEnvLog := {
  log_projectId : ObjectId;
  log_envFileId : option ObjectId;
  log_environment : Environment;
  log_version : option Z;
  log_action : LogAction;
  performedBy : ObjectId;
  performedByEmail : string;
  performedByName : string;
  log_metadata : LogMetadata
}.

Record IUser := {
  user_id : ObjectId;
  user_name : string;
  user_email : string
}.

Record PanicButton := {
  flushEnvs : bool;
  revokeCollaborators : bool;
  downloadEnvs : bool;
  askConfirmation : bool
}.

Record IUserSettings := {
  settings_userId : ObjectId;
  flushDuration : option Z;
  panicButton : PanicButton
}.

(** Modelled from the spec: the Secret model (models/Secret) is imported by
    the settings routes but is not among the sources; a named secret is
    [{id, projectId, name, blob, createdBy}]. *)
Record ISecret := {
  secret_id : ObjectId;
  secret_projectId : ObjectId;
  secret_name : string;
  secret_encryptedData : Buffer;
  secret_iv : Buffer;
  secret_authTag : Buffer;
  secret_createdBy : ObjectId
}.

Definition Permission_eqb (a b : Permission) : bool :=
  match a, b with read, read | write, write => true | _, _ => false end.

Definition Environment_eqb (a b : Environment) : bool :=
  match a, b with
  | dev, dev | staging, staging | prod, prod => true
  | _, _ => false
  end.

(** ** What the handlers do to the outside world, in order

    The calls that create a cipher or a decipher, the calls of the audit
    logger and the entries it writes, the queries on the environment files
    and the writes of projects. *)

Inductive Event :=
| EvCreateCipheriv (nonce : Buffer)
| EvCreateDecipheriv (nonce : Buffer)
| EvLogEnvAction (a : LogAction) (meta : LogMetadata)
| EvEnvLogCreate (entry : IEnvLog)
| EvEnvFileFind
| EvEnvFileCreate (row : IEnvFile)
| EvEnvFileSave (id : ObjectId)
| EvEnvFileDelete (id : ObjectId)
| EvEnvFileDeleteMany (project : ObjectId)
| EvProjectSave (id : ObjectId).

(** ** The state a request runs against

    [process.env.MASTER_ENCRYPTION_KEY], the bytes [crypto.randomBytes] will
    deliver, the ObjectIds the driver will hand out, the collections, and the
    trace of events.  The document store is reliable except on the two
    queries of the audit path, which fail when their flag is set. *)

Record World := {
  MASTER_ENCRYPTION_KEY : option string;
  entropy : nat -> Z;
  entropyUsed : nat;
  idSupply : nat -> ObjectId;
  idsUsed : nat;
  Projects : list IProject;
  EnvFiles : list IEnvFile;
  EnvLogs : list IEnvLog;
  Users : list IUser;
  UserSettings : list IUserSettings;
  Secrets : list ISecret;
  failUserFind : bool;
  failEnvLogCreate : bool;
  trace : list Event
}.

Definition setEntropyUsed (n : nat) (w : World) : World :=
  {| MASTER_ENCRYPTION_KEY := MASTER_ENCRYPTION_KEY w; entropy := entropy w;
     entropyUsed := n; idSupply := idSupply w; idsUsed := idsUsed w;
     Projects := Projects w; EnvFiles := EnvFiles w; EnvLogs := EnvLogs w;
     Users := Users w; UserSettings := UserSettings w; Secrets := Secrets w;
     failUserFind := failUserFind w; failEnvLogCreate := failEnvLogCreate w;
     trace := trace w |}.

Definition setIdsUsed (n : nat) (w : World) : World :=
  {| MASTER_ENCRYPTION_KEY := MASTER_ENCRYPTION_KEY w; entropy := entropy w;
     entropyUsed := entropyUsed w; idSupply := idSupply w; idsUsed := n;
     Projects := Projects w; EnvFiles := EnvFiles w; EnvLogs := EnvLogs w;
     Users := Users w; UserSettings := UserSettings w; Secrets := Secrets w;
     failUserFind := failUserFind w; failEnvLogCreate := failEnvLogCreate w;
     trace := trace w |}.

Definition setProjects (ps : list IProject) (w : World) : World :=
  {| MASTER_ENCRYPTION_KEY := MASTER_ENCRYPTION_KEY w; entropy := entropy w;
     entropyUsed := entropyUsed w; idSupply := idSupply w; idsUsed := idsUsed w;
     Projects := ps; EnvFiles := EnvFiles w; EnvLogs := EnvLogs w;
     Users := Users w; UserSettings := UserSettings w; Secrets := Secrets w;
     failUserFind := failUserFind w; failEnvLogCreate := failEnvLogCreate w;
     trace := trace w |}.

Definition setEnvFiles (fs : list IEnvFile) (w : World) : World :=
  {| MASTER_ENCRYPTION_KEY := MASTER_ENCRYPTION_KEY w; entropy := entropy w;
     entropyUsed := entropyUsed w; idSupply := idSupply w; idsUsed := idsUsed w;
     Projects := Projects w; EnvFiles := fs; EnvLogs := EnvLogs w;
     Users := Users w; UserSettings := UserSettings w; Secrets := Secrets w;
     failUserFind := failUserFind w; failEnvLogCreate := failEnvLogCreate w;
     trace := trace w |}.

Definition setEnvLogs (ls : list IEnvLog) (w : World) : World :=
  {| MASTER_ENCRYPTION_KEY := MASTER_ENCRYPTION_KEY w; entropy := entropy w;
     entropyUsed := entropyUsed w; idSupply := idSupply w; idsUsed := idsUsed w;
     Projects := Projects w; EnvFiles := EnvFiles w; EnvLogs := ls;
     Users := Users w; UserSettings := UserSettings w; Secrets := Secrets w;
     failUserFind := failUserFind w; failEnvLogCreate := failEnvLogCreate w;
     trace := trace w |}.

Definition setTrace (t : list Event) (w : World) : World :=
  {| MASTER_ENCRYPTION_KEY := MASTER_ENCRYPTION_KEY w; entropy := entropy w;
     entropyUsed := entropyUsed w; idSupply := idSupply w; idsUsed := idsUsed w;
     Projects := Projects w; EnvFiles := EnvFiles w; EnvLogs := EnvLogs w;
     Users := Users w; UserSettings := UserSettings w; Secrets := Secrets w;
     failUserFind := failUserFind w; failEnvLogCreate := failEnvLogCreate w;
     trace := t |}.

(** ** Computations that read and write the world and may throw *)

Inductive Error :=
| MasterKeyNotSet
| InvalidMasterKey
| InvalidIVLength (got : nat)
| InvalidAuthTagLength (got : nat)
| DecryptionFailed
| ValidationFailed
| TypeError
| QueryFailed.

Inductive Outcome (A : Type) :=
| Ok (a : A)
| Throw (e : Error).
Arguments Ok {A} a.
Arguments Throw {A} e.

Definition M (A : Type) : Type := World -> Outcome A * World.

Definition ret {A} (a : A) : M A := fun w => (Ok a, w).
Definition throw {A} (e : Error) : M A := fun w => (Throw e, w).
Definition bind {A B} (c : M A) (k : A -> M B) : M B :=
  fun w => match c w with
           | (Ok a, w') => k a w'
           | (Throw e, w') => (Throw e, w')
           end.
Definition tryCatch {A} (c : M A) (handler : Error -> M A) : M A :=
  fun w => match c w with
           | (Ok a, w') => (Ok a, w')
           | (Throw e, w') => handler e w'
           end.
Definition gets {A} (f : World -> A) : M A := fun w => (Ok (f w), w).
Definition modify (f : World -> World) : M unit := fun w => (Ok tt, f w).
Definition emit (e : Event) : M unit :=
  modify (fun w => setTrace (trace w ++ [e]) w).

Notation "x <- c ;; k" := (bind c (fun x => k))
  (at level 61, c at next level, right associativity).
Notation "c ;;; k" := (bind c (fun _ => k))
  (at level 61, right associativity).

Section Backend.
Context {rt : NodeRuntime}.

(** * lib/crypto.ts *)

Definition KEY_LENGTH : nat := 32.
Definition IV_LENGTH : nat := 16.
Definition AUTH_TAG_LENGTH : nat := 16.

Record EncryptedBlob := {
  blob_encryptedData : Buffer;
  blob_iv : Buffer;
  blob_authTag : Buffer
}.

Fixpoint Buffer_eqb (a b : Buffer) : bool :=
  match a, b with
  | [], [] => true
  | x :: a', y :: b' => (x =? y) && Buffer_eqb a' b'
  | _, _ => false
  end.

(** [crypto.randomBytes(n)] *)
Definition randomBytes (n : nat) : M Buffer :=
  fun w => (Ok (map (entropy w) (seq (entropyUsed w) n)),
            setEntropyUsed (entropyUsed w + n) w).

(** Counter mode: the data xor the key stream, from position [i] on. *)
Fixpoint xorStream (ks : nat -> Z) (i : nat) (data : Buffer) : Buffer :=
  match data with
  | [] => []
  | b :: t => Z.lxor b (ks i) :: xorStream ks (S i) t
  end.

Definition getMasterKey : M Buffer :=
  keyBase64 <- gets MASTER_ENCRYPTION_KEY ;;
  match keyBase64 with
  | None => throw MasterKeyNotSet
  | Some s =>
      if (s =? "")%string then throw MasterKeyNotSet
      else
        tryCatch
          (let key := base64Decode s in
           if negb (List.length key =? KEY_LENGTH)%nat
           then throw InvalidMasterKey
           else ret key)
          (fun _ => throw InvalidMasterKey)
  end.

Definition encryptEnv (data : JSString) : M EncryptedBlob :=
  key <- getMasterKey ;;
  iv <- randomBytes IV_LENGTH ;;
  emit (EvCreateCipheriv iv) ;;;
  let encryptedData := xorStream (keystream key iv) 0 (utf8Encode data) in
  let authTag := gcmTag key iv encryptedData in
  ret {| blob_encryptedData := encryptedData;
         blob_iv := iv;
         blob_authTag := authTag |}.

Definition decryptEnv (encryptedData iv authTag : Buffer) : M JSString :=
  key <- getMasterKey ;;
  if negb (List.length iv =? IV_LENGTH)%nat
  then throw (InvalidIVLength (List.length iv))
  else if negb (List.length authTag =? AUTH_TAG_LENGTH)%nat
  then throw (InvalidAuthTagLength (List.length authTag))
  else
    emit (EvCreateDecipheriv iv) ;;;
    tryCatch
      (let decrypted := xorStream (keystream key iv) 0 encryptedData in
       if Buffer_eqb authTag (gcmTag key iv encryptedData)
       then ret (utf8Decode decrypted)
       else throw DecryptionFailed)
      (fun _ => throw DecryptionFailed).

(** A master key is valid when the variable is set and decodes to exactly
    [KEY_LENGTH] bytes. *)
Definition validMasterKey (w : World) : Prop :=
  exists s, MASTER_ENCRYPTION_KEY w = Some s /\ s <> ""%string /\
            List.length (base64Decode s) = KEY_LENGTH.

Definition masterKeyOf (w : World) : Buffer :=
  match MASTER_ENCRYPTION_KEY w with
  | Some s => base64Decode s
  | None => []
  end.

(** The nonce [encryptEnv] draws in world [w]. *)
Definition nextNonce (w : World) : Buffer :=
  map (entropy w) (seq (entropyUsed w) IV_LENGTH).

Definition sealed (key nonce : Buffer) (data : JSString) : EncryptedBlob :=
  let ct := xorStream (keystream key nonce) 0 (utf8Encode data) in
  {| blob_encryptedData := ct;
     blob_iv := nonce;
     blob_authTag := gcmTag key nonce ct |}.


(** * The document store (Mongoose queries) *)

(** ** Identifiers *)

Definition isHexDigit (c : ascii) : bool :=
  let n := nat_of_ascii c in
  ((48 <=? n) && (n <=? 57) || (65 <=? n) && (n <=? 70)
   || (97 <=? n) && (n <=? 102))%nat.

(** middleware/security.ts: [/^[0-9a-fA-F]{24}$/]. *)
Definition isValidObjectId (id : string) : bool :=
  if String.eqb id "" then false
  else (String.length id =? 24)%nat
       && forallb isHexDigit (list_ascii_of_string id).

Definition lowerHexDigit (c : ascii) : ascii :=
  let n := nat_of_ascii c in
  if ((65 <=? n) && (n <=? 70))%nat then ascii_of_nat (n + 32) else c.

(** The cast Mongoose applies to a string used where an ObjectId is
    expected: the identifier the hexadecimal digits spell, whatever their
    case. *)
Fixpoint castObjectId (s : string) : ObjectId :=
  match s with
  | EmptyString => EmptyString
  | String c t => String (lowerHexDigit c) (castObjectId t)
  end.

(** ** Generic list operations behind the queries *)

(** [updateOne({_id})]: the first document the predicate selects is
    replaced. *)
Fixpoint replaceFirst {A} (sel : A -> bool) (new : A) (l : list A) : list A :=
  match l with
  | [] => []
  | x :: t => if sel x then new :: t else x :: replaceFirst sel new t
  end.

(** [deleteOne]: the first document the predicate selects is removed. *)
Fixpoint removeFirst {A} (sel : A -> bool) (l : list A) : list A :=
  match l with
  | [] => []
  | x :: t => if sel x then t else x :: removeFirst sel t
  end.

(** [sort({version: -1}).limit(1)]: a document of greatest version, the
    earliest one among equals. *)
Definition latestOf (rows : list IEnvFile) : option IEnvFile :=
  fold_left
    (fun best r =>
       match best with
       | None => Some r
       | Some b => if version b <? version r then Some r else Some b
       end)
    rows None.

(** ** Projects *)

Definition Project_findById (id : string) : M (option IProject) :=
  gets (fun w =>
          find (fun p => String.eqb (project_id p) (castObjectId id))
               (Projects w)).

Definition Project_find_createdBy (userId : ObjectId) : M (list IProject) :=
  gets (fun w => filter (fun p => String.eqb (createdBy p) userId) (Projects w)).

Definition Project_save (p : IProject) : M unit :=
  emit (EvProjectSave (project_id p)) ;;;
  modify (fun w =>
            setProjects
              (replaceFirst (fun q => String.eqb (project_id q) (project_id p))
                            p (Projects w)) w).

(** ** Environment files *)

Definition EnvFile_findOne (sel : IEnvFile -> bool) : M (option IEnvFile) :=
  emit EvEnvFileFind ;;;
  gets (fun w => find sel (EnvFiles w)).

Definition EnvFile_find (sel : IEnvFile -> bool) : M (list IEnvFile) :=
  emit EvEnvFileFind ;;;
  gets (fun w => filter sel (EnvFiles w)).

Definition EnvFile_findLatest (sel : IEnvFile -> bool) : M (option IEnvFile) :=
  emit EvEnvFileFind ;;;
  gets (fun w => latestOf (filter sel (EnvFiles w))).

(** [EnvFile.create]: the driver assigns the next identifier of its supply. *)
Definition EnvFile_create
    (pid : ObjectId) (env : Environment) (blob : EncryptedBlob)
    (v : Z) (by_ : ObjectId) : M IEnvFile :=
  fun w =>
    let row := {| envFile_id := idSupply w (idsUsed w);
                  projectId := pid;
                  environment := env;
                  encryptedData := blob_encryptedData blob;
                  iv := blob_iv blob;
                  authTag := blob_authTag blob;
                  version := v;
                  uploadedBy := by_ |} in
    (Ok row,
     setTrace (trace w ++ [EvEnvFileCreate row])
       (setEnvFiles (EnvFiles w ++ [row]) (setIdsUsed (S (idsUsed w)) w))).

Definition EnvFile_save (row : IEnvFile) : M unit :=
  emit (EvEnvFileSave (envFile_id row)) ;;;
  modify (fun w =>
            setEnvFiles
              (replaceFirst
                 (fun r => String.eqb (envFile_id r) (envFile_id row))
                 row (EnvFiles w)) w).

Definition EnvFile_findByIdAndDelete (id : string) : M unit :=
  emit (EvEnvFileDelete (castObjectId id)) ;;;
  modify (fun w =>
            setEnvFiles
              (removeFirst
                 (fun r => String.eqb (envFile_id r) (castObjectId id))
                 (EnvFiles w)) w).

Definition EnvFile_deleteMany (pid : ObjectId) : M unit :=
  emit (EvEnvFileDeleteMany pid) ;;;
  modify (fun w =>
            setEnvFiles
              (filter (fun r => negb (String.eqb (projectId r) pid))
                      (EnvFiles w)) w).

Definition EnvFile_countDocuments (pids : list ObjectId) : M nat :=
  gets (fun w =>
          List.length
            (filter (fun r => existsb (String.eqb (projectId r)) pids)
                    (EnvFiles w))).

(** ** Users, settings and the audit collection *)

Definition parseEnvironment (s : string) : option Environment :=
  if String.eqb s "dev" then Some dev
  else if String.eqb s "staging" then Some staging
  else if String.eqb s "prod" then Some prod
  else None.

Definition Environment_name (e : Environment) : string :=
  match e with dev => "dev" | staging => "staging" | prod => "prod" end.

Definition User_findById (id : ObjectId) : M (option IUser) :=
  fun w =>
    if failUserFind w then (Throw QueryFailed, w)
    else (Ok (find (fun u => String.eqb (user_id u) id) (Users w)), w).

(** [populate('uploadedBy', 'name email')] *)
Definition populateUser (id : ObjectId) : M (option IUser) :=
  gets (fun w => find (fun u => String.eqb (user_id u) id) (Users w)).

Definition UserSettings_findOne (userId : ObjectId)
  : M (option IUserSettings) :=
  gets (fun w =>
          find (fun s => String.eqb (settings_userId s) userId)
               (UserSettings w)).

Definition EnvLog_create (entry : IEnvLog) : M unit :=
  fun w =>
    if failEnvLogCreate w then (Throw QueryFailed, w)
    else (Ok tt,
          setTrace (trace w ++ [EvEnvLogCreate entry])
                   (setEnvLogs (EnvLogs w ++ [entry]) w)).

(** [EnvLog.create] validates the document against the schema before it
    writes: an environment outside the enumeration is rejected, which
    [logEnvAction] below models where it builds the document.
    [EnvLog.find(query).sort({createdAt: -1}).limit(1000)]: *)
Definition EnvLog_findRecent (sel : IEnvLog -> bool) : M (list IEnvLog) :=
  gets (fun w => firstn 1000 (rev (filter sel (EnvLogs w)))).

(** * lib/logging.ts *)

Definition noMetadata : LogMetadata :=
  {| oldVersion := None; newVersion := None; fileName := None |}.

Definition metadataOrEmpty (metadata : option LogMetadata) : LogMetadata :=
  match metadata with Some m => m | None => noMetadata end.

(** The document [logEnvAction] hands to [EnvLog.create]. *)
Definition envLogDocument
    (pid userId : ObjectId) (action : LogAction) (env : Environment)
    (metadata : option LogMetadata) (envFileId : option ObjectId)
    (v : option Z) (usr : IUser) : IEnvLog :=
  {| log_projectId := pid;
     log_envFileId := envFileId;
     log_environment := env;
     log_version := v;
     log_action := action;
     performedBy := userId;
     performedByEmail := user_email usr;
     performedByName := user_name usr;
     log_metadata := metadataOrEmpty metadata |}.

Definition logEnvAction
    (pid userId : ObjectId) (action : LogAction) (environment_ : string)
    (metadata : option LogMetadata) (envFileId : option ObjectId)
    (v : option Z) : M unit :=
  emit (EvLogEnvAction action (metadataOrEmpty metadata)) ;;;
  tryCatch
    (u <- User_findById userId ;;
     match u with
     | None => ret tt
     | Some usr =>
         match parseEnvironment environment_ with
         | None => throw ValidationFailed
         | Some env =>
             EnvLog_create
               (envLogDocument pid userId action env metadata envFileId v usr)
         end
     end)
    (fun _ => ret tt).

(** The world after a call of [logEnvAction]: the call is on the trace and,
    unless the user lookup fails or finds nobody, the document is invalid
    or the write fails, the entry is in the audit collection. *)
Definition attempted (action : LogAction) (metadata : option LogMetadata)
    (w : World) : World :=
  setTrace (trace w ++ [EvLogEnvAction action (metadataOrEmpty metadata)]) w.

Definition logged (action : LogAction) (metadata : option LogMetadata)
    (entry : IEnvLog) (w : World) : World :=
  setTrace (trace w ++ [EvLogEnvAction action (metadataOrEmpty metadata);
                        EvEnvLogCreate entry])
           (setEnvLogs (EnvLogs w ++ [entry]) w).

(** The audit write of a call succeeds in world [w] with entry [entry]. *)
Definition auditWrites
    (pid userId : ObjectId) (action : LogAction) (environment_ : string)
    (metadata : option LogMetadata) (envFileId : option ObjectId)
    (v : option Z) (w : World) : option IEnvLog :=
  if failUserFind w then None
  else match find (fun u => String.eqb (user_id u) userId) (Users w),
             parseEnvironment environment_ with
       | Some usr, Some env =>
           if failEnvLogCreate w then None
           else Some (envLogDocument pid userId action env metadata
                                     envFileId v usr)
       | _, _ => None
       end.

(** * Requests and responses (Express)

    A request as the handlers see it, after [authenticate] has set
    [req.user], the rate limiter has let it pass and the body parsers (and
    multer, for [req.file]) have run.  A route parameter the route does not
    have is the empty string, which JavaScript treats like [undefined] in
    every test made of it here.  The identifier in [req.user] is the one
    the token was issued for, in its canonical rendering. *)

Record Request := {
  user : option ObjectId;
  params_projectId : string;
  params_id : string;
  params_envFileId : string;
  params_userId : string;
  body_environment : option string;
  body_content : option JSString;
  file : option Buffer;
  query_environment : option string;
  query_version : option Z
}.

(** What [select('-encryptedData -iv -authTag')] and
    [populate('uploadedBy', 'name email')] leave of an environment file. *)
Record EnvFileView := {
  view_id : ObjectId;
  view_projectId : ObjectId;
  view_environment : Environment;
  view_version : Z;
  view_uploadedBy : option IUser
}.

Record ExportedEnv := {
  export_projectName : string;
  export_environment : Environment;
  export_version : Z;
  export_content : JSString
}.

Record PanicResults := {
  result_downloadEnvs : bool;
  result_downloadContent : option (list ExportedEnv);
  result_flushEnvs : bool;
  result_flushedCount : option nat;
  result_revokeCollaborators : bool
}.

Inductive Payload :=
| JsonError (msg : string)
| JsonValidationErrors
| JsonEnvFile (doc : option EnvFileView) (message : string)
| JsonContent (content : JSString)
| SendEnv (plaintext : JSString)
| SendLogs (logs : list IEnvLog)
| JsonMessage (message : string)
| JsonProject (doc : option IProject)
| JsonPanic (results : PanicResults).

Record Response := {
  status : Z;
  body : Payload
}.

Definition respond (code : Z) (p : Payload) : M Response :=
  ret {| status := code; body := p |}.

(** [a || b] on route parameters *)
Definition orElse (a b : string) : string :=
  if String.eqb a "" then b else a.

Definition Permission_name (p : Permission) : string :=
  match p with read => "read" | write => "write" end.

(** * lib/authorization.ts *)

Definition isProjectOwner (userId : ObjectId) (project : IProject) : bool :=
  String.eqb (createdBy project) userId.

Definition findMember (userId : ObjectId) (project : IProject)
  : option IProjectMember :=
  find (fun m => String.eqb (member_userId m) userId) (members project).

Definition getUserProjectPermission (userId : ObjectId) (pid : string)
  : M (option Permission) :=
  project <- Project_findById pid ;;
  match project with
  | None => ret None
  | Some p =>
      if isProjectOwner userId p then ret (Some write)
      else match findMember userId p with
           | Some m => ret (Some (member_permission m))
           | None => ret None
           end
  end.

(** A middleware either answers the request itself or calls [next()] with
    the project attached to the request. *)
Inductive Guard :=
| Answered (res : Response)
| Next (project : IProject).

Definition answer (code : Z) (msg : string) : M Guard :=
  ret (Answered {| status := code; body := JsonError msg |}).

Definition requireProjectAccess (requiredPermission : Permission)
    (req : Request) : M Guard :=
  tryCatch
    (match user req with
     | None => answer 401 "Authentication required"
     | Some userId =>
         let pid := orElse (params_projectId req) (params_id req) in
         if String.eqb pid "" then answer 400 "Project ID required"
         else if negb (isValidObjectId pid)
         then answer 400 "Invalid project ID format"
         else
           project <- Project_findById pid ;;
           match project with
           | None => answer 404 "Project not found"
           | Some p =>
               if isProjectOwner userId p then ret (Next p)
               else
                 match findMember userId p with
                 | None =>
                     answer 403
                       "Access denied: You do not have access to this project"
                 | Some member =>
                     let hasAccess :=
                       Permission_eqb (member_permission member) write
                       || (Permission_eqb requiredPermission read
                           && Permission_eqb (member_permission member) read) in
                     if negb hasAccess then
                       answer 403
                         (String.append "Access denied: "
                            (String.append (Permission_name requiredPermission)
                                           " permission required"))
                     else ret (Next p)
                 end
           end
     end)
    (fun _ => answer 500 "Authorization error").

Definition requireProjectOwnership (req : Request) : M Guard :=
  tryCatch
    (match user req with
     | None => answer 401 "Authentication required"
     | Some userId =>
         let pid := orElse (params_projectId req) (params_id req) in
         if String.eqb pid "" then answer 400 "Project ID required"
         else if negb (isValidObjectId pid)
         then answer 400 "Invalid project ID format"
         else
           project <- Project_findById pid ;;
           match project with
           | None => answer 404 "Project not found"
           | Some p =>
               if negb (isProjectOwner userId p) then
                 answer 403
                   "Access denied: Only project owners can perform this action"
               else ret (Next p)
           end
     end)
    (fun _ => answer 500 "Authorization error").

(** A route: the guard, then the handler with the attached project. *)
Definition guarded (guard : M Guard) (handler : IProject -> M Response)
  : M Response :=
  g <- guard ;;
  match g with
  | Answered res => ret res
  | Next project => handler project
  end.

(** * routes/env.ts

    The handlers that record an audit event are written over the logger
    they call, which in the routes is [logEnvAction]; [noLog] is the logger
    that does nothing, against which the effect of the audit write is
    measured. *)

Definition Logger : Type :=
  ObjectId -> ObjectId -> LogAction -> string -> option LogMetadata ->
  option ObjectId -> option Z -> M unit.

Definition noLog : Logger := fun _ _ _ _ _ _ _ => ret tt.

Definition MAX_CONTENT : Z := 50 * 1024.

Definition viewOf (row : IEnvFile) (by_ : option IUser) : EnvFileView :=
  {| view_id := envFile_id row;
     view_projectId := projectId row;
     view_environment := environment row;
     view_version := version row;
     view_uploadedBy := by_ |}.

(** [EnvFile.findById(id).populate(...).select(...)] *)
Definition EnvFile_findView (id : ObjectId) : M (option EnvFileView) :=
  row <- EnvFile_findOne (fun r => String.eqb (envFile_id r) id) ;;
  match row with
  | None => ret None
  | Some r => u <- populateUser (uploadedBy r) ;; ret (Some (viewOf r u))
  end.

Definition inProject (pid : string) (env : Environment) (r : IEnvFile) : bool :=
  String.eqb (projectId r) (castObjectId pid)
  && Environment_eqb (environment r) env.

Definition byIdInProject (id pid : string) (r : IEnvFile) : bool :=
  String.eqb (envFile_id r) (castObjectId id)
  && String.eqb (projectId r) (castObjectId pid).

(** POST /:projectId/env: what the handler does with the plaintext once
    the request is validated. *)
Definition storeUploadWith (log : Logger) (pid : string) (userId : ObjectId)
    (environment_ : string) (env : Environment) (plaintextData : JSString)
  : M Response :=
  blob <- encryptEnv plaintextData ;;
  latestEnvFile <- EnvFile_findLatest (inProject pid env) ;;
  let nextVersion :=
    match latestEnvFile with
    | Some l => version l + 1
    | None => 1
    end in
  envFile <- EnvFile_create (castObjectId pid) env blob nextVersion userId ;;
  log (castObjectId pid) userId upload environment_
    (Some {| oldVersion := None;
             newVersion := Some nextVersion;
             fileName := None |})
    (Some (envFile_id envFile)) (Some nextVersion) ;;;
  populatedEnvFile <- EnvFile_findView (envFile_id envFile) ;;
  respond 201
    (JsonEnvFile populatedEnvFile "Environment file uploaded successfully").

Definition uploadHandlerWith (log : Logger) (req : Request) : M Response :=
  tryCatch
    (match user req with
     | None => respond 401 (JsonError "Not authenticated")
     | Some userId =>
         match body_environment req with
         | None => respond 400 JsonValidationErrors
         | Some environment_ =>
             match parseEnvironment environment_ with
             | None => respond 400 JsonValidationErrors
             | Some env =>
                 let pid := params_projectId req in
                 if negb (isValidObjectId pid)
                 then respond 400 (JsonError "Invalid project ID format")
                 else
                   match file req, body_content req with
                   | Some buffer, _ =>
                       let plaintextData := utf8Decode buffer in
                       if MAX_CONTENT <? Z.of_nat (List.length plaintextData)
                       then respond 400
                              (JsonError "File size must be less than 50KB")
                       else storeUploadWith log pid userId environment_ env
                                        plaintextData
                   | None, Some (c :: content) =>
                       if MAX_CONTENT <? Z.of_nat (List.length (c :: content))
                       then respond 400
                              (JsonError "Content size must be less than 50KB")
                       else storeUploadWith log pid userId environment_ env
                                        (c :: content)
                   | None, _ =>
                       respond 400
                         (JsonError "Either file or content must be provided")
                   end
             end
         end
     end)
    (fun _ => respond 500 (JsonError "Failed to upload environment file")).

Definition uploadHandler := uploadHandlerWith logEnvAction.

Definition uploadRouteWith (log : Logger) (req : Request) : M Response :=
  guarded (requireProjectAccess write req)
          (fun _ => uploadHandlerWith log req).

Definition uploadRoute := uploadRouteWith logEnvAction.

(** GET /:projectId/env/:envFileId/content *)
Definition contentHandler (req : Request) : M Response :=
  tryCatch
    (let pid := params_projectId req in
     let envFileId := params_envFileId req in
     if negb (isValidObjectId pid) || negb (isValidObjectId envFileId)
     then respond 400 (JsonError "Invalid ID format")
     else
       envFile <- EnvFile_findOne (byIdInProject envFileId pid) ;;
       match envFile with
       | None => respond 404 (JsonError "Environment file not found")
       | Some f =>
           plaintextData <-
             decryptEnv (encryptedData f) (iv f) (authTag f) ;;
           respond 200 (JsonContent plaintextData)
       end)
    (fun _ =>
       respond 500 (JsonError "Failed to get environment file content")).

Definition contentRoute (req : Request) : M Response :=
  guarded (requireProjectAccess read req) (fun _ => contentHandler req).

(** GET /:projectId/env *)
Definition downloadHandlerWith (log : Logger) (req : Request)
  : M Response :=
  tryCatch
    (let environmentOk :=
       match query_environment req with
       | None => true
       | Some s =>
           match parseEnvironment s with Some _ => true | None => false end
       end in
     let versionOk :=
       match query_version req with
       | None => true
       | Some v => (1 <=? v) && (v <=? 10000)
       end in
     if negb (environmentOk && versionOk)
     then respond 400 JsonValidationErrors
     else
       let pid := params_projectId req in
       let environment_ :=
         match query_environment req with Some s => s | None => "" end in
       let sel (r : IEnvFile) : bool :=
         match parseEnvironment environment_ with
         | Some env => inProject pid env r
         | None => false
         end in
       envFile <-
         match query_version req with
         | Some v => EnvFile_findOne (fun r => sel r && (version r =? v))
         | None => EnvFile_findLatest sel
         end ;;
       match envFile with
       | None => respond 404 (JsonError "Environment file not found")
       | Some f =>
           plaintextData <-
             decryptEnv (encryptedData f) (iv f) (authTag f) ;;
           match user req with
           | None => respond 401 (JsonError "Not authenticated")
           | Some userId =>
               log (castObjectId pid) userId download environment_
                 (Some {| oldVersion := None;
                          newVersion := None;
                          fileName := Some ".env" |})
                 (Some (envFile_id f)) (Some (version f)) ;;;
               respond 200 (SendEnv plaintextData)
           end
       end)
    (fun _ => respond 500 (JsonError "Failed to download environment file")).

Definition downloadHandler := downloadHandlerWith logEnvAction.

Definition downloadRouteWith (log : Logger) (req : Request) : M Response :=
  guarded (requireProjectAccess read req) (fun _ => downloadHandlerWith log req).

Definition downloadRoute := downloadRouteWith logEnvAction.

(** PUT /:projectId/env/:envFileId *)
Definition editHandlerWith (log : Logger) (req : Request)
  : M Response :=
  tryCatch
    (let contentOk :=
       match body_content req with
       | None => false
       | Some c => negb (MAX_CONTENT <? Z.of_nat (List.length c))
       end in
     if negb (isValidObjectId (params_envFileId req) && contentOk)
     then respond 400 JsonValidationErrors
     else
       match user req, body_content req with
       | Some userId, Some content =>
           let pid := params_projectId req in
           let envFileId := params_envFileId req in
           envFile <- EnvFile_findOne (byIdInProject envFileId pid) ;;
           match envFile with
           | None => respond 404 (JsonError "Environment file not found")
           | Some f =>
               let oldVersion_ := version f in
               blob <- encryptEnv content ;;
               EnvFile_save
                 {| envFile_id := envFile_id f;
                    projectId := projectId f;
                    environment := environment f;
                    encryptedData := blob_encryptedData blob;
                    iv := blob_iv blob;
                    authTag := blob_authTag blob;
                    version := version f;
                    uploadedBy := uploadedBy f |} ;;;
               log (castObjectId pid) userId edit
                 (Environment_name (environment f))
                 (Some {| oldVersion := Some oldVersion_;
                          newVersion := Some oldVersion_;
                          fileName := None |})
                 (Some (castObjectId envFileId)) (Some oldVersion_) ;;;
               populatedEnvFile <- EnvFile_findView (envFile_id f) ;;
               respond 200
                 (JsonEnvFile populatedEnvFile
                    "Environment file updated successfully")
           end
       | _, _ => respond 401 (JsonError "Not authenticated")
       end)
    (fun _ => respond 500 (JsonError "Failed to update environment file")).

Definition editHandler := editHandlerWith logEnvAction.

Definition editRouteWith (log : Logger) (req : Request) : M Response :=
  guarded (requireProjectOwnership req) (fun _ => editHandlerWith log req).

Definition editRoute := editRouteWith logEnvAction.

(** DELETE /:projectId/env/:envFileId *)
Definition deleteHandlerWith (log : Logger) (req : Request)
  : M Response :=
  tryCatch
    (match user req with
     | None => respond 401 (JsonError "Not authenticated")
     | Some userId =>
         let pid := params_projectId req in
         let envFileId := params_envFileId req in
         if negb (isValidObjectId pid) || negb (isValidObjectId envFileId)
         then respond 400 (JsonError "Invalid ID format")
         else
           envFile <- EnvFile_findOne (byIdInProject envFileId pid) ;;
           match envFile with
           | None => respond 404 (JsonError "Environment file not found")
           | Some f =>
               log (castObjectId pid) userId delete
                 (Environment_name (environment f))
                 (Some {| oldVersion := Some (version f);
                          newVersion := None;
                          fileName := None |})
                 (Some (castObjectId envFileId)) (Some (version f)) ;;;
               EnvFile_findByIdAndDelete envFileId ;;;
               respond 200
                 (JsonMessage "Environment file deleted successfully")
           end
     end)
    (fun _ => respond 500 (JsonError "Failed to delete environment file")).

Definition deleteHandler := deleteHandlerWith logEnvAction.

Definition deleteRouteWith (log : Logger) (req : Request) : M Response :=
  guarded (requireProjectOwnership req) (fun _ => deleteHandlerWith log req).

Definition deleteRoute := deleteRouteWith logEnvAction.

(** GET /:projectId/env/logs/download

    The response carries the entries the text is rendered from. *)
Definition logsDownloadHandlerWith (log : Logger) (req : Request)
  : M Response :=
  tryCatch
    (let pid := params_projectId req in
     let environment_ :=
       match query_environment req with Some s => s | None => "" end in
     logs <-
       EnvLog_findRecent
         (fun l =>
            String.eqb (log_projectId l) (castObjectId pid)
            && (if String.eqb environment_ "" then true
                else String.eqb (Environment_name (log_environment l))
                                environment_)) ;;
     match user req with
     | None => throw TypeError
     | Some userId =>
         log (castObjectId pid) userId access
           (if String.eqb environment_ "" then "dev" else environment_)
           (Some {| oldVersion := None;
                    newVersion := None;
                    fileName := Some "logs.txt" |})
           None None ;;;
         respond 200 (SendLogs logs)
     end)
    (fun _ => respond 500 (JsonError "Failed to download logs")).

Definition logsDownloadHandler := logsDownloadHandlerWith logEnvAction.

Definition logsDownloadRouteWith (log : Logger) (req : Request) : M Response :=
  guarded (requireProjectOwnership req) (fun _ => logsDownloadHandlerWith log req).

Definition logsDownloadRoute := logsDownloadRouteWith logEnvAction.

(** * routes/projects.ts *)

Definition withMembers (p : IProject) (ms : list IProjectMember) : IProject :=
  {| project_id := project_id p;
     project_name := project_name p;
     createdBy := createdBy p;
     members := ms |}.

(** DELETE /:id/members/:userId.  The response carries the project as
    stored ([populate] only decorates the identifiers). *)
Definition removeMemberHandler (req : Request) (project : IProject)
  : M Response :=
  tryCatch
    (let userId := params_userId req in
     if negb (isValidObjectId userId)
     then respond 400 (JsonError "Invalid user ID format")
     else
       let project' :=
         withMembers project
           (filter (fun m => negb (String.eqb (member_userId m) userId))
                   (members project)) in
       Project_save project' ;;;
       populatedProject <- Project_findById (params_id req) ;;
       respond 200 (JsonProject populatedProject))
    (fun _ => respond 500 (JsonError "Failed to remove member")).

Definition removeMemberRoute (req : Request) : M Response :=
  guarded (requireProjectOwnership req) (removeMemberHandler req).

(** * routes/settings.ts *)

(** [for (const x of xs) { ... push ... }] *)
Fixpoint collect {A B} (xs : list A) (f : A -> M (list B)) : M (list B) :=
  match xs with
  | [] => ret []
  | x :: t => ys <- f x ;; zs <- collect t f ;; ret (ys ++ zs)
  end.

Fixpoint forEach {A} (xs : list A) (f : A -> M unit) : M unit :=
  match xs with
  | [] => ret tt
  | x :: t => f x ;;; forEach t f
  end.

(** [latestByEnv[env] = envFile] when the key is new or the version greater;
    the keys of the object keep the order in which they were first set. *)
Fixpoint upsertLatest (envFile : IEnvFile)
    (latestByEnv : list (Environment * IEnvFile))
  : list (Environment * IEnvFile) :=
  match latestByEnv with
  | [] => [(environment envFile, envFile)]
  | (env, cur) :: t =>
      if Environment_eqb env (environment envFile) then
        if version cur <? version envFile then (env, envFile) :: t
        else (env, cur) :: t
      else (env, cur) :: upsertLatest envFile t
  end.

Definition exportProject (project : IProject) : M (list ExportedEnv) :=
  projectEnvs <-
    EnvFile_find (fun r => String.eqb (projectId r) (project_id project)) ;;
  let latestByEnv :=
    fold_left (fun acc envFile => upsertLatest envFile acc)
              (rev projectEnvs) [] in
  collect latestByEnv
    (fun entry =>
       let envFile := snd entry in
       tryCatch
         (decryptedContent <-
            decryptEnv (encryptedData envFile) (iv envFile)
                       (authTag envFile) ;;
          ret [{| export_projectName := project_name project;
                  export_environment := fst entry;
                  export_version := version envFile;
                  export_content := decryptedContent |}])
         (fun _ => ret [])).

Definition downloadStep (projects : list IProject)
  : M (bool * option (list ExportedEnv)) :=
  tryCatch
    (envFiles <- collect projects exportProject ;;
     ret (true, Some envFiles))
    (fun _ => ret (false, None)).

Definition flushStep (projects : list IProject) : M (bool * option nat) :=
  tryCatch
    (countBefore <- EnvFile_countDocuments (map project_id projects) ;;
     forEach projects (fun p => EnvFile_deleteMany (project_id p)) ;;;
     ret (true, Some countBefore))
    (fun _ => ret (false, None)).

Definition revokeStep (projects : list IProject) : M bool :=
  tryCatch
    (forEach projects (fun p => Project_save (withMembers p [])) ;;;
     ret true)
    (fun _ => ret false).

(** POST /panic *)
Definition panicHandler (req : Request) : M Response :=
  tryCatch
    (match user req with
     | None => respond 401 (JsonError "Not authenticated")
     | Some userId =>
         settings <- UserSettings_findOne userId ;;
         match settings with
         | None => respond 400 (JsonError "Panic button not configured")
         | Some s =>
             let pb := panicButton s in
             if negb (flushEnvs pb) && negb (revokeCollaborators pb)
                && negb (downloadEnvs pb)
             then respond 400 (JsonError "No panic actions configured")
             else
               projects <- Project_find_createdBy userId ;;
               dl <- (if downloadEnvs pb then downloadStep projects
                      else ret (false, None)) ;;
               fl <- (if flushEnvs pb then flushStep projects
                      else ret (false, None)) ;;
               rv <- (if revokeCollaborators pb then revokeStep projects
                      else ret false) ;;
               respond 200
                 (JsonPanic
                    {| result_downloadEnvs := fst dl;
                       result_downloadContent := snd dl;
                       result_flushEnvs := fst fl;
                       result_flushedCount := snd fl;
                       result_revokeCollaborators := rv |})
         end
     end)
    (fun _ => respond 500 (JsonError "Failed to execute panic actions")).

(** * Sequences of requests *)











(** * Worlds up to the audit trail *)

Definition setFaults (userFind logCreate : bool) (w : World) : World :=
  {| MASTER_ENCRYPTION_KEY := MASTER_ENCRYPTION_KEY w; entropy := entropy w;
     entropyUsed := entropyUsed w; idSupply := idSupply w; idsUsed := idsUsed w;
     Projects := Projects w; EnvFiles := EnvFiles w; EnvLogs := EnvLogs w;
     Users := Users w; UserSettings := UserSettings w; Secrets := Secrets w;
     failUserFind := userFind; failEnvLogCreate := logCreate;
     trace := trace w |}.

(** The world without its failure flags and its trace, and without its
    audit collection as well. *)
Definition offFaults (w : World) : World :=
  setTrace [] (setFaults false false w).

Definition offAudit (w : World) : World := setEnvLogs [] (offFaults w).

(** Two worlds that differ at most in which audit queries fail (and in
    their trace); two worlds that differ at most in that and in the audit
    collection. *)
Definition sameOffFaults (w1 w2 : World) : Prop := offFaults w1 = offFaults w2.
Definition sameOffAudit (w1 w2 : World) : Prop := offAudit w1 = offAudit w2.

(** Two runs give the same result and worlds that agree off the audit
    trail. *)
Definition outcomeMatches {A} (r1 r2 : Outcome A * World) : Prop :=
  fst r1 = fst r2 /\ sameOffAudit (snd r1) (snd r2).

(** [c1] and [c2] take worlds related by [R] to the same result and to
    worlds related by [R']. *)
Definition related (R R' : World -> World -> Prop) {A} (c1 c2 : M A) : Prop :=
  forall w1 w2, R w1 w2 ->
                fst (c1 w1) = fst (c2 w2) /\ R' (snd (c1 w1)) (snd (c2 w2)).

(** * Vocabulary of the properties *)

(** The guard answered 403 and left the world as it was. *)
Definition denied (g : Outcome Guard * World) (w : World) : Prop :=
  exists msg,
    g = (Ok (Answered {| status := 403; body := JsonError msg |}), w).

(** A row holds the encryption of [data] under [key] and [nonce]. *)
Definition holds (f : IEnvFile) (key nonce : Buffer) (data : JSString) : Prop :=
  List.length nonce = IV_LENGTH /\
  encryptedData f = blob_encryptedData (sealed key nonce data) /\
  iv f = nonce /\
  authTag f = blob_authTag (sealed key nonce data).

(** The metadata the delete route passes to the logger. *)
Definition deleteMetadata (f : IEnvFile) : LogMetadata :=
  {| oldVersion := Some (version f); newVersion := None; fileName := None |}.




(** The members the route leaves for a user id. *)
Definition without (userId : string) (ms : list IProjectMember)
  : list IProjectMember :=
  filter (fun m => negb (String.eqb (member_userId m) userId)) ms.

(** The events of the export sub-action of the panic route, and those of
    the revocation. *)
Definition isExportEvent (e : Event) : bool :=
  match e with
  | EvEnvFileFind | EvCreateDecipheriv _ => true
  | _ => false
  end.

Definition isProjectSave (e : Event) : bool :=
  match e with
  | EvProjectSave _ => true
  | _ => false
  end.

(** [w'] is [w] with events satisfying [P] added to its trace. *)
Definition extends (P : Event -> bool) (w w' : World) : Prop :=
  exists evs, w' = setTrace (trace w ++ evs) w /\ forallb P evs = true.

(** The rows a flush over the given projects leaves. *)
Definition survivors (pids : list ObjectId) (rows : list IEnvFile)
  : list IEnvFile :=
  filter (fun r => negb (existsb (String.eqb (projectId r)) pids)) rows.

(** The world after a flush over the given projects. *)
Definition flushed (pids : list ObjectId) (w : World) : World :=
  setTrace (trace w ++ map EvEnvFileDeleteMany pids)
           (setEnvFiles (survivors pids (EnvFiles w)) w).

(** Revoking rewrites projects only. *)
Definition onlyProjects (w w' : World) : Prop :=
  exists ps evs,
    w' = setTrace (trace w ++ evs) (setProjects ps w) /\
    forallb isProjectSave evs = true.

(** The projects a user owns. *)
Definition ownedBy (u : ObjectId) (w : World) : list IProject :=
  filter (fun p => String.eqb (createdBy p) u) (Projects w).

(** A computation that reads and writes only what the two worlds share. *)
Definition steady {A} (c : M A) : Prop := related sameOffAudit sameOffAudit c c.

(** Two loggers that both return normally and touch nothing but the audit
    trail. *)
Definition quiet (log1 log2 : Logger) : Prop :=
  forall pid u a env meta fid v,
    related sameOffAudit sameOffAudit
            (log1 pid u a env meta fid v) (log2 pid u a env meta fid v).


(** * Further vocabulary: strings *)

(** A sequence of 16-bit code units, which is what a JavaScript string is. *)
Definition isCodeUnits (s : JSString) : bool := forallb (inRange 0 0xFFFF) s.

(** [String.prototype.toWellFormed]: every unpaired surrogate replaced by
    U+FFFD. *)
Fixpoint toWellFormed (s : JSString) : JSString :=
  match s with
  | [] => []
  | u :: t =>
      if isHighSurrogate u then
        match t with
        | l :: t' =>
            if isLowSurrogate l then u :: l :: toWellFormed t'
            else REPLACEMENT :: toWellFormed t
        | [] => [REPLACEMENT]
        end
      else if isLowSurrogate u then REPLACEMENT :: toWellFormed t
      else u :: toWellFormed t
  end.

(** * Further vocabulary: what a run leaves in place *)

(** Every run of [c] takes a world to one that [R] relates to it. *)
Definition keeps (R : World -> World -> Prop) {A} (c : M A) : Prop :=
  forall w, R w (snd (c w)).

(** [w'] is [w] with entries added at the end of the audit collection and
    events at the end of the trace, and with the same users, settings,
    secrets and master key. *)
Definition grows (w w' : World) : Prop :=
  (exists entries, EnvLogs w' = EnvLogs w ++ entries) /\
  (exists evs, trace w' = trace w ++ evs) /\
  Users w' = Users w /\
  UserSettings w' = UserSettings w /\
  Secrets w' = Secrets w /\
  MASTER_ENCRYPTION_KEY w' = MASTER_ENCRYPTION_KEY w.

(** ... and moreover with the same projects and with rows added at the end
    of the environment files, the rows of [w] being all there, unchanged
    and in their order. *)
Definition keepsHistory (w w' : World) : Prop :=
  grows w w' /\
  Projects w' = Projects w /\
  exists rows, EnvFiles w' = EnvFiles w ++ rows.

(** * Further vocabulary: the environment routes *)



(** The row a download request asks for: the one of the given version, or
    the latest of the pair. *)
Definition requested (dl : Request) (env : Environment) (w : World)
  : option IEnvFile :=
  match query_version dl with
  | Some v =>
      find (fun r => inProject (params_projectId dl) env r && (version r =? v))
           (EnvFiles w)
  | None => latestOf (filter (inProject (params_projectId dl) env) (EnvFiles w))
  end.

(** The metadata the download route passes to the logger. *)
Definition downloadMetadata : LogMetadata :=
  {| oldVersion := None; newVersion := None; fileName := Some ".env" |}.

Definition isLogCall (e : Event) : bool :=
  match e with
  | EvLogEnvAction _ _ => true
  | _ => false
  end.


(** * routes/projects.ts, continued *)







(** GET /: the projects the user created or is a member of, the newest
    first (the collection holds the projects in the order of their
    creation). *)
Inductive Listing :=
| ListingError (msg : string)
| ListingProjects (projects : list IProject).

Record ListResponse := {
  list_status : Z;
  list_body : Listing
}.

Definition Project_find_mine (userId : ObjectId) : M (list IProject) :=
  gets (fun w =>
          rev (filter
                 (fun p =>
                    String.eqb (createdBy p) userId
                    || existsb (fun m => String.eqb (member_userId m) userId)
                               (members p))
                 (Projects w))).

Definition listProjectsRoute (req : Request) : M ListResponse :=
  tryCatch
    (match user req with
     | None =>
         ret {| list_status := 401;
                list_body := ListingError "Not authenticated" |}
     | Some userId =>
         projects <- Project_find_mine userId ;;
         ret {| list_status := 200; list_body := ListingProjects projects |}
     end)
    (fun _ =>
       ret {| list_status := 500;
              list_body := ListingError "Failed to fetch projects" |}).


(** The request GET /:id of user [u] for the project of identifier
    [pid]. *)
Definition requestFor (u : ObjectId) (pid : string) : Request :=
  {| user := Some u;
     params_projectId := "";
     params_id := pid;
     params_envFileId := "";
     params_userId := "";
     body_environment := None;
     body_content := None;
     file := None;
     query_environment := None;
     query_version := None |}.


(** * routes/settings.ts, continued *)

(** One step of the revocation: the stored project of that identifier is
    replaced by the project without its members. *)
Definition revokeOne (ps : list IProject) (p : IProject) : list IProject :=
  replaceFirst (fun q => String.eqb (project_id q) (project_id p))
               (withMembers p []) ps.

(** The projects after every project of user [u] has lost its members. *)
Definition revoked (u : ObjectId) (ps : list IProject) : list IProject :=
  map (fun p => if String.eqb (createdBy p) u then withMembers p [] else p) ps.

(** The latest row of each environment among [rows], as the export
    computes it. *)
Definition latestByEnv (rows : list IEnvFile) : list (Environment * IEnvFile) :=
  fold_left (fun acc envFile => upsertLatest envFile acc) rows [].

(** An exported block is the decrypted text of a stored row of the
    project, of greatest version in its environment. *)
Definition exportedFrom (w0 : World) (p : IProject) (e : ExportedEnv) : Prop :=
  export_projectName e = project_name p /\
  exists f,
    In f (EnvFiles w0) /\
    projectId f = project_id p /\
    environment f = export_environment e /\
    version f = export_version e /\
    (forall g, In g (EnvFiles w0) -> projectId g = project_id p ->
               environment g = environment f -> version g <= version f) /\
    fst (decryptEnv (encryptedData f) (iv f) (authTag f) w0)
      = Ok (export_content e).

(** * JavaScript values (lib/secure-logger.ts, middleware/validation.ts)

    The data the two sanitizers walk: what [JSON.parse] produces, and
    [undefined] and Buffers besides.  The fields of an object are listed
    in the order [Object.entries] yields them, under distinct keys; a
    number passes through both functions untouched, so that an integer
    stands for it. *)

#[local] Unset Elimination Schemes.
Inductive JSValue :=
| JSNull
| JSUndefined
| JSBool (b : bool)
| JSNumber (n : Z)
| JSStr (s : JSString)
| JSBuffer (b : Buffer)
| JSArray (items : list JSValue)
| JSObject (fields : list (JSString * JSValue)).
#[local] Set Elimination Schemes.

Section JSValueInduction.
Variable P : JSValue -> Prop.
Hypothesis Hnull : P JSNull.
Hypothesis Hundefined : P JSUndefined.
Hypothesis Hbool : forall b, P (JSBool b).
Hypothesis Hnumber : forall n, P (JSNumber n).
Hypothesis Hstr : forall s, P (JSStr s).
Hypothesis Hbuffer : forall b, P (JSBuffer b).
Hypothesis Harray : forall items, Forall P items -> P (JSArray items).
Hypothesis Hobject :
  forall fields, Forall (fun kv => P (snd kv)) fields -> P (JSObject fields).

Fixpoint JSValue_nested_ind (v : JSValue) : P v :=
  match v with
  | JSNull => Hnull
  | JSUndefined => Hundefined
  | JSBool b => Hbool b
  | JSNumber n => Hnumber n
  | JSStr s => Hstr s
  | JSBuffer b => Hbuffer b
  | JSArray items =>
      Harray items
        ((fix all (l : list JSValue) : Forall P l :=
            match l with
            | [] => Forall_nil P
            | x :: t => Forall_cons x (JSValue_nested_ind x) (all t)
            end) items)
  | JSObject fields =>
      Hobject fields
        ((fix all (l : list (JSString * JSValue))
            : Forall (fun kv => P (snd kv)) l :=
            match l with
            | [] => Forall_nil _
            | kv :: t => Forall_cons kv (JSValue_nested_ind (snd kv)) (all t)
            end) fields)
  end.
End JSValueInduction.

(** The code units of a string literal of the source. *)
Definition units (s : string) : JSString :=
  map (fun c => Z.of_nat (nat_of_ascii c)) (list_ascii_of_string s).

Fixpoint JSString_eqb (a b : JSString) : bool :=
  match a, b with
  | [], [] => true
  | x :: a', y :: b' => (x =? y) && JSString_eqb a' b'
  | _, _ => false
  end.

Fixpoint startsWith (prefix s : JSString) : bool :=
  match prefix, s with
  | [], _ => true
  | p :: prefix', c :: s' => (p =? c) && startsWith prefix' s'
  | _ :: _, [] => false
  end.

(** [s.includes(word)] *)
Fixpoint includes (word s : JSString) : bool :=
  startsWith word s
  || match s with
     | [] => false
     | _ :: s' => includes word s'
     end.

(** What a regular expression with the [i] flag (and without the [u]
    flag) compares: the letters a to z are taken to upper case and no
    character outside ASCII is ever taken to an ASCII one. *)
Definition canonicalize (c : Z) : Z :=
  if inRange 97 122 c then c - 32 else c.

(** [/word/i.test(key)] for a word of ASCII letters. *)
Definition testIgnoreCase (word : string) (key : JSString) : bool :=
  includes (map canonicalize (units word)) (map canonicalize key).

(** * lib/secure-logger.ts *)

Definition SENSITIVE_PATTERNS : list string :=
  ["password"; "token"; "secret"; "key"; "credential"; "auth"].

Definition isSensitive (key : JSString) : bool :=
  existsb (fun pattern => testIgnoreCase pattern key) SENSITIVE_PATTERNS.

(** [sanitized[key] = value] on a fresh object or array: the key
    [__proto__] names no field (the assignment goes to the prototype). *)
Definition assigns (key : JSString) : bool :=
  negb (JSString_eqb key (units "__proto__")).

Fixpoint sanitizeLogData (data : JSValue) : JSValue :=
  match data with
  | JSNull | JSUndefined => data
  | JSStr s =>
      if (100 <? List.length s)%nat
      then JSStr (units "[Large data omitted]")
      else data
  | JSBool _ | JSNumber _ => data
  | JSBuffer _ => JSStr (units "[Buffer]")
  | JSArray items =>
      JSArray
        (map (fun value =>
                match value with
                | JSArray _ | JSObject _ => sanitizeLogData value
                | JSBuffer _ => JSStr (units "[Buffer]")
                | _ => value
                end)
             items)
  | JSObject fields =>
      JSObject
        (flat_map
           (fun entry =>
              let key := fst entry in
              let value := snd entry in
              if assigns key then
                [(key,
                  if isSensitive key then JSStr (units "[REDACTED]")
                  else match value with
                       | JSArray _ | JSObject _ => sanitizeLogData value
                       | JSBuffer _ => JSStr (units "[Buffer]")
                       | _ => value
                       end)]
              else [])
           fields)
  end.

(** No Buffer is left in a value, and every field under a sensitive key
    holds the mark. *)
Fixpoint redacted (v : JSValue) : bool :=
  match v with
  | JSBuffer _ => false
  | JSArray items => forallb redacted items
  | JSObject fields =>
      forallb
        (fun entry =>
           if isSensitive (fst entry)
           then match snd entry with
                | JSStr s => JSString_eqb s (units "[REDACTED]")
                | _ => false
                end
           else redacted (snd entry))
        fields
  | _ => true
  end.

(** What [sanitizeLogData] stores under a key that is not sensitive. *)
Definition loggedValue (value : JSValue) : JSValue :=
  match value with
  | JSArray _ | JSObject _ => sanitizeLogData value
  | JSBuffer _ => JSStr (units "[Buffer]")
  | _ => value
  end.

(** * middleware/validation.ts: the sanitizers *)

(** The white space and line terminators of ECMAScript, which
    [String.prototype.trim] removes. *)
Definition isWhiteSpace (c : Z) : bool :=
  inRange 9 13 c || (c =? 32) || (c =? 160) || (c =? 0x1680)
  || inRange 0x2000 0x200A c || (c =? 0x2028) || (c =? 0x2029)
  || (c =? 0x202F) || (c =? 0x205F) || (c =? 0x3000) || (c =? 0xFEFF).

Fixpoint trimStart (s : JSString) : JSString :=
  match s with
  | [] => []
  | c :: t => if isWhiteSpace c then trimStart t else s
  end.

Definition trim (s : JSString) : JSString :=
  rev (trimStart (rev (trimStart s))).

(** [input.replace(/\0/g, '').trim()], and the empty string for what is
    no string. *)
Definition sanitizeString (input : JSValue) : JSString :=
  match input with
  | JSStr s => trim (filter (fun c => negb (c =? 0)) s)
  | _ => []
  end.




(** A string without NUL and without white space at either end. *)
Definition noSpaceAhead (s : JSString) : bool :=
  match s with
  | [] => true
  | c :: _ => negb (isWhiteSpace c)
  end.

Definition tidy (s : JSString) : bool :=
  forallb (fun c => negb (c =? 0)) s && noSpaceAhead s && noSpaceAhead (rev s).




End Backend.

(** * A small runtime and store to evaluate the model on

    The statements below hold for every runtime; this one has a standard
    base64 decoder and a toy key stream and tag in place of AES and GHASH,
    so that the handlers can be run on concrete requests. *)

Definition base64Value (c : ascii) : option Z :=
  let n := nat_of_ascii c in
  if ((65 <=? n) && (n <=? 90))%nat then Some (Z.of_nat (n - 65))
  else if ((97 <=? n) && (n <=? 122))%nat then Some (Z.of_nat (n - 71))
  else if ((48 <=? n) && (n <=? 57))%nat then Some (Z.of_nat (n + 4))
  else if (n =? 43)%nat then Some 62
  else if (n =? 47)%nat then Some 63
  else None.

Fixpoint sextets (cs : list ascii) : list Z :=
  match cs with
  | [] => []
  | c :: t => match base64Value c with
              | Some v => v :: sextets t
              | None => sextets t
              end
  end.

Fixpoint sextetsToBytes (l : list Z) : Buffer :=
  match l with
  | a :: b :: c :: d :: t =>
      (a * 4 + b / 16) :: ((b mod 16) * 16 + c / 4) :: ((c mod 4) * 64 + d)
        :: sextetsToBytes t
  | [a; b; c] => [a * 4 + b / 16; (b mod 16) * 16 + c / 4]
  | [a; b] => [a * 4 + b / 16]
  | _ => []
  end.

Definition demoBase64 (s : string) : Buffer :=
  sextetsToBytes (sextets (list_ascii_of_string s)).

Definition demoKeystream (key nonce : Buffer) (i : nat) : Z :=
  (nth (i mod 32) key 0 + nth (i mod 16) nonce 0 + 7 * Z.of_nat i) mod 256.

Definition demoTag (key nonce ct : Buffer) : Buffer :=
  map (fun j =>
         fold_left (fun acc b => (acc * 31 + b) mod 256) ct
                   ((nth j key 0 + nth j nonce 0) mod 256))
      (seq 0 16).

Lemma demoTag_length key nonce ct : List.length (demoTag key nonce ct) = 16%nat.
Proof. unfold demoTag. rewrite length_map, length_seq. reflexivity. Qed.

Definition demoRuntime : NodeRuntime :=
  {| base64Decode := demoBase64;
     keystream := demoKeystream;
     gcmTag := demoTag;
     gcmTag_length := demoTag_length |}.

Definition hexDigit (n : nat) : ascii :=
  ascii_of_nat (if (n <? 10)%nat then 48 + n else 87 + n).

Fixpoint hexOf (digits n : nat) : string :=
  match digits with
  | O => ""
  | S d => String.append (hexOf d (n / 16)) (String (hexDigit (n mod 16)) "")
  end.

(** The identifiers the demo driver hands out: e00000000000000000000000,
    e00000000000000000000001, ... *)
Definition demoIds (n : nat) : ObjectId := String "e" (hexOf 23 n).

Definition alice : ObjectId := "a00000000000000000000001".
Definition bob : ObjectId := "b00000000000000000000002".
Definition carol : ObjectId := "c00000000000000000000003".
Definition dave : ObjectId := "d00000000000000000000004".

Definition projectA : IProject :=
  {| project_id := "0123456789abcdef00000001";
     project_name := "alpha";
     createdBy := alice;
     members := [ {| member_userId := bob; member_permission := write |};
                  {| member_userId := carol; member_permission := read |} ] |}.

Definition projectB : IProject :=
  {| project_id := "0123456789abcdef00000002";
     project_name := "beta";
     createdBy := bob;
     members := [ {| member_userId := alice; member_permission := write |} ] |}.

Definition demoUsers : list IUser :=
  [ {| user_id := alice; user_name := "Alice"; user_email := "alice@example.org" |};
    {| user_id := bob; user_name := "Bob"; user_email := "bob@example.org" |};
    {| user_id := carol; user_name := "Carol"; user_email := "carol@example.org" |} ].

Definition demoSecret : ISecret :=
  {| secret_id := "5ec000000000000000000001";
     secret_projectId := project_id projectA;
     secret_name := "API_TOKEN";
     secret_encryptedData := [1; 2; 3];
     secret_iv := [];
     secret_authTag := [];
     secret_createdBy := alice |}.

Definition demoWorld : World :=
  {| MASTER_ENCRYPTION_KEY :=
       Some "AAECAwQFBgcICQoLDA0ODxAREhMUFRYXGBkaGxwdHh8=";
     entropy := fun n => Z.of_nat ((n * 37 + 11) mod 256);
     entropyUsed := 0;
     idSupply := demoIds;
     idsUsed := 0;
     Projects := [projectA; projectB];
     EnvFiles := [];
     EnvLogs := [];
     Users := demoUsers;
     UserSettings :=
       [ {| settings_userId := alice;
            flushDuration := None;
            panicButton := {| flushEnvs := true;
                              revokeCollaborators := false;
                              downloadEnvs := true;
                              askConfirmation := true |} |} ];
     Secrets := [demoSecret];
     failUserFind := false;
     failEnvLogCreate := false;
     trace := [] |}.

Definition demoRequest : Request :=
  {| user := Some alice;
     params_projectId := "0123456789abcdef00000001";
     params_id := "";
     params_envFileId := "";
     params_userId := "";
     body_environment := Some "dev";
     body_content := Some [65; 61; 49];
     file := None;
     query_environment := None;
     query_version := None |}.

Definition asUser (u : option ObjectId) (req : Request) : Request :=
  {| user := u;
     params_projectId := params_projectId req;
     params_id := params_id req;
     params_envFileId := params_envFileId req;
     params_userId := params_userId req;
     body_environment := body_environment req;
     body_content := body_content req;
     file := file req;
     query_environment := query_environment req;
     query_version := query_version req |}.

Definition withContent (c : JSString) (req : Request) : Request :=
  {| user := user req;
     params_projectId := params_projectId req;
     params_id := params_id req;
     params_envFileId := params_envFileId req;
     params_userId := params_userId req;
     body_environment := body_environment req;
     body_content := Some c;
     file := file req;
     query_environment := query_environment req;
     query_version := query_version req |}.

Definition withEnvFileId (id : string) (req : Request) : Request :=
  {| user := user req;
     params_projectId := params_projectId req;
     params_id := params_id req;
     params_envFileId := id;
     params_userId := params_userId req;
     body_environment := body_environment req;
     body_content := body_content req;
     file := file req;
     query_environment := query_environment req;
     query_version := query_version req |}.

(** The world after a request has been served. *)
Definition after {A} (c : M A) (w : World) : World := snd (c w).

(** The demo store after Alice has uploaded "A=1" and then "A=2" to
    (alpha, dev). *)
Definition demoWorld2 : World :=
  Eval vm_compute in
    after (@uploadRoute demoRuntime (withContent [65; 61; 50] demoRequest))
      (after (@uploadRoute demoRuntime demoRequest) demoWorld).

Definition onProject (id : string) (req : Request) : Request :=
  {| user := user req;
     params_projectId := id;
     params_id := params_id req;
     params_envFileId := params_envFileId req;
     params_userId := params_userId req;
     body_environment := body_environment req;
     body_content := body_content req;
     file := file req;
     query_environment := query_environment req;
     query_version := query_version req |}.

(** ... and after Bob has uploaded "B=1" to (beta, dev), a project in which
    Alice is a collaborator. *)
Definition demoWorld3 : World :=
  Eval vm_compute in
    after (@uploadRoute demoRuntime
             (onProject "0123456789abcdef00000002"
                (asUser (Some bob) (withContent [66; 61; 49] demoRequest))))
          demoWorld2.

Definition noRow : IEnvFile :=
  {| envFile_id := ""; projectId := ""; environment := dev;
     encryptedData := []; iv := []; authTag := [];
     version := 0; uploadedBy := "" |}.

(** The first row of the demo store: version 1 of (alpha, dev). *)
Definition demoRow1 : IEnvFile :=
  Eval vm_compute in nth 0 (EnvFiles demoWorld2) noRow.

(** Alice rewrites that row to "A=9". *)
Definition demoEdit : Request :=
  withEnvFileId "e00000000000000000000000" (withContent [65; 61; 57] demoRequest).

(** Alice removes Dave, who is no member, from alpha. *)
Definition demoRemoval : Request :=
  {| user := Some alice;
     params_projectId := "";
     params_id := "0123456789abcdef00000001";
     params_envFileId := "";
     params_userId := dave;
     body_environment := None;
     body_content := None;
     file := None;
     query_environment := None;
     query_version := None |}.

(** ** More of the demo store *)

Definition withMasterKey (k : option string) (w : World) : World :=
  {| MASTER_ENCRYPTION_KEY := k; entropy := entropy w;
     entropyUsed := entropyUsed w; idSupply := idSupply w; idsUsed := idsUsed w;
     Projects := Projects w; EnvFiles := EnvFiles w; EnvLogs := EnvLogs w;
     Users := Users w; UserSettings := UserSettings w; Secrets := Secrets w;
     failUserFind := failUserFind w; failEnvLogCreate := failEnvLogCreate w;
     trace := trace w |}.

(** The demo store with the master key left out of the environment. *)
Definition demoWorldNoKey : World := withMasterKey None demoWorld.

(** Sixteen bytes that are the tag of nothing in the demo store. *)
Definition zeroTag : Buffer := repeat 0 16.

(** The second row of the demo store: version 2 of (alpha, dev). *)
Definition demoRow2 : IEnvFile :=
  Eval vm_compute in nth 1 (EnvFiles demoWorld2) noRow.

(** Carol asks for the latest environment file of (alpha, dev). *)
Definition demoDownload : Request :=
  {| user := Some carol;
     params_projectId := "0123456789abcdef00000001";
     params_id := "";
     params_envFileId := "";
     params_userId := "";
     body_environment := None;
     body_content := None;
     file := None;
     query_environment := Some "dev";
     query_version := None |}.

(** Carol reads the first row of the demo store. *)
Definition demoRead : Request :=
  withEnvFileId "e00000000000000000000000" (asUser (Some carol) demoRequest).




Definition withSettings (ss : list IUserSettings) (w : World) : World :=
  {| MASTER_ENCRYPTION_KEY := MASTER_ENCRYPTION_KEY w; entropy := entropy w;
     entropyUsed := entropyUsed w; idSupply := idSupply w; idsUsed := idsUsed w;
     Projects := Projects w; EnvFiles := EnvFiles w; EnvLogs := EnvLogs w;
     Users := Users w; UserSettings := ss; Secrets := Secrets w;
     failUserFind := failUserFind w; failEnvLogCreate := failEnvLogCreate w;
     trace := trace w |}.

(** Alice's panic button set to revoke collaborators only. *)
Definition revokeOnly : IUserSettings :=
  {| settings_userId := alice;
     flushDuration := None;
     panicButton := {| flushEnvs := false;
                       revokeCollaborators := true;
                       downloadEnvs := false;
                       askConfirmation := true |} |}.

Definition demoWorldRevoke : World := withSettings [revokeOnly] demoWorld3.

(** * Properties *)

Section Properties.
Context {rt : NodeRuntime}.

Lemma Environment_eqb_eq (a b : Environment) : Environment_eqb a b = true <-> a = b.
Proof. destruct a, b; simpl; split; congruence. Qed.

Lemma Environment_eqb_refl (a : Environment) : Environment_eqb a a = true.
Proof. destruct a; reflexivity. Qed.

(** ** The codec restores well-formed strings *)

Lemma inRange_true lo hi x : lo <= x <= hi -> inRange lo hi x = true.
Proof. unfold inRange. intros [H1 H2].
  apply andb_true_iff; split; apply Z.leb_le; assumption. Qed.

Lemma inRange_false lo hi x : x < lo \/ hi < x -> inRange lo hi x = false.
Proof. unfold inRange. intros [H | H].
  - apply andb_false_iff; left; apply Z.leb_gt; assumption.
  - apply andb_false_iff; right; apply Z.leb_gt; assumption. Qed.

Lemma inRange_spec lo hi x : inRange lo hi x = true <-> lo <= x <= hi.
Proof. unfold inRange. rewrite andb_true_iff, !Z.leb_le. tauto. Qed.

Ltac arith := Z.div_mod_to_equations; lia.

Lemma utf8Decode_bytes c rest :
  isScalar c ->
  utf8Decode (utf8Bytes c ++ rest) = utf16Units c ++ utf8Decode rest.
Proof.
  intros [Hc Hs]. unfold utf8Bytes, utf16Units.
  destruct (Z.ltb_spec c 0x80).
  { destruct (Z.ltb_spec c 0x10000); [|lia]. cbn [app utf8Decode].
    rewrite inRange_true by lia. reflexivity. }
  destruct (Z.ltb_spec c 0x800).
  { destruct (Z.ltb_spec c 0x10000); [|lia]. cbn [app utf8Decode].
    rewrite (inRange_false 0 0x7F) by arith.
    rewrite (inRange_true 0xC2 0xDF) by arith.
    unfold isContinuation. rewrite inRange_true by arith.
    f_equal. arith. }
  destruct (Z.ltb_spec c 0x10000).
  { cbn [app utf8Decode].
    rewrite (inRange_false 0 0x7F) by arith.
    rewrite (inRange_false 0xC2 0xDF) by arith.
    rewrite (inRange_true 0xE0 0xEF) by arith.
    unfold isContinuation.
    rewrite (inRange_true _ _ (0x80 + (c / 64) mod 64)).
    2:{ destruct (Z.eqb_spec (0xE0 + c / 4096) 0xE0);
        destruct (Z.eqb_spec (0xE0 + c / 4096) 0xED); arith. }
    rewrite inRange_true by arith.
    f_equal. arith. }
  cbn [app utf8Decode].
  rewrite (inRange_false 0 0x7F) by arith.
  rewrite (inRange_false 0xC2 0xDF) by arith.
  rewrite (inRange_false 0xE0 0xEF) by arith.
  rewrite (inRange_true 0xF0 0xF4) by arith.
  unfold isContinuation.
  rewrite (inRange_true _ _ (0x80 + (c / 4096) mod 64)).
  2:{ destruct (Z.eqb_spec (0xF0 + c / 262144) 0xF0);
      destruct (Z.eqb_spec (0xF0 + c / 262144) 0xF4); arith. }
  rewrite (inRange_true _ _ (0x80 + (c / 64) mod 64)) by arith.
  rewrite (inRange_true _ _ (0x80 + c mod 64)) by arith.
  replace ((0xF0 + c / 262144 - 0xF0) * 262144
           + (0x80 + (c / 4096) mod 64 - 0x80) * 4096
           + (0x80 + (c / 64) mod 64 - 0x80) * 64
           + (0x80 + c mod 64 - 0x80)) with c by arith.
  unfold utf16Units.
  destruct (Z.ltb_spec c 0x10000); [lia|]. reflexivity.
Qed.

Lemma utf16Units_bmp u : u < 0x10000 -> utf16Units u = [u].
Proof. intros H. unfold utf16Units. destruct (Z.ltb_spec u 0x10000); [reflexivity|lia]. Qed.

Lemma utf16Units_pair u l :
  0xD800 <= u <= 0xDBFF -> 0xDC00 <= l <= 0xDFFF ->
  utf16Units (0x10000 + (u - 0xD800) * 1024 + (l - 0xDC00)) = [u; l].
Proof.
  intros Hu Hl. unfold utf16Units.
  destruct (Z.ltb_spec (0x10000 + (u - 0xD800) * 1024 + (l - 0xDC00)) 0x10000);
    [lia|].
  f_equal; [|f_equal]; arith.
Qed.

Lemma utf8_roundtrip_bounded (n : nat) :
  forall s : JSString, (List.length s <= n)%nat -> isWellFormed s = true ->
            utf8Decode (utf8Encode s) = s.
Proof.
  induction n as [|n IH]; intros s Hlen Hwf.
  - destruct s; [reflexivity | simpl in Hlen; lia].
  - destruct s as [|u t]; [reflexivity|].
    cbn [isWellFormed utf8Encode] in *.
    destruct (isHighSurrogate u) eqn:Hhi.
    + destruct t as [|l t']; [discriminate|].
      apply andb_true_iff in Hwf. destruct Hwf as [Hlo Hwf].
      rewrite Hlo.
      apply inRange_spec in Hhi. apply inRange_spec in Hlo.
      rewrite utf8Decode_bytes by (unfold isScalar; lia).
      rewrite utf16Units_pair by assumption.
      rewrite IH; [reflexivity | simpl in Hlen; lia | assumption].
    + destruct (isLowSurrogate u) eqn:Hlo; [discriminate|].
      apply andb_true_iff in Hwf. destruct Hwf as [Hr Hwf].
      apply inRange_spec in Hr.
      assert (Hns : ~ (0xD800 <= u <= 0xDFFF)).
      { unfold isHighSurrogate in Hhi. unfold isLowSurrogate in Hlo.
        intros Hs. destruct (Z.le_gt_cases u 0xDBFF).
        - rewrite (proj2 (inRange_spec 0xD800 0xDBFF u)) in Hhi by lia.
          discriminate.
        - rewrite (proj2 (inRange_spec 0xDC00 0xDFFF u)) in Hlo by lia.
          discriminate. }
      rewrite utf8Decode_bytes by (unfold isScalar; lia).
      rewrite utf16Units_bmp by lia.
      cbn [app]. rewrite IH; [reflexivity | simpl in Hlen; lia | assumption].
Qed.

Lemma utf8_roundtrip (s : JSString) :
  isWellFormed s = true -> utf8Decode (utf8Encode s) = s.
Proof. apply (utf8_roundtrip_bounded (List.length s)). apply Nat.le_refl. Qed.

Example utf8_lone_surrogate : utf8Decode (utf8Encode [0xD800]) = [0xFFFD].
Proof. reflexivity. Qed.

(** ** lib/crypto.ts *)

Lemma getMasterKey_valid (w : World) :
  validMasterKey w -> getMasterKey w = (Ok (masterKeyOf w), w).
Proof.
  intros (s & Hs & Hne & Hlen).
  unfold getMasterKey, masterKeyOf, bind, gets, tryCatch, ret, throw.
  rewrite Hs.
  destruct (String.eqb_spec s ""); [contradiction|].
  rewrite Hlen. reflexivity.
Qed.

Lemma getMasterKey_world (w : World) : snd (getMasterKey w) = w.
Proof.
  unfold getMasterKey, bind, gets, tryCatch, ret, throw.
  destruct (MASTER_ENCRYPTION_KEY w) as [s|]; [|reflexivity].
  destruct (String.eqb s ""); [reflexivity|].
  destruct (negb _); reflexivity.
Qed.

Lemma validMasterKey_same (w w' : World) :
  MASTER_ENCRYPTION_KEY w' = MASTER_ENCRYPTION_KEY w ->
  validMasterKey w -> validMasterKey w' /\ masterKeyOf w' = masterKeyOf w.
Proof.
  intros E (s & Hs & Hne & Hlen). split.
  - exists s. rewrite E. auto.
  - unfold masterKeyOf. rewrite E. reflexivity.
Qed.

Lemma xorStream_involutive (ks : nat -> Z) (data : Buffer) :
  forall i, xorStream ks i (xorStream ks i data) = data.
Proof.
  induction data as [|b t IH]; intros i; simpl; [reflexivity|].
  rewrite IH, Z.lxor_assoc, Z.lxor_nilpotent, Z.lxor_0_r. reflexivity.
Qed.

Lemma Buffer_eqb_refl (b : Buffer) : Buffer_eqb b b = true.
Proof.
  induction b as [|x t IH]; simpl; [reflexivity|].
  rewrite Z.eqb_refl, IH. reflexivity.
Qed.

Lemma randomBytes_length (n : nat) (w : World) :
  match fst (randomBytes n w) with
  | Ok b => List.length b = n
  | Throw _ => False
  end.
Proof. simpl. rewrite length_map, length_seq. reflexivity. Qed.

Lemma encryptEnv_ok (data : JSString) (w : World) :
  validMasterKey w ->
  encryptEnv data w =
    (Ok (sealed (masterKeyOf w) (nextNonce w) data),
     setTrace (trace w ++ [EvCreateCipheriv (nextNonce w)])
              (setEntropyUsed (entropyUsed w + IV_LENGTH) w)).
Proof.
  intros Hk. unfold encryptEnv, bind.
  rewrite (getMasterKey_valid w Hk). reflexivity.
Qed.

Lemma encryptEnv_throws (data : JSString) (w : World) (e : Error) (w' : World) :
  encryptEnv data w = (Throw e, w') -> w' = w.
Proof.
  unfold encryptEnv, bind. intros H.
  pose proof (getMasterKey_world w) as Hw.
  destruct (getMasterKey w) as [[key|e'] w1]; simpl in Hw; subst w1.
  - discriminate.
  - congruence.
Qed.

Lemma decryptEnv_sealed (key nonce : Buffer) (data : JSString) (w : World) :
  validMasterKey w -> masterKeyOf w = key ->
  List.length nonce = IV_LENGTH ->
  let blob := sealed key nonce data in
  decryptEnv (blob_encryptedData blob) (blob_iv blob) (blob_authTag blob) w =
    (Ok (utf8Decode (utf8Encode data)),
     setTrace (trace w ++ [EvCreateDecipheriv nonce]) w).
Proof.
  intros Hk Hkey Hlen. cbn zeta. unfold sealed, decryptEnv, bind. simpl.
  rewrite (getMasterKey_valid w Hk), Hkey, Hlen, gcmTag_length.
  simpl. unfold tryCatch, ret.
  rewrite Buffer_eqb_refl, xorStream_involutive. reflexivity.
Qed.

(** Decrypting what [encryptEnv] produced gives the string back as the
    UTF-8 codec restores it. *)
Lemma decrypt_encrypt (data : JSString) (w w' : World) :
  validMasterKey w ->
  MASTER_ENCRYPTION_KEY w' = MASTER_ENCRYPTION_KEY w ->
  exists blob w1,
    encryptEnv data w = (Ok blob, w1) /\
    fst (decryptEnv (blob_encryptedData blob) (blob_iv blob)
                    (blob_authTag blob) w')
      = Ok (utf8Decode (utf8Encode data)).
Proof.
  intros Hk E.
  destruct (validMasterKey_same w w' E Hk) as [Hk' Hkey].
  eexists. eexists. split; [apply encryptEnv_ok; assumption|].
  rewrite (decryptEnv_sealed (masterKeyOf w) (nextNonce w) data w' Hk' Hkey).
  - reflexivity.
  - unfold nextNonce. rewrite length_map, length_seq. reflexivity.
Qed.

(** C2 (as amended): for every well-formed plaintext string (one without
    unpaired surrogates) of at most 50 KiB and every valid 32-byte master
    key, [decryptEnv] applied to the [encryptedData], [iv] and [authTag]
    that [encryptEnv] produced under the same key returns exactly the
    plaintext. *)
Theorem encrypt_decrypt_roundtrip (p : JSString) (w w' : World) :
  isWellFormed p = true ->
  Z.of_nat (List.length p) <= MAX_CONTENT ->
  validMasterKey w ->
  MASTER_ENCRYPTION_KEY w' = MASTER_ENCRYPTION_KEY w ->
  exists blob w1,
    encryptEnv p w = (Ok blob, w1) /\
    fst (decryptEnv (blob_encryptedData blob) (blob_iv blob)
                    (blob_authTag blob) w') = Ok p.
Proof.
  intros Hwf _ Hk E.
  destruct (decrypt_encrypt p w w' Hk E) as (blob & w1 & He & Hd).
  exists blob, w1. split; [assumption|].
  rewrite Hd, utf8_roundtrip by assumption. reflexivity.
Qed.

(** C4 (as amended): with a valid master key, a blob whose nonce is exactly
    16 bytes and whose tag is exactly 16 bytes passes the length validation
    and AEAD decryption is attempted (its only possible failure is the
    integrity error); a blob whose nonce or tag has any other length is
    rejected with the length error before the decipher is created. *)
Theorem decryptEnv_length_validation
    (encryptedData_ nonce tag : Buffer) (w : World) :
  validMasterKey w ->
  (List.length nonce = IV_LENGTH /\ List.length tag = AUTH_TAG_LENGTH ->
   trace (snd (decryptEnv encryptedData_ nonce tag w))
     = trace w ++ [EvCreateDecipheriv nonce] /\
   ((exists plaintext,
        fst (decryptEnv encryptedData_ nonce tag w) = Ok plaintext) \/
    fst (decryptEnv encryptedData_ nonce tag w) = Throw DecryptionFailed))
  /\
  (List.length nonce <> IV_LENGTH \/ List.length tag <> AUTH_TAG_LENGTH ->
   snd (decryptEnv encryptedData_ nonce tag w) = w /\
   (fst (decryptEnv encryptedData_ nonce tag w)
      = Throw (InvalidIVLength (List.length nonce)) \/
    fst (decryptEnv encryptedData_ nonce tag w)
      = Throw (InvalidAuthTagLength (List.length tag)))).
Proof.
  intros Hk. unfold decryptEnv, bind.
  rewrite (getMasterKey_valid w Hk). split.
  - intros [Hn Ht]. rewrite Hn, Ht. simpl. unfold tryCatch, ret, throw.
    destruct (Buffer_eqb tag _); simpl; split; eauto.
  - intros Hbad.
    destruct (Nat.eqb_spec (List.length nonce) IV_LENGTH) as [Hn|Hn]; simpl.
    + destruct (Nat.eqb_spec (List.length tag) AUTH_TAG_LENGTH) as [Ht|Ht];
        simpl.
      * destruct Hbad; contradiction.
      * unfold throw. simpl. auto.
    + unfold throw. simpl. auto.
Qed.

(** ** lib/authorization.ts *)

Lemma find_none_by_key {A} (key : A -> string) (l : list A) (k : string) :
  (forall x, In x l -> key x <> k) ->
  find (fun y => String.eqb (key y) k) l = None.
Proof.
  induction l as [|y t IH]; intros H; simpl; [reflexivity|].
  destruct (String.eqb_spec (key y) k) as [E|E].
  - exfalso. apply (H y); [left; reflexivity | assumption].
  - apply IH. intros x Hx. apply H. right. assumption.
Qed.

Lemma find_by_key {A} (key : A -> string) (l : list A) (x : A) (k : string) :
  NoDup (map key l) -> In x l -> key x = k ->
  find (fun y => String.eqb (key y) k) l = Some x.
Proof.
  induction l as [|y t IH]; intros Hnd Hin Hk; [contradiction|].
  simpl in *. inversion Hnd as [|? ? Hnotin Hnd']; subst.
  destruct Hin as [->|Hin].
  - rewrite String.eqb_refl. reflexivity.
  - destruct (String.eqb_spec (key y) (key x)) as [E|E].
    + exfalso. apply Hnotin. rewrite E. apply in_map. assumption.
    + apply IH; auto.
Qed.

(** The guard on a well-formed request, once the project lookup and the
    membership lookup are known. *)
Lemma requireProjectAccess_found
    (required : Permission) (req : Request) (w : World)
    (u : ObjectId) (p : IProject) :
  user req = Some u ->
  isValidObjectId (orElse (params_projectId req) (params_id req)) = true ->
  find (fun q => String.eqb (project_id q)
                   (castObjectId (orElse (params_projectId req) (params_id req))))
       (Projects w) = Some p ->
  requireProjectAccess required req w =
    (if isProjectOwner u p then ret (Next p)
     else match findMember u p with
          | None =>
              answer 403 "Access denied: You do not have access to this project"
          | Some member =>
              if negb (Permission_eqb (member_permission member) write
                       || (Permission_eqb required read
                           && Permission_eqb (member_permission member) read))
              then answer 403
                     (String.append "Access denied: "
                        (String.append (Permission_name required)
                                       " permission required"))
              else ret (Next p)
          end) w.
Proof.
  intros Hu Hv Hf.
  unfold requireProjectAccess, tryCatch. rewrite Hu.
  assert (Hne : String.eqb (orElse (params_projectId req) (params_id req)) ""
                = false).
  { unfold isValidObjectId in Hv.
    destruct (String.eqb _ ""); [discriminate | reflexivity]. }
  rewrite Hne, Hv. simpl.
  unfold bind, Project_findById, gets. rewrite Hf.
  destruct (isProjectOwner u p); [reflexivity|].
  destruct (findMember u p) as [m|]; [|reflexivity].
  destruct (negb _); reflexivity.
Qed.

Lemma requireProjectAccess_missing
    (required : Permission) (req : Request) (w : World) (u : ObjectId) :
  user req = Some u ->
  isValidObjectId (orElse (params_projectId req) (params_id req)) = true ->
  find (fun q => String.eqb (project_id q)
                   (castObjectId (orElse (params_projectId req) (params_id req))))
       (Projects w) = None ->
  requireProjectAccess required req w =
    (Ok (Answered {| status := 404; body := JsonError "Project not found" |}),
     w).
Proof.
  intros Hu Hv Hf.
  unfold requireProjectAccess, tryCatch. rewrite Hu.
  assert (Hne : String.eqb (orElse (params_projectId req) (params_id req)) ""
                = false).
  { unfold isValidObjectId in Hv.
    destruct (String.eqb _ ""); [discriminate | reflexivity]. }
  rewrite Hne, Hv. simpl.
  unfold bind, Project_findById, gets. rewrite Hf. reflexivity.
Qed.

(** C1: the permission matrix.  A request of an authenticated user [u] for
    a well-formed project id is answered 404 when no project has that id;
    otherwise the owner passes for both levels, a member with write
    permission passes for both levels, a member with read permission
    passes for read and is answered 403 for write, and a user who is
    neither owner nor member is answered 403 for both.  Projects have
    distinct ids and a project has at most one entry per member. *)
Theorem permission_matrix
    (w : World) (req : Request) (u : ObjectId) (required : Permission) :
  user req = Some u ->
  isValidObjectId (orElse (params_projectId req) (params_id req)) = true ->
  NoDup (map project_id (Projects w)) ->
  ((forall p, In p (Projects w) ->
              project_id p
                <> castObjectId (orElse (params_projectId req) (params_id req))) ->
   requireProjectAccess required req w =
     (Ok (Answered {| status := 404; body := JsonError "Project not found" |}),
      w))
  /\
  (forall p,
     In p (Projects w) ->
     project_id p
       = castObjectId (orElse (params_projectId req) (params_id req)) ->
     NoDup (map member_userId (members p)) ->
     (createdBy p = u ->
      requireProjectAccess required req w = (Ok (Next p), w))
     /\
     (In {| member_userId := u; member_permission := write |} (members p) ->
      requireProjectAccess required req w = (Ok (Next p), w))
     /\
     (In {| member_userId := u; member_permission := read |} (members p) ->
      requireProjectAccess read req w = (Ok (Next p), w))
     /\
     (In {| member_userId := u; member_permission := read |} (members p) ->
      createdBy p <> u ->
      denied (requireProjectAccess write req w) w)
     /\
     (createdBy p <> u ->
      (forall m, In m (members p) -> member_userId m <> u) ->
      denied (requireProjectAccess required req w) w)).
Proof.
  intros Hu Hv Hids. split.
  - intros Hnone. apply (requireProjectAccess_missing _ _ _ u Hu Hv).
    apply find_none_by_key. assumption.
  - intros p Hin Hid Hmem.
    pose proof (find_by_key project_id (Projects w) p _ Hids Hin Hid) as Hf.
    assert (Hmember : forall perm,
               In {| member_userId := u; member_permission := perm |}
                  (members p) ->
               findMember u p
               = Some {| member_userId := u; member_permission := perm |}).
    { intros perm Hm. unfold findMember.
      apply (find_by_key member_userId); auto. }
    repeat split.
    + intros Hown.
      rewrite (requireProjectAccess_found _ _ _ u p Hu Hv Hf).
      unfold isProjectOwner. rewrite Hown, String.eqb_refl. reflexivity.
    + intros Hm.
      rewrite (requireProjectAccess_found _ _ _ u p Hu Hv Hf).
      destruct (isProjectOwner u p); [reflexivity|].
      rewrite (Hmember write Hm). reflexivity.
    + intros Hm.
      rewrite (requireProjectAccess_found _ _ _ u p Hu Hv Hf).
      destruct (isProjectOwner u p); [reflexivity|].
      rewrite (Hmember read Hm). reflexivity.
    + intros Hm Hown.
      rewrite (requireProjectAccess_found _ _ _ u p Hu Hv Hf).
      unfold isProjectOwner.
      destruct (String.eqb_spec (createdBy p) u); [contradiction|].
      rewrite (Hmember read Hm). simpl. eexists. reflexivity.
    + intros Hown Hnm.
      rewrite (requireProjectAccess_found _ _ _ u p Hu Hv Hf).
      unfold isProjectOwner.
      destruct (String.eqb_spec (createdBy p) u); [contradiction|].
      unfold findMember. rewrite find_none_by_key by assumption.
      eexists. reflexivity.
Qed.

(** ** Running the handlers *)

Ltac run :=
  unfold guarded, respond, answer, emit, modify, gets, bind, ret, throw,
         tryCatch in *;
  simpl in *.

Lemma setTrace_same (w : World) : setTrace (trace w) w = w.
Proof. destruct w. reflexivity. Qed.

Lemma requireProjectAccess_world (required : Permission) (req : Request)
    (w : World) :
  snd (requireProjectAccess required req w) = w.
Proof.
  unfold requireProjectAccess, Project_findById. run.
  destruct (user req); [|reflexivity].
  destruct (String.eqb _ ""); [reflexivity|].
  destruct (isValidObjectId _); [|reflexivity]. simpl.
  destruct (find _ _) as [p|]; [|reflexivity].
  destruct (isProjectOwner _ p); [reflexivity|].
  destruct (findMember _ p); [|reflexivity].
  destruct (negb _); reflexivity.
Qed.

Lemma requireProjectOwnership_world (req : Request) (w : World) :
  snd (requireProjectOwnership req w) = w.
Proof.
  unfold requireProjectOwnership, Project_findById. run.
  destruct (user req); [|reflexivity].
  destruct (String.eqb _ ""); [reflexivity|].
  destruct (isValidObjectId _); [|reflexivity]. simpl.
  destruct (find _ _) as [p|]; [|reflexivity].
  destruct (negb _); reflexivity.
Qed.

(** The guards read nothing but the request and the projects. *)
Lemma requireProjectAccess_reads (required : Permission) (req : Request)
    (w1 w2 : World) :
  Projects w1 = Projects w2 ->
  fst (requireProjectAccess required req w1)
  = fst (requireProjectAccess required req w2).
Proof.
  intros E. unfold requireProjectAccess, Project_findById. run.
  destruct (user req); [|reflexivity].
  destruct (String.eqb _ ""); [reflexivity|].
  destruct (isValidObjectId _); [|reflexivity]. simpl.
  rewrite E.
  destruct (find _ _) as [p|]; [|reflexivity].
  destruct (isProjectOwner _ p); [reflexivity|].
  destruct (findMember _ p); [|reflexivity].
  destruct (negb _); reflexivity.
Qed.

Lemma requireProjectOwnership_reads (req : Request) (w1 w2 : World) :
  Projects w1 = Projects w2 ->
  fst (requireProjectOwnership req w1) = fst (requireProjectOwnership req w2).
Proof.
  intros E. unfold requireProjectOwnership, Project_findById. run.
  destruct (user req); [|reflexivity].
  destruct (String.eqb _ ""); [reflexivity|].
  destruct (isValidObjectId _); [|reflexivity]. simpl.
  rewrite E.
  destruct (find _ _) as [p|]; [|reflexivity].
  destruct (negb _); reflexivity.
Qed.

(** [decryptEnv] changes nothing but the trace, to which it adds at most
    the creation of the decipher. *)
Lemma decryptEnv_world (ct nonce tag : Buffer) (w : World) :
  snd (decryptEnv ct nonce tag w) = w \/
  snd (decryptEnv ct nonce tag w)
  = setTrace (trace w ++ [EvCreateDecipheriv nonce]) w.
Proof.
  unfold decryptEnv, bind.
  pose proof (getMasterKey_world w) as Hw.
  destruct (getMasterKey w) as [[key|e] w1]; simpl in Hw; subst w1;
    [|left; reflexivity].
  destruct (negb (List.length nonce =? IV_LENGTH)%nat); [left; reflexivity|].
  destruct (negb (List.length tag =? AUTH_TAG_LENGTH)%nat);
    [left; reflexivity|].
  right. run. destruct (Buffer_eqb _ _); reflexivity.
Qed.

(** ** GET /:projectId/env/:envFileId/content *)

Lemma decryptEnv_holds (f : IEnvFile) (nonce : Buffer) (data : JSString)
    (w : World) :
  validMasterKey w ->
  holds f (masterKeyOf w) nonce data ->
  decryptEnv (encryptedData f) (iv f) (authTag f) w =
    (Ok (utf8Decode (utf8Encode data)),
     setTrace (trace w ++ [EvCreateDecipheriv nonce]) w).
Proof.
  intros Hk (Hlen & Hct & Hiv & Htag). rewrite Hct, Htag, Hiv.
  rewrite <- Hiv at 1.
  replace (iv f) with (blob_iv (sealed (masterKeyOf w) nonce data))
    by (symmetry; exact Hiv).
  apply decryptEnv_sealed; auto.
Qed.

(** C10: the get-content route answers every caller who passes the read
    guard with the decrypted plaintext of the requested environment file,
    and records nothing: the audit collection is unchanged and the only
    events are the query and the creation of the decipher. *)
Theorem content_route_returns_plaintext_unlogged
    (req : Request) (w : World) (p : IProject) (f : IEnvFile)
    (nonce : Buffer) (data : JSString) :
  requireProjectAccess read req w = (Ok (Next p), w) ->
  isValidObjectId (params_projectId req) = true ->
  isValidObjectId (params_envFileId req) = true ->
  find (byIdInProject (params_envFileId req) (params_projectId req))
       (EnvFiles w) = Some f ->
  validMasterKey w ->
  holds f (masterKeyOf w) nonce data ->
  isWellFormed data = true ->
  exists w',
    contentRoute req w
      = (Ok {| status := 200; body := JsonContent data |}, w') /\
    EnvLogs w' = EnvLogs w /\
    trace w' = trace w ++ [EvEnvFileFind; EvCreateDecipheriv nonce].
Proof.
  intros Hg Hpid Hfid Hfind Hk Hholds Hwf.
  unfold contentRoute, guarded, bind. rewrite Hg.
  unfold contentHandler, tryCatch, bind. rewrite Hpid, Hfid. simpl.
  unfold EnvFile_findOne, bind, emit, modify, gets. simpl. rewrite Hfind.
  set (w1 := setTrace (trace w ++ [EvEnvFileFind]) w).
  assert (Hk1 : validMasterKey w1) by exact Hk.
  rewrite (decryptEnv_holds f nonce data w1 Hk1 Hholds).
  rewrite utf8_roundtrip by assumption.
  eexists. split; [reflexivity|]. simpl.
  split; [reflexivity|]. rewrite <- app_assoc. reflexivity.
Qed.

(** ** lib/logging.ts *)

Lemma logEnvAction_run
    (pid userId : ObjectId) (action : LogAction) (environment_ : string)
    (metadata : option LogMetadata) (envFileId : option ObjectId)
    (v : option Z) (w : World) :
  logEnvAction pid userId action environment_ metadata envFileId v w =
    (Ok tt,
     match auditWrites pid userId action environment_ metadata envFileId v w
     with
     | Some entry => logged action metadata entry w
     | None => attempted action metadata w
     end).
Proof.
  unfold logEnvAction, auditWrites, User_findById, EnvLog_create, attempted,
    logged.
  run.
  destruct (failUserFind w); [reflexivity|].
  destruct (find _ (Users w)) as [usr|]; [|reflexivity].
  destruct (parseEnvironment environment_) as [env|]; [|reflexivity].
  simpl. destruct (failEnvLogCreate w); [reflexivity|].
  simpl. rewrite <- app_assoc. reflexivity.
Qed.


Lemma auditWrites_action
    (pid userId : ObjectId) (action : LogAction) (environment_ : string)
    (metadata : option LogMetadata) (envFileId : option ObjectId)
    (v : option Z) (w : World) (entry : IEnvLog) :
  auditWrites pid userId action environment_ metadata envFileId v w
    = Some entry ->
  log_action entry = action /\ log_metadata entry = metadataOrEmpty metadata /\
  log_projectId entry = pid /\ performedBy entry = userId /\
  log_envFileId entry = envFileId /\ log_version entry = v.
Proof.
  unfold auditWrites. destruct (failUserFind w); [discriminate|].
  destruct (find _ _); [|discriminate].
  destruct (parseEnvironment _); [|discriminate].
  destruct (failEnvLogCreate w); [discriminate|].
  intros [= <-]. simpl. auto 6.
Qed.

Lemma auditWrites_fault
    (pid userId : ObjectId) (action : LogAction) (environment_ : string)
    (metadata : option LogMetadata) (envFileId : option ObjectId)
    (v : option Z) (w : World) :
  failUserFind w = true \/ failEnvLogCreate w = true \/
  (forall usr, In usr (Users w) -> user_id usr <> userId) ->
  auditWrites pid userId action environment_ metadata envFileId v w = None.
Proof.
  unfold auditWrites. intros [H|[H|H]].
  - rewrite H. reflexivity.
  - rewrite H. destruct (failUserFind w); [reflexivity|].
    destruct (find _ _); [|reflexivity].
    destruct (parseEnvironment _); reflexivity.
  - rewrite (find_none_by_key user_id) by assumption.
    destruct (failUserFind w); reflexivity.
Qed.

(** ** DELETE /:projectId/env/:envFileId *)

Lemma deleteRoute_found
    (req : Request) (w : World) (p : IProject) (f : IEnvFile) (u : ObjectId) :
  requireProjectOwnership req w = (Ok (Next p), w) ->
  user req = Some u ->
  isValidObjectId (params_projectId req) = true ->
  isValidObjectId (params_envFileId req) = true ->
  find (byIdInProject (params_envFileId req) (params_projectId req))
       (EnvFiles w) = Some f ->
  deleteRoute req w =
    (EnvFile_findByIdAndDelete (params_envFileId req) ;;;
     respond 200 (JsonMessage "Environment file deleted successfully"))
      (match auditWrites (castObjectId (params_projectId req)) u delete
               (Environment_name (environment f))
               (Some (deleteMetadata f))
               (Some (castObjectId (params_envFileId req)))
               (Some (version f))
               (setTrace (trace w ++ [EvEnvFileFind]) w)
       with
       | Some entry =>
           logged delete (Some (deleteMetadata f)) entry
                  (setTrace (trace w ++ [EvEnvFileFind]) w)
       | None =>
           attempted delete (Some (deleteMetadata f))
                     (setTrace (trace w ++ [EvEnvFileFind]) w)
       end).
Proof.
  intros Hg Hu Hpid Hfid Hfind.
  unfold deleteRoute, deleteRouteWith, guarded, bind. rewrite Hg.
  unfold deleteHandlerWith, tryCatch, bind. rewrite Hu, Hpid, Hfid. simpl.
  unfold EnvFile_findOne, bind, emit, modify, gets. simpl. rewrite Hfind.
  rewrite logEnvAction_run.
  destruct (auditWrites _ _ _ _ _ _ _ _); reflexivity.
Qed.


(** ** PUT /:projectId/env/:envFileId *)




(** ** DELETE /:id/members/:userId *)

Lemma requireProjectOwnership_inv (req : Request) (w w' : World) (p : IProject) :
  requireProjectOwnership req w = (Ok (Next p), w') ->
  exists u,
    user req = Some u /\
    isValidObjectId (orElse (params_projectId req) (params_id req)) = true /\
    find (fun q => String.eqb (project_id q)
                     (castObjectId (orElse (params_projectId req) (params_id req))))
         (Projects w) = Some p /\
    isProjectOwner u p = true.
Proof.
  unfold requireProjectOwnership, Project_findById. run.
  destruct (user req) as [u|]; [|discriminate].
  destruct (String.eqb _ ""); [discriminate|].
  destruct (isValidObjectId _) eqn:Hv; [|discriminate]. simpl.
  destruct (find _ _) as [q|] eqn:Hf; [|discriminate].
  destruct (isProjectOwner u q) eqn:Ho; simpl; [|discriminate].
  intros [= <- <-]. exists u. auto.
Qed.

Lemma requireProjectOwnership_pass (req : Request) (w : World) (u : ObjectId)
    (p : IProject) :
  user req = Some u ->
  isValidObjectId (orElse (params_projectId req) (params_id req)) = true ->
  find (fun q => String.eqb (project_id q)
                   (castObjectId (orElse (params_projectId req) (params_id req))))
       (Projects w) = Some p ->
  isProjectOwner u p = true ->
  requireProjectOwnership req w = (Ok (Next p), w).
Proof.
  intros Hu Hv Hf Ho.
  unfold requireProjectOwnership, Project_findById. run. rewrite Hu.
  assert (Hne : String.eqb (orElse (params_projectId req) (params_id req)) ""
                = false).
  { unfold isValidObjectId in Hv.
    destruct (String.eqb _ ""); [discriminate | reflexivity]. }
  rewrite Hne, Hv. simpl. rewrite Hf, Ho. reflexivity.
Qed.

Lemma replaceFirst_found {A} (sel : A -> bool) (l : list A) (x : A) :
  find sel l = Some x -> replaceFirst sel x l = l.
Proof.
  induction l as [|y t IH]; simpl; [discriminate|].
  destruct (sel y).
  - intros [= ->]. reflexivity.
  - intros H. rewrite (IH H). reflexivity.
Qed.

Lemma find_replaceFirst {A} (sel : A -> bool) (l : list A) (x x' : A) :
  find sel l = Some x -> sel x' = true ->
  find sel (replaceFirst sel x' l) = Some x'.
Proof.
  induction l as [|y t IH]; simpl; [discriminate|].
  destruct (sel y) eqn:Hy.
  - intros _ Hx'. simpl. rewrite Hx'. reflexivity.
  - intros H Hx'. simpl. rewrite Hy. apply IH; assumption.
Qed.

Lemma filter_idempotent {A} (f : A -> bool) (l : list A) :
  filter f (filter f l) = filter f l.
Proof.
  induction l as [|x t IH]; simpl; [reflexivity|].
  destruct (f x) eqn:E; simpl; [rewrite E, IH|]; auto.
Qed.

Lemma filter_all {A} (f : A -> bool) (l : list A) :
  (forall x, In x l -> f x = true) -> filter f l = l.
Proof.
  induction l as [|x t IH]; intros H; simpl; [reflexivity|].
  rewrite (H x (or_introl eq_refl)), IH; [reflexivity|].
  intros y Hy. apply H. right. assumption.
Qed.

Lemma withMembers_same (p : IProject) : withMembers p (members p) = p.
Proof. destruct p. reflexivity. Qed.

Lemma removeMemberRoute_run (req : Request) (w : World) (p : IProject) :
  requireProjectOwnership req w = (Ok (Next p), w) ->
  isValidObjectId (params_userId req) = true ->
  exists doc,
    removeMemberRoute req w =
      (Ok {| status := 200; body := JsonProject doc |},
       setProjects
         (replaceFirst (fun q => String.eqb (project_id q) (project_id p))
            (withMembers p (without (params_userId req) (members p)))
            (Projects w))
         (setTrace (trace w ++ [EvProjectSave (project_id p)]) w)).
Proof.
  intros Hg Hv.
  unfold removeMemberRoute, guarded, bind. rewrite Hg.
  unfold removeMemberHandler, tryCatch, bind. rewrite Hv. simpl.
  unfold Project_save, Project_findById. run.
  eexists. reflexivity.
Qed.

(** C9: removing a user who is not in the members list of the project
    succeeds (status 200) and leaves the projects, hence the members, as
    they were; and whatever the request, serving it a second time leaves
    the projects as the first time left them and answers with the same
    status. *)
Theorem removeMember_idempotent :
  (forall (req : Request) (w : World) (p : IProject),
      requireProjectOwnership req w = (Ok (Next p), w) ->
      isValidObjectId (params_userId req) = true ->
      (forall m, In m (members p) -> member_userId m <> params_userId req) ->
      exists doc w',
        removeMemberRoute req w =
          (Ok {| status := 200; body := JsonProject doc |}, w') /\
        Projects w' = Projects w)
  /\
  (forall (req : Request) (w : World),
      Projects (snd (removeMemberRoute req (snd (removeMemberRoute req w))))
      = Projects (snd (removeMemberRoute req w)) /\
      forall res,
        fst (removeMemberRoute req w) = Ok res ->
        exists res',
          fst (removeMemberRoute req (snd (removeMemberRoute req w))) = Ok res'
          /\ status res' = status res).
Proof.
  split.
  - intros req w p Hg Hv Habsent.
    destruct (removeMemberRoute_run req w p Hg Hv) as (doc & Hrun).
    exists doc. eexists. split; [exact Hrun|]. simpl.
    destruct (requireProjectOwnership_inv req w w p Hg)
      as (u & Hu & Hpid & Hfind & Hown).
    unfold without. rewrite filter_all.
    + rewrite withMembers_same.
      destruct (find_some _ _ Hfind) as [_ Hid].
      apply String.eqb_eq in Hid.
      rewrite (replaceFirst_found
                 (fun q => String.eqb (project_id q) (project_id p))).
      * reflexivity.
      * rewrite Hid. exact Hfind.
    + intros m Hm.
      destruct (String.eqb_spec (member_userId m) (params_userId req)) as [E|E];
        [exfalso; exact (Habsent m Hm E) | reflexivity].
  - intros req w.
    pose proof (requireProjectOwnership_world req w) as Hw.
    destruct (requireProjectOwnership req w) as [[[res|p]|e] w0] eqn:Hg;
      simpl in Hw; subst w0.
    + assert (Hrun : removeMemberRoute req w = (Ok res, w)).
      { unfold removeMemberRoute, guarded, bind. rewrite Hg. reflexivity. }
      rewrite Hrun. simpl. rewrite Hrun. simpl. split; [reflexivity|].
      intros res0 [= <-]. exists res. split; reflexivity.
    + destruct (isValidObjectId (params_userId req)) eqn:Hv.
      * destruct (removeMemberRoute_run req w p Hg Hv) as (doc & Hrun).
        rewrite Hrun. simpl.
        destruct (requireProjectOwnership_inv req w w p Hg)
          as (u & Hu & Hpid & Hfind & Hown).
        destruct (find_some _ _ Hfind) as [_ Hid].
        apply String.eqb_eq in Hid.
        set (p' := withMembers p (without (params_userId req) (members p))).
        set (w1 := setProjects _ _).
        assert (Hg1 : requireProjectOwnership req w1 = (Ok (Next p'), w1)).
        { apply (requireProjectOwnership_pass req w1 u p' Hu Hpid).
          - unfold w1. simpl. rewrite Hid.
            apply (find_replaceFirst _ _ p p').
            + exact Hfind.
            + simpl. rewrite Hid. apply String.eqb_refl.
          - exact Hown. }
        destruct (removeMemberRoute_run req w1 p' Hg1 Hv) as (doc1 & Hrun1).
        rewrite Hrun1. simpl.
        split; [|intros res0 [= <-]; eexists; split; reflexivity].
        unfold without. rewrite filter_idempotent.
        fold (without (params_userId req) (members p)). fold p'.
        rewrite Hid.
        apply replaceFirst_found.
        apply (find_replaceFirst _ _ p p').
        -- exact Hfind.
        -- simpl. rewrite Hid. apply String.eqb_refl.
      * assert (Hrun : exists res, removeMemberRoute req w = (Ok res, w)
                                   /\ status res = 400).
        { unfold removeMemberRoute, guarded, bind. rewrite Hg.
          unfold removeMemberHandler, tryCatch. rewrite Hv. simpl.
          eexists. split; reflexivity. }
        destruct Hrun as (res & Hrun & Hst).
        rewrite Hrun. simpl. rewrite Hrun. simpl. split; [reflexivity|].
        intros res0 [= <-]. exists res. split; reflexivity.
    + assert (Hrun : removeMemberRoute req w = (Throw e, w)).
      { unfold removeMemberRoute, guarded, bind. rewrite Hg. reflexivity. }
      rewrite Hrun. simpl. rewrite Hrun. simpl.
      split; [reflexivity | discriminate].
Qed.

(** ** POST /:projectId/env *)

Lemma latestOf_snoc (l : list IEnvFile) (r : IEnvFile) :
  latestOf (l ++ [r]) =
    match latestOf l with
    | None => Some r
    | Some b => if version b <? version r then Some r else Some b
    end.
Proof. unfold latestOf. rewrite fold_left_app. reflexivity. Qed.

(** [latestOf] picks a row of greatest version. *)
Lemma latestOf_max (l : list IEnvFile) :
  match latestOf l with
  | None => l = []
  | Some top => In top l /\ forall r, In r l -> version r <= version top
  end.
Proof.
  induction l as [|r l IH] using rev_ind; [reflexivity|].
  rewrite latestOf_snoc.
  destruct (latestOf l) as [b|].
  - destruct IH as [Hin Hmax].
    destruct (Z.ltb_spec (version b) (version r)).
    + split; [apply in_or_app; right; left; reflexivity|].
      intros y Hy. apply in_app_or in Hy. destruct Hy as [Hy|[<-|[]]].
      * specialize (Hmax y Hy). lia.
      * lia.
    + split; [apply in_or_app; left; assumption|].
      intros y Hy. apply in_app_or in Hy. destruct Hy as [Hy|[<-|[]]].
      * apply Hmax. assumption.
      * lia.
  - subst l. simpl. split; [left; reflexivity|].
    intros y [<-|[]]. lia.
Qed.

















(** ** POST /panic *)

Lemma extends_refl (P : Event -> bool) (w : World) : extends P w w.
Proof.
  exists []. rewrite app_nil_r, setTrace_same. split; reflexivity.
Qed.

Lemma extends_trans (P : Event -> bool) (w1 w2 w3 : World) :
  extends P w1 w2 -> extends P w2 w3 -> extends P w1 w3.
Proof.
  intros (e1 & -> & H1) (e2 & -> & H2). exists (e1 ++ e2). split.
  - simpl. rewrite app_assoc. reflexivity.
  - rewrite forallb_app, H1, H2. reflexivity.
Qed.

Lemma extends_one (P : Event -> bool) (w : World) (e : Event) :
  P e = true -> extends P w (setTrace (trace w ++ [e]) w).
Proof. intros H. exists [e]. simpl. rewrite H. auto. Qed.

Lemma decryptEnv_extends (ct nonce tag : Buffer) (w : World) :
  extends isExportEvent w (snd (decryptEnv ct nonce tag w)).
Proof.
  destruct (decryptEnv_world ct nonce tag w) as [-> | ->].
  - apply extends_refl.
  - apply extends_one. reflexivity.
Qed.

Lemma collect_extends {A B} (P : Event -> bool) (f : A -> M (list B))
    (xs : list A) :
  (forall x w, exists ys, fst (f x w) = Ok ys /\ extends P w (snd (f x w))) ->
  forall w, exists ys,
    fst (collect xs f w) = Ok ys /\ extends P w (snd (collect xs f w)).
Proof.
  intros Hf. induction xs as [|x t IH]; intros w.
  - exists []. split; [reflexivity | apply extends_refl].
  - simpl. unfold bind.
    destruct (Hf x w) as (ys & Hy & Hext).
    destruct (f x w) as [o w1]. simpl in Hy, Hext. subst o.
    destruct (IH w1) as (zs & Hz & Hext').
    destruct (collect t f w1) as [o' w2]. simpl in Hz, Hext'. subst o'.
    exists (ys ++ zs). split; [reflexivity|].
    simpl. apply (extends_trans P w w1 w2); assumption.
Qed.

Lemma exportProject_extends (project : IProject) (w : World) :
  exists es,
    fst (exportProject project w) = Ok es /\
    extends isExportEvent w (snd (exportProject project w)).
Proof.
  unfold exportProject, EnvFile_find, bind, emit, modify, gets. simpl.
  set (w1 := setTrace (trace w ++ [EvEnvFileFind]) w).
  match goal with
  | |- context [collect ?xs ?f w1] =>
      destruct (collect_extends isExportEvent f xs) with (w := w1)
        as (ys & Hy & Hext)
  end.
  - intros entry w0. unfold tryCatch, bind.
    pose proof (decryptEnv_extends
                  (encryptedData (snd entry)) (iv (snd entry))
                  (authTag (snd entry)) w0) as Hd.
    destruct (decryptEnv _ _ _ w0) as [[content|e] w0']; simpl in Hd.
    + eexists. split; [reflexivity | exact Hd].
    + exists []. split; [reflexivity | exact Hd].
  - exists ys. split; [exact Hy|].
    apply (extends_trans _ w w1); [|exact Hext].
    apply extends_one. reflexivity.
Qed.

Lemma downloadStep_run (projects : list IProject) (w : World) :
  exists es w',
    downloadStep projects w = (Ok (true, Some es), w') /\
    fst (collect projects exportProject w) = Ok es /\
    extends isExportEvent w w'.
Proof.
  unfold downloadStep, tryCatch, bind.
  destruct (collect_extends isExportEvent exportProject projects
              exportProject_extends w) as (es & He & Hext).
  destruct (collect projects exportProject w) as [o w'].
  simpl in He, Hext. subst o.
  exists es, w'. auto.
Qed.

Lemma setEnvFiles_same (w : World) : setEnvFiles (EnvFiles w) w = w.
Proof. destruct w. reflexivity. Qed.

Lemma survivors_cons (pid : ObjectId) (pids : list ObjectId)
    (rows : list IEnvFile) :
  survivors pids
    (filter (fun r => negb (String.eqb (projectId r) pid)) rows)
  = survivors (pid :: pids) rows.
Proof.
  unfold survivors. induction rows as [|r t IH]; simpl; [reflexivity|].
  destruct (String.eqb (projectId r) pid); simpl; [exact IH|].
  rewrite IH. reflexivity.
Qed.

Lemma forEach_deleteMany (projects : list IProject) :
  forall w,
    forEach projects (fun p => EnvFile_deleteMany (project_id p)) w
    = (Ok tt, flushed (map project_id projects) w).
Proof.
  induction projects as [|p t IH]; intros w.
  - simpl. unfold ret, flushed, survivors. simpl.
    rewrite filter_all by reflexivity.
    rewrite app_nil_r, setEnvFiles_same, setTrace_same. reflexivity.
  - simpl. unfold bind, EnvFile_deleteMany, emit, modify. simpl.
    rewrite IH. unfold flushed. simpl.
    rewrite survivors_cons, <- app_assoc. reflexivity.
Qed.

Lemma flushStep_run (projects : list IProject) (w : World) :
  exists n,
    flushStep projects w
    = (Ok (true, Some n), flushed (map project_id projects) w).
Proof.
  unfold flushStep, tryCatch, bind, EnvFile_countDocuments, gets.
  rewrite forEach_deleteMany. eexists. reflexivity.
Qed.

Lemma setProjects_same (w : World) : setProjects (Projects w) w = w.
Proof. destruct w. reflexivity. Qed.

Lemma forEach_save (projects : list IProject) :
  forall w,
    exists w',
      forEach projects (fun p => Project_save (withMembers p [])) w
      = (Ok tt, w') /\ onlyProjects w w'.
Proof.
  induction projects as [|p t IH]; intros w.
  - exists w. split; [reflexivity|]. exists (Projects w), [].
    rewrite app_nil_r, setProjects_same, setTrace_same. auto.
  - simpl. unfold bind at 1.
    assert (Hsave : Project_save (withMembers p []) w =
      (Ok tt,
       setTrace (trace w ++ [EvProjectSave (project_id p)])
         (setProjects
            (replaceFirst (fun q => String.eqb (project_id q) (project_id p))
                          (withMembers p []) (Projects w)) w)))
      by reflexivity.
    rewrite Hsave.
    match type of Hsave with
    | _ = (_, ?w1) => destruct (IH w1) as (w' & Hrun & Hw')
    end.
    rewrite Hrun. exists w'. split; [reflexivity|].
    destruct Hw' as (ps & evs & -> & Hevs).
    exists ps, (EvProjectSave (project_id p) :: evs). simpl.
    rewrite <- app_assoc. simpl. auto.
Qed.

Lemma revokeStep_run (projects : list IProject) (w : World) :
  exists w', revokeStep projects w = (Ok true, w') /\ onlyProjects w w'.
Proof.
  unfold revokeStep, tryCatch, bind.
  destruct (forEach_save projects w) as (w' & Hrun & Hw').
  rewrite Hrun. exists w'. auto.
Qed.

Lemma survivors_spec (pids : list ObjectId) (rows : list IEnvFile)
    (r : IEnvFile) :
  In r (survivors pids rows) <-> In r rows /\ ~ In (projectId r) pids.
Proof.
  unfold survivors. rewrite filter_In. split.
  - intros [Hin Hneg]. split; [exact Hin|].
    intros Hpid. apply negb_true_iff in Hneg.
    assert (existsb (String.eqb (projectId r)) pids = true).
    { apply existsb_exists. exists (projectId r). split; [exact Hpid|].
      apply String.eqb_refl. }
    congruence.
  - intros [Hin Hn]. split; [exact Hin|].
    apply negb_true_iff.
    destruct (existsb (String.eqb (projectId r)) pids) eqn:E; [|reflexivity].
    apply existsb_exists in E. destruct E as (x & Hx & Heq).
    apply String.eqb_eq in Heq. subst x. contradiction.
Qed.

Lemma survivors_other_project (pids : list ObjectId) (rows : list IEnvFile)
    (pid : ObjectId) :
  ~ In pid pids ->
  filter (fun r => String.eqb (projectId r) pid) (survivors pids rows)
  = filter (fun r => String.eqb (projectId r) pid) rows.
Proof.
  intros Hn. unfold survivors. induction rows as [|r t IH]; simpl;
    [reflexivity|].
  destruct (existsb (String.eqb (projectId r)) pids) eqn:E; simpl.
  - destruct (String.eqb_spec (projectId r) pid) as [Heq|]; [|exact IH].
    exfalso. apply existsb_exists in E. destruct E as (x & Hx & Hxe).
    apply String.eqb_eq in Hxe. subst x. rewrite Heq in Hx. contradiction.
  - rewrite IH. reflexivity.
Qed.

(** C7: with [flushEnvs] enabled the panic route deletes every
    environment-file row (whatever its version or environment) of every
    project the invoking user created and no other row: the rows of a
    project somebody else created, in which the user may be a collaborator,
    are as before, and so are the named secrets.  Every deletion comes
    after every event of the export, and the export is computed on the
    store as it was before the flush. *)
Theorem panic_flush
    (req : Request) (w : World) (u : ObjectId) (s : IUserSettings) :
  user req = Some u ->
  find (fun s => String.eqb (settings_userId s) u) (UserSettings w) = Some s ->
  flushEnvs (panicButton s) = true ->
  NoDup (map project_id (Projects w)) ->
  exists results w' exported revoked,
    panicHandler req w
      = (Ok {| status := 200; body := JsonPanic results |}, w') /\
    result_flushEnvs results = true /\
    (* what is deleted and what is kept *)
    EnvFiles w' = survivors (map project_id (ownedBy u w)) (EnvFiles w) /\
    (forall r p, In r (EnvFiles w') -> In p (Projects w) ->
                 createdBy p = u -> projectId r <> project_id p) /\
    (forall q, In q (Projects w) -> createdBy q <> u ->
               filter (fun r => String.eqb (projectId r) (project_id q))
                      (EnvFiles w')
               = filter (fun r => String.eqb (projectId r) (project_id q))
                        (EnvFiles w)) /\
    Secrets w' = Secrets w /\
    (* the order of the sub-actions *)
    trace w' =
      trace w ++ exported
        ++ map EvEnvFileDeleteMany (map project_id (ownedBy u w))
        ++ revoked /\
    forallb isExportEvent exported = true /\
    forallb isProjectSave revoked = true /\
    (downloadEnvs (panicButton s) = false ->
     exported = [] /\ result_downloadContent results = None) /\
    (downloadEnvs (panicButton s) = true ->
     result_downloadEnvs results = true /\
     exists es,
       fst (collect (ownedBy u w) exportProject w) = Ok es /\
       result_downloadContent results = Some es).
Proof.
  intros Hu Hs Hflush Hnd.
  set (owned := ownedBy u w).
  assert (Hrun : exists results w' exported revoked,
    panicHandler req w
      = (Ok {| status := 200; body := JsonPanic results |}, w') /\
    result_flushEnvs results = true /\
    EnvFiles w' = survivors (map project_id owned) (EnvFiles w) /\
    Secrets w' = Secrets w /\
    trace w' =
      trace w ++ exported ++ map EvEnvFileDeleteMany (map project_id owned)
        ++ revoked /\
    forallb isExportEvent exported = true /\
    forallb isProjectSave revoked = true /\
    (downloadEnvs (panicButton s) = false ->
     exported = [] /\ result_downloadContent results = None) /\
    (downloadEnvs (panicButton s) = true ->
     result_downloadEnvs results = true /\
     exists es,
       fst (collect owned exportProject w) = Ok es /\
       result_downloadContent results = Some es)).
  { unfold panicHandler, tryCatch, bind. rewrite Hu.
    unfold UserSettings_findOne, Project_find_createdBy, gets. rewrite Hs.
    rewrite Hflush. cbn [negb andb]. cbv beta.
    fold (ownedBy u w). fold owned.
    assert (Hdl : exists dl w1 exported,
      (if downloadEnvs (panicButton s) then downloadStep owned
       else ret (false, None)) w = (Ok dl, w1) /\
      w1 = setTrace (trace w ++ exported) w /\
      forallb isExportEvent exported = true /\
      (downloadEnvs (panicButton s) = false ->
       exported = [] /\ snd dl = None) /\
      (downloadEnvs (panicButton s) = true ->
       fst dl = true /\
       exists es, fst (collect owned exportProject w) = Ok es /\
                  snd dl = Some es)).
    { destruct (downloadEnvs (panicButton s)).
      - destruct (downloadStep_run owned w)
          as (es & w1 & Hd & Hes & (evs & Hw1 & Hevs)).
        exists (true, Some es), w1, evs.
        split; [exact Hd|]. split; [exact Hw1|]. split; [exact Hevs|].
        split; [discriminate|]. intros _. split; [reflexivity|].
        exists es. auto.
      - exists (false, None), w, [].
        split; [reflexivity|].
        split; [rewrite app_nil_r, setTrace_same; reflexivity|].
        split; [reflexivity|].
        split; [auto | discriminate]. }
    destruct Hdl as (dl & w1 & exported & Hd & Hw1 & Hex & Hoff & Hon).
    rewrite Hd.
    destruct (flushStep_run owned w1) as (n & Hfl). rewrite Hfl.
    set (w2 := flushed (map project_id owned) w1).
    assert (Hrv : exists rv w3 revoked,
      (if revokeCollaborators (panicButton s) then revokeStep owned
       else ret false) w2 = (Ok rv, w3) /\
      EnvFiles w3 = EnvFiles w2 /\ Secrets w3 = Secrets w2 /\
      trace w3 = trace w2 ++ revoked /\
      forallb isProjectSave revoked = true).
    { destruct (revokeCollaborators (panicButton s)).
      - destruct (revokeStep_run owned w2)
          as (w3 & Hr & (ps & evs & Hw3 & Hevs)).
        exists true, w3, evs. split; [exact Hr|].
        rewrite Hw3. simpl. auto.
      - exists false, w2, []. split; [reflexivity|].
        rewrite app_nil_r. auto. }
    destruct Hrv as (rv & w3 & revoked & Hr & Hf3 & Hs3 & Ht3 & Hrevs).
    rewrite Hr. unfold respond, ret.
    eexists. exists w3, exported, revoked.
    split; [reflexivity|]. simpl.
    split; [reflexivity|].
    split; [rewrite Hf3; unfold w2; rewrite Hw1; reflexivity|].
    split; [rewrite Hs3; unfold w2; rewrite Hw1; reflexivity|].
    split.
    { rewrite Ht3. unfold w2. rewrite Hw1. simpl.
      repeat rewrite <- app_assoc. reflexivity. }
    split; [exact Hex|]. split; [exact Hrevs|].
    split; [exact Hoff|]. exact Hon. }
  destruct Hrun as (results & w' & exported & revoked & Hrun & Hfl & Hfiles
                    & Hsec & Htr & Hex & Hrev & Hoff & Hon).
  exists results, w', exported, revoked.
  split; [exact Hrun|]. split; [exact Hfl|]. split; [exact Hfiles|].
  split.
  { intros r p Hr Hp Hown Heq. rewrite Hfiles in Hr.
    apply survivors_spec in Hr. destruct Hr as [_ Hn]. apply Hn.
    rewrite Heq. apply in_map. unfold owned, ownedBy. apply filter_In.
    split; [exact Hp|]. rewrite Hown. apply String.eqb_refl. }
  split.
  { intros q Hq Hnot. rewrite Hfiles. apply survivors_other_project.
    intros Hin. apply in_map_iff in Hin. destruct Hin as (p & Hid & Hp).
    unfold owned, ownedBy in Hp. apply filter_In in Hp.
    destruct Hp as [Hp Hown]. apply String.eqb_eq in Hown.
    assert (p = q).
    { clear - Hnd Hp Hq Hid. induction (Projects w) as [|x t IH];
        [contradiction|].
      simpl in Hnd. inversion Hnd as [|? ? Hx Hnd']; subst.
      destruct Hp as [->|Hp], Hq as [->|Hq].
      - reflexivity.
      - exfalso. apply Hx. rewrite Hid. apply in_map. exact Hq.
      - exfalso. apply Hx. rewrite <- Hid. apply in_map. exact Hp.
      - apply IH; assumption. }
    subst p. contradiction. }
  split; [exact Hsec|]. split; [exact Htr|].
  split; [exact Hex|]. split; [exact Hrev|].
  split; [exact Hoff | exact Hon].
Qed.

(** X8: the content route never records anything: whatever the request, it
    adds to the trace at most the query and the creation of the decipher
    and leaves the rest of the world, the audit collection included, as it
    was. *)
Lemma contentRoute_never_logs (req : Request) (w : World) :
  extends isExportEvent w (snd (contentRoute req w)) /\
  EnvLogs (snd (contentRoute req w)) = EnvLogs w.
Proof.
  assert (H : extends isExportEvent w (snd (contentRoute req w))).
  { unfold contentRoute, guarded, bind.
    pose proof (requireProjectAccess_world read req w) as Hw.
    destruct (requireProjectAccess read req w) as [[[res|p]|e] w0];
      simpl in Hw; subst w0; try apply extends_refl.
    unfold contentHandler, tryCatch, bind.
    destruct (negb (isValidObjectId (params_projectId req))
              || negb (isValidObjectId (params_envFileId req)));
      [apply extends_refl|].
    unfold EnvFile_findOne, bind, emit, modify, gets. simpl.
    set (w1 := setTrace (trace w ++ [EvEnvFileFind]) w).
    assert (H1 : extends isExportEvent w w1)
      by (apply extends_one; reflexivity).
    destruct (find _ (EnvFiles w)) as [f|]; [|exact H1].
    pose proof (decryptEnv_extends (encryptedData f) (iv f) (authTag f) w1)
      as Hd.
    destruct (decryptEnv _ _ _ w1) as [[plaintext|e] w2]; simpl in Hd |- *;
      apply (extends_trans _ w w1 w2); assumption. }
  split; [exact H|].
  destruct H as (evs & -> & _). reflexivity.
Qed.

(** X7: [getUserProjectPermission] and the guard agree: the guard lets a
    request through exactly when the permission the function reports is
    [write], or is [read] and [read] is what is required. *)
Lemma requireProjectAccess_getUserProjectPermission
    (required : Permission) (req : Request) (u : ObjectId) (w : World) :
  user req = Some u ->
  isValidObjectId (orElse (params_projectId req) (params_id req)) = true ->
  ((exists p, requireProjectAccess required req w = (Ok (Next p), w)) <->
   (exists perm,
       getUserProjectPermission u
         (orElse (params_projectId req) (params_id req)) w
         = (Ok (Some perm), w) /\
       (perm = write \/ required = read))).
Proof.
  intros Hu Hv.
  unfold getUserProjectPermission, Project_findById, bind, gets, ret.
  destruct (find (fun q => String.eqb (project_id q)
                     (castObjectId (orElse (params_projectId req)
                                           (params_id req))))
                 (Projects w)) as [p|] eqn:Hf.
  - rewrite (requireProjectAccess_found required req w u p Hu Hv Hf).
    destruct (isProjectOwner u p).
    + split; intros _; [exists write | exists p]; auto.
    + destruct (findMember u p) as [m|].
      * destruct (member_permission m), required; simpl; split.
        all: try (intros _; eexists; split; [reflexivity | auto]; fail).
        all: try (intros _; eexists; reflexivity).
        all: try (intros (q & Hq); discriminate).
        all: intros (perm & [= <-] & [Hp|Hp]); discriminate.
      * split; [intros (q & Hq); discriminate|].
        intros (perm & Hp & _). discriminate.
  - rewrite (requireProjectAccess_missing required req w u Hu Hv Hf).
    split; [intros (q & Hq); discriminate|].
    intros (perm & Hp & _). discriminate.
Qed.

(** ** The audit write is contained *)

Lemma sameOffFaults_audit (w1 w2 : World) :
  sameOffFaults w1 w2 -> sameOffAudit w1 w2.
Proof. unfold sameOffFaults, sameOffAudit, offAudit. intros ->. reflexivity. Qed.

Lemma sameOffAudit_fields (w1 w2 : World) :
  sameOffAudit w1 w2 ->
  MASTER_ENCRYPTION_KEY w1 = MASTER_ENCRYPTION_KEY w2 /\
  entropy w1 = entropy w2 /\ entropyUsed w1 = entropyUsed w2 /\
  idSupply w1 = idSupply w2 /\ idsUsed w1 = idsUsed w2 /\
  Projects w1 = Projects w2 /\ EnvFiles w1 = EnvFiles w2 /\
  Users w1 = Users w2 /\ UserSettings w1 = UserSettings w2 /\
  Secrets w1 = Secrets w2.
Proof.
  unfold sameOffAudit. intros H.
  repeat split.
  - exact (f_equal MASTER_ENCRYPTION_KEY H).
  - exact (f_equal entropy H).
  - exact (f_equal entropyUsed H).
  - exact (f_equal idSupply H).
  - exact (f_equal idsUsed H).
  - exact (f_equal Projects H).
  - exact (f_equal EnvFiles H).
  - exact (f_equal Users H).
  - exact (f_equal UserSettings H).
  - exact (f_equal Secrets H).
Qed.

Lemma offAudit_setTrace (t : list Event) (w : World) :
  offAudit (setTrace t w) = offAudit w.
Proof. reflexivity. Qed.

Lemma offAudit_setEnvLogs (ls : list IEnvLog) (w : World) :
  offAudit (setEnvLogs ls w) = offAudit w.
Proof. reflexivity. Qed.

Lemma offAudit_setEnvFiles (fs : list IEnvFile) (w : World) :
  offAudit (setEnvFiles fs w) = setEnvFiles fs (offAudit w).
Proof. reflexivity. Qed.

Lemma offAudit_setIdsUsed (n : nat) (w : World) :
  offAudit (setIdsUsed n w) = setIdsUsed n (offAudit w).
Proof. reflexivity. Qed.

Lemma offAudit_setEntropyUsed (n : nat) (w : World) :
  offAudit (setEntropyUsed n w) = setEntropyUsed n (offAudit w).
Proof. reflexivity. Qed.

Lemma related_ret (R : World -> World -> Prop) {A} (a : A) :
  related R R (ret a) (ret a).
Proof. intros w1 w2 H. split; [reflexivity | exact H]. Qed.

Lemma related_throw (R : World -> World -> Prop) {A} (e : Error) :
  related R R (@throw A e) (@throw A e).
Proof. intros w1 w2 H. split; [reflexivity | exact H]. Qed.

Lemma related_bind (R R' R'' : World -> World -> Prop) {A B}
    (c1 c2 : M A) (k1 k2 : A -> M B) :
  related R R' c1 c2 ->
  (forall a, related R' R'' (k1 a) (k2 a)) ->
  (forall w1 w2, R' w1 w2 -> R'' w1 w2) ->
  related R R'' (bind c1 k1) (bind c2 k2).
Proof.
  intros Hc Hk Hsub w1 w2 H. unfold bind.
  destruct (Hc w1 w2 H) as [Hf Hw].
  destruct (c1 w1) as [[a1|e1] w1'], (c2 w2) as [[a2|e2] w2'];
    simpl in Hf, Hw; try discriminate.
  - injection Hf as ->. apply Hk. exact Hw.
  - injection Hf as ->. split; [reflexivity | apply Hsub; exact Hw].
Qed.

Lemma related_tryCatch (R R' : World -> World -> Prop) {A}
    (c1 c2 : M A) (h1 h2 : Error -> M A) :
  related R R' c1 c2 ->
  (forall e, related R' R' (h1 e) (h2 e)) ->
  related R R' (tryCatch c1 h1) (tryCatch c2 h2).
Proof.
  intros Hc Hh w1 w2 H. unfold tryCatch.
  destruct (Hc w1 w2 H) as [Hf Hw].
  destruct (c1 w1) as [[a1|e1] w1'], (c2 w2) as [[a2|e2] w2'];
    simpl in Hf, Hw; try discriminate.
  - injection Hf as ->. split; [reflexivity | exact Hw].
  - injection Hf as ->. apply Hh. exact Hw.
Qed.

Lemma related_pre (R0 R R' : World -> World -> Prop) {A} (c1 c2 : M A) :
  (forall w1 w2, R w1 w2 -> R0 w1 w2) ->
  related R0 R' c1 c2 -> related R R' c1 c2.
Proof. intros Hsub Hc w1 w2 H. apply Hc, Hsub, H. Qed.

Lemma steady_gets {A} (f : World -> A) :
  (forall w1 w2, sameOffAudit w1 w2 -> f w1 = f w2) -> steady (gets f).
Proof.
  intros Hf w1 w2 H. unfold gets. simpl. split; [|exact H].
  f_equal. apply Hf. exact H.
Qed.

Lemma steady_emit (e : Event) : steady (emit e).
Proof. intros w1 w2 H. split; [reflexivity | exact H]. Qed.

Lemma steady_bind {A B} (c : M A) (k : A -> M B) :
  steady c -> (forall a, steady (k a)) -> steady (bind c k).
Proof. intros Hc Hk. apply (related_bind _ sameOffAudit); auto. Qed.

Lemma steady_Project_findById (id : string) : steady (Project_findById id).
Proof.
  apply steady_gets. intros w1 w2 H.
  destruct (sameOffAudit_fields w1 w2 H) as (_ & _ & _ & _ & _ & -> & _).
  reflexivity.
Qed.

Lemma steady_populateUser (id : ObjectId) : steady (populateUser id).
Proof.
  apply steady_gets. intros w1 w2 H.
  destruct (sameOffAudit_fields w1 w2 H)
    as (_ & _ & _ & _ & _ & _ & _ & -> & _).
  reflexivity.
Qed.

Lemma steady_EnvFile_findOne (sel : IEnvFile -> bool) :
  steady (EnvFile_findOne sel).
Proof.
  apply steady_bind; [apply steady_emit|]. intros _.
  apply steady_gets. intros w1 w2 H.
  destruct (sameOffAudit_fields w1 w2 H) as (_ & _ & _ & _ & _ & _ & -> & _).
  reflexivity.
Qed.

Lemma steady_EnvFile_findLatest (sel : IEnvFile -> bool) :
  steady (EnvFile_findLatest sel).
Proof.
  apply steady_bind; [apply steady_emit|]. intros _.
  apply steady_gets. intros w1 w2 H.
  destruct (sameOffAudit_fields w1 w2 H) as (_ & _ & _ & _ & _ & _ & -> & _).
  reflexivity.
Qed.

Lemma steady_EnvFile_findView (id : ObjectId) : steady (EnvFile_findView id).
Proof.
  apply steady_bind; [apply steady_EnvFile_findOne|].
  intros [r|]; [|apply related_ret].
  apply steady_bind; [apply steady_populateUser|].
  intros u. apply related_ret.
Qed.

Lemma steady_EnvFile_create (pid : ObjectId) (env : Environment)
    (blob : EncryptedBlob) (v : Z) (u : ObjectId) :
  steady (EnvFile_create pid env blob v u).
Proof.
  intros w1 w2 H.
  destruct (sameOffAudit_fields w1 w2 H)
    as (_ & _ & _ & Hs & Hi & _ & Hf & _).
  unfold EnvFile_create. cbn [fst snd]. rewrite Hs, Hi, Hf.
  split; [reflexivity|]. unfold sameOffAudit in *.
  rewrite !offAudit_setTrace, !offAudit_setEnvFiles, !offAudit_setIdsUsed, H.
  reflexivity.
Qed.

Lemma steady_EnvFile_save (row : IEnvFile) : steady (EnvFile_save row).
Proof.
  apply steady_bind; [apply steady_emit|]. intros _.
  intros w1 w2 H.
  destruct (sameOffAudit_fields w1 w2 H) as (_ & _ & _ & _ & _ & _ & Hf & _).
  split; [reflexivity|]. unfold modify. cbn [snd].
  unfold sameOffAudit in *. rewrite !offAudit_setEnvFiles, Hf, H.
  reflexivity.
Qed.

Lemma steady_EnvFile_findByIdAndDelete (id : string) :
  steady (EnvFile_findByIdAndDelete id).
Proof.
  apply steady_bind; [apply steady_emit|]. intros _.
  intros w1 w2 H.
  destruct (sameOffAudit_fields w1 w2 H) as (_ & _ & _ & _ & _ & _ & Hf & _).
  split; [reflexivity|]. unfold modify. cbn [snd].
  unfold sameOffAudit in *. rewrite !offAudit_setEnvFiles, Hf, H.
  reflexivity.
Qed.

Lemma steady_getMasterKey : steady getMasterKey.
Proof.
  intros w1 w2 H. rewrite !getMasterKey_world. split; [|exact H].
  destruct (sameOffAudit_fields w1 w2 H) as (Hk & _).
  unfold getMasterKey, bind, gets. rewrite Hk.
  destruct (MASTER_ENCRYPTION_KEY w2) as [s|]; [|reflexivity].
  destruct (String.eqb s ""); [reflexivity|].
  unfold tryCatch. destruct (negb _); reflexivity.
Qed.

Lemma steady_randomBytes (n : nat) : steady (randomBytes n).
Proof.
  intros w1 w2 H.
  destruct (sameOffAudit_fields w1 w2 H) as (_ & He & Hu & _).
  unfold randomBytes. cbn [fst snd]. rewrite He, Hu.
  split; [reflexivity|]. unfold sameOffAudit in *.
  rewrite !offAudit_setEntropyUsed, H. reflexivity.
Qed.

Lemma steady_encryptEnv (data : JSString) : steady (encryptEnv data).
Proof.
  unfold encryptEnv.
  apply steady_bind; [apply steady_getMasterKey|]. intros key.
  apply steady_bind; [apply steady_randomBytes|]. intros nonce.
  apply steady_bind; [apply steady_emit|]. intros _.
  apply related_ret.
Qed.

Lemma steady_decryptEnv (ct nonce tag : Buffer) : steady (decryptEnv ct nonce tag).
Proof.
  unfold decryptEnv.
  apply steady_bind; [apply steady_getMasterKey|]. intros key.
  destruct (negb _); [apply related_throw|].
  destruct (negb _); [apply related_throw|].
  apply steady_bind; [apply steady_emit|]. intros _.
  apply related_tryCatch.
  - destruct (Buffer_eqb _ _); [apply related_ret | apply related_throw].
  - intros e. apply related_throw.
Qed.

Lemma steady_respond (code : Z) (p : Payload) : steady (respond code p).
Proof. apply related_ret. Qed.

Lemma steady_requireProjectAccess (required : Permission) (req : Request) :
  steady (requireProjectAccess required req).
Proof.
  intros w1 w2 H. rewrite !requireProjectAccess_world. split; [|exact H].
  apply requireProjectAccess_reads.
  apply (sameOffAudit_fields w1 w2 H).
Qed.

Lemma steady_requireProjectOwnership (req : Request) :
  steady (requireProjectOwnership req).
Proof.
  intros w1 w2 H. rewrite !requireProjectOwnership_world. split; [|exact H].
  apply requireProjectOwnership_reads.
  apply (sameOffAudit_fields w1 w2 H).
Qed.

Lemma logEnvAction_contained
    (pid userId : ObjectId) (action : LogAction) (environment_ : string)
    (metadata : option LogMetadata) (envFileId : option ObjectId)
    (v : option Z) (w : World) :
  fst (logEnvAction pid userId action environment_ metadata envFileId v w)
    = Ok tt /\
  sameOffAudit
    (snd (logEnvAction pid userId action environment_ metadata envFileId v w))
    w.
Proof.
  rewrite logEnvAction_run. simpl. split; [reflexivity|].
  destruct (auditWrites _ _ _ _ _ _ _ _); reflexivity.
Qed.

Lemma quiet_logEnvAction_noLog : quiet logEnvAction noLog.
Proof.
  intros pid u a env meta fid v w1 w2 H.
  destruct (logEnvAction_contained pid u a env meta fid v w1) as [-> Hw].
  split; [reflexivity|]. unfold sameOffAudit in *. simpl. congruence.
Qed.

Lemma quiet_logEnvAction : quiet logEnvAction logEnvAction.
Proof.
  intros pid u a env meta fid v w1 w2 H.
  destruct (logEnvAction_contained pid u a env meta fid v w1) as [-> Hw1].
  destruct (logEnvAction_contained pid u a env meta fid v w2) as [-> Hw2].
  split; [reflexivity|]. unfold sameOffAudit in *. congruence.
Qed.

Lemma rel_bind {A B} (c1 c2 : M A) (k1 k2 : A -> M B) :
  related sameOffAudit sameOffAudit c1 c2 ->
  (forall a, related sameOffAudit sameOffAudit (k1 a) (k2 a)) ->
  related sameOffAudit sameOffAudit (bind c1 k1) (bind c2 k2).
Proof. intros Hc Hk. apply (related_bind _ sameOffAudit); auto. Qed.

Ltac rel :=
  repeat first
    [ apply steady_respond
    | apply steady_encryptEnv
    | apply steady_decryptEnv
    | apply steady_EnvFile_findOne
    | apply steady_EnvFile_findLatest
    | apply steady_EnvFile_create
    | apply steady_EnvFile_save
    | apply steady_EnvFile_findByIdAndDelete
    | apply steady_EnvFile_findView
    | apply steady_requireProjectAccess
    | apply steady_requireProjectOwnership
    | match goal with H : quiet _ _ |- _ => apply H end
    | apply related_ret
    | apply related_throw
    | match goal with
      | |- related _ _ (match ?x with _ => _ end) _ => destruct x
      | |- related _ _ (if ?b then _ else _) _ => destruct b
      end
    | apply rel_bind; [ | intro ]
    | apply related_tryCatch; [ | intro ] ].

Section Loggers.
Variables log1 log2 : Logger.
Hypothesis Hquiet : quiet log1 log2.

Lemma related_uploadRoute (req : Request) :
  related sameOffAudit sameOffAudit
          (uploadRouteWith log1 req) (uploadRouteWith log2 req).
Proof.
  unfold uploadRouteWith, guarded, uploadHandlerWith, storeUploadWith.
  cbv zeta. rel.
Qed.

Lemma related_downloadRoute (req : Request) :
  related sameOffAudit sameOffAudit
          (downloadRouteWith log1 req) (downloadRouteWith log2 req).
Proof.
  unfold downloadRouteWith, guarded, downloadHandlerWith.
  cbv zeta. rel.
Qed.

Lemma related_editRoute (req : Request) :
  related sameOffAudit sameOffAudit
          (editRouteWith log1 req) (editRouteWith log2 req).
Proof.
  unfold editRouteWith, guarded, editHandlerWith.
  cbv zeta. rel.
Qed.

Lemma related_deleteRoute (req : Request) :
  related sameOffAudit sameOffAudit
          (deleteRouteWith log1 req) (deleteRouteWith log2 req).
Proof.
  unfold deleteRouteWith, guarded, deleteHandlerWith.
  cbv zeta. rel.
Qed.

Lemma related_logsDownloadRoute (req : Request) :
  related sameOffFaults sameOffAudit
          (logsDownloadRouteWith log1 req) (logsDownloadRouteWith log2 req).
Proof.
  unfold logsDownloadRouteWith, guarded.
  apply (related_bind _ sameOffFaults).
  - intros w1 w2 H. rewrite !requireProjectOwnership_world.
    split; [|exact H].
    apply requireProjectOwnership_reads.
    apply (sameOffAudit_fields w1 w2 (sameOffFaults_audit w1 w2 H)).
  - intros [res|p].
    + intros w1 w2 H. split; [reflexivity|].
      apply sameOffFaults_audit. exact H.
    + unfold logsDownloadHandlerWith. cbv zeta.
      apply related_tryCatch; [|intro; rel].
      apply (related_bind _ sameOffAudit).
      * intros w1 w2 H. unfold EnvLog_findRecent, gets. cbn [fst snd].
        split; [|apply sameOffFaults_audit; exact H].
        rewrite (f_equal EnvLogs H : EnvLogs w1 = EnvLogs w2). reflexivity.
      * intros logs. rel.
      * auto.
  - apply sameOffFaults_audit.
Qed.

End Loggers.

(** C8: whatever happens inside the audit write, [logEnvAction] returns
    normally and leaves everything but the audit trail as it was (when the
    user lookup fails, the user record is missing or the write fails, the
    audit collection too); and each route that records an audit event
    (upload, download, edit, delete, access to the logs) gives the same
    response and the same state off the audit trail as the same route
    without the audit call, and as itself in a world where the audit
    queries fail differently. *)
Theorem audit_failure_is_contained :
  (forall (pid userId : ObjectId) (action : LogAction) (environment_ : string)
          (metadata : option LogMetadata) (envFileId : option ObjectId)
          (v : option Z) (w : World),
      fst (logEnvAction pid userId action environment_ metadata envFileId v w)
        = Ok tt /\
      sameOffAudit
        (snd (logEnvAction pid userId action environment_ metadata
                           envFileId v w)) w /\
      (failUserFind w = true \/ failEnvLogCreate w = true \/
       (forall usr, In usr (Users w) -> user_id usr <> userId) ->
       EnvLogs (snd (logEnvAction pid userId action environment_ metadata
                                  envFileId v w)) = EnvLogs w))
  /\
  (forall (req : Request) (w1 w2 : World),
      sameOffFaults w1 w2 ->
      (outcomeMatches (uploadRoute req w1) (uploadRouteWith noLog req w2) /\
       outcomeMatches (uploadRoute req w1) (uploadRoute req w2)) /\
      (outcomeMatches (downloadRoute req w1) (downloadRouteWith noLog req w2) /\
       outcomeMatches (downloadRoute req w1) (downloadRoute req w2)) /\
      (outcomeMatches (editRoute req w1) (editRouteWith noLog req w2) /\
       outcomeMatches (editRoute req w1) (editRoute req w2)) /\
      (outcomeMatches (deleteRoute req w1) (deleteRouteWith noLog req w2) /\
       outcomeMatches (deleteRoute req w1) (deleteRoute req w2)) /\
      (outcomeMatches (logsDownloadRoute req w1)
                      (logsDownloadRouteWith noLog req w2) /\
       outcomeMatches (logsDownloadRoute req w1) (logsDownloadRoute req w2))).
Proof.
  split.
  - intros pid userId action environment_ metadata envFileId v w.
    destruct (logEnvAction_contained pid userId action environment_ metadata
                envFileId v w) as [Hok Hsame].
    split; [exact Hok|]. split; [exact Hsame|].
    intros Hfault. rewrite logEnvAction_run. cbn [snd].
    rewrite auditWrites_fault by exact Hfault. reflexivity.
  - intros req w1 w2 H.
    pose proof (sameOffFaults_audit w1 w2 H) as Ha.
    repeat split.
    all: try (apply (related_uploadRoute _ _ quiet_logEnvAction_noLog req w1 w2 Ha)).
    all: try (apply (related_uploadRoute _ _ quiet_logEnvAction req w1 w2 Ha)).
    all: try (apply (related_downloadRoute _ _ quiet_logEnvAction_noLog req w1 w2 Ha)).
    all: try (apply (related_downloadRoute _ _ quiet_logEnvAction req w1 w2 Ha)).
    all: try (apply (related_editRoute _ _ quiet_logEnvAction_noLog req w1 w2 Ha)).
    all: try (apply (related_editRoute _ _ quiet_logEnvAction req w1 w2 Ha)).
    all: try (apply (related_deleteRoute _ _ quiet_logEnvAction_noLog req w1 w2 Ha)).
    all: try (apply (related_deleteRoute _ _ quiet_logEnvAction req w1 w2 Ha)).
    all: try (apply (related_logsDownloadRoute _ _ quiet_logEnvAction_noLog req w1 w2 H)).
    all: try (apply (related_logsDownloadRoute _ _ quiet_logEnvAction req w1 w2 H)).
Qed.

(** * Further properties *)

(** ** lib/crypto.ts: every string, missing keys, forged tags *)

Lemma utf8Encode_cons (u : Z) (t : JSString) :
  utf8Encode (u :: t) =
    if isHighSurrogate u then
      match t with
      | l :: t' =>
          if isLowSurrogate l then
            utf8Bytes (0x10000 + (u - 0xD800) * 1024 + (l - 0xDC00))
              ++ utf8Encode t'
          else utf8Bytes REPLACEMENT ++ utf8Encode t
      | [] => utf8Bytes REPLACEMENT
      end
    else if isLowSurrogate u then utf8Bytes REPLACEMENT ++ utf8Encode t
    else utf8Bytes u ++ utf8Encode t.
Proof. reflexivity. Qed.

Lemma toWellFormed_cons (u : Z) (t : JSString) :
  toWellFormed (u :: t) =
    if isHighSurrogate u then
      match t with
      | l :: t' =>
          if isLowSurrogate l then u :: l :: toWellFormed t'
          else REPLACEMENT :: toWellFormed t
      | [] => [REPLACEMENT]
      end
    else if isLowSurrogate u then REPLACEMENT :: toWellFormed t
    else u :: toWellFormed t.
Proof. reflexivity. Qed.

Lemma REPLACEMENT_scalar : isScalar REPLACEMENT.
Proof. unfold isScalar, REPLACEMENT. lia. Qed.

Lemma utf8Decode_replacement (rest : Buffer) :
  utf8Decode (utf8Bytes REPLACEMENT ++ rest) = REPLACEMENT :: utf8Decode rest.
Proof. rewrite utf8Decode_bytes by apply REPLACEMENT_scalar. reflexivity. Qed.

Lemma not_surrogate (u : Z) :
  isHighSurrogate u = false -> isLowSurrogate u = false ->
  ~ (0xD800 <= u <= 0xDFFF).
Proof.
  unfold isHighSurrogate, isLowSurrogate. intros Hhi Hlo Hs.
  destruct (Z.le_gt_cases u 0xDBFF).
  - rewrite (proj2 (inRange_spec 0xD800 0xDBFF u)) in Hhi by lia. discriminate.
  - rewrite (proj2 (inRange_spec 0xDC00 0xDFFF u)) in Hlo by lia. discriminate.
Qed.

(** The codec on any string: what comes back is the string with its
    unpaired surrogates replaced. *)
Lemma utf8_normalises_bounded (n : nat) :
  forall s : JSString, (List.length s <= n)%nat -> isCodeUnits s = true ->
            utf8Decode (utf8Encode s) = toWellFormed s.
Proof.
  induction n as [|n IH]; intros s Hlen Hcu.
  - destruct s; [reflexivity | simpl in Hlen |- *; lia].
  - destruct s as [|u t]; [reflexivity|].
    rewrite utf8Encode_cons, toWellFormed_cons.
    simpl in Hcu. apply andb_true_iff in Hcu. destruct Hcu as [Hu Hcu].
    apply inRange_spec in Hu.
    destruct (isHighSurrogate u) eqn:Hhi.
    + destruct t as [|l t']; [reflexivity|].
      destruct (isLowSurrogate l) eqn:Hlo.
      * apply inRange_spec in Hhi. apply inRange_spec in Hlo.
        rewrite utf8Decode_bytes by (unfold isScalar; lia).
        rewrite utf16Units_pair by assumption.
        simpl in Hcu. apply andb_true_iff in Hcu. destruct Hcu as [_ Hcu].
        cbn [app]. rewrite IH; [reflexivity | simpl in Hlen |- *; lia | assumption].
      * rewrite utf8Decode_replacement.
        rewrite IH; [reflexivity | simpl in Hlen |- *; lia | assumption].
    + destruct (isLowSurrogate u) eqn:Hlo.
      * rewrite utf8Decode_replacement.
        rewrite IH; [reflexivity | simpl in Hlen |- *; lia | assumption].
      * pose proof (not_surrogate u Hhi Hlo) as Hns.
        rewrite utf8Decode_bytes by (unfold isScalar; lia).
        rewrite utf16Units_bmp by lia.
        cbn [app]. rewrite IH; [reflexivity | simpl in Hlen |- *; lia | assumption].
Qed.

Lemma utf8_normalises (s : JSString) :
  isCodeUnits s = true -> utf8Decode (utf8Encode s) = toWellFormed s.
Proof. apply (utf8_normalises_bounded (List.length s)). apply Nat.le_refl. Qed.

Lemma toWellFormed_wellFormed_bounded (n : nat) :
  forall s : JSString, (List.length s <= n)%nat -> isCodeUnits s = true ->
            isWellFormed (toWellFormed s) = true.
Proof.
  induction n as [|n IH]; intros s Hlen Hcu.
  - destruct s; [reflexivity | simpl in Hlen |- *; lia].
  - destruct s as [|u t]; [reflexivity|].
    rewrite toWellFormed_cons.
    simpl in Hcu. apply andb_true_iff in Hcu. destruct Hcu as [Hu Hcu].
    assert (Hrep : forall r, isWellFormed r = true ->
                             isWellFormed (REPLACEMENT :: r) = true).
    { intros r Hr. cbn [isWellFormed].
      change (isHighSurrogate REPLACEMENT) with false.
      change (isLowSurrogate REPLACEMENT) with false.
      change (inRange 0 65535 REPLACEMENT) with true. exact Hr. }
    destruct (isHighSurrogate u) eqn:Hhi.
    + destruct t as [|l t']; [reflexivity|].
      destruct (isLowSurrogate l) eqn:Hlo.
      * cbn [isWellFormed]. rewrite Hhi, Hlo. simpl.
        simpl in Hcu. apply andb_true_iff in Hcu. destruct Hcu as [_ Hcu].
        apply IH; [simpl in Hlen |- *; lia | assumption].
      * apply Hrep. apply IH; [simpl in Hlen |- *; lia | assumption].
    + destruct (isLowSurrogate u) eqn:Hlo.
      * apply Hrep. apply IH; [simpl in Hlen |- *; lia | assumption].
      * cbn [isWellFormed]. rewrite Hhi, Hlo, Hu. simpl.
        apply IH; [simpl in Hlen |- *; lia | assumption].
Qed.

(** X1: whatever string [encryptEnv] is given (well-formed or not),
    [decryptEnv] under the same valid key accepts the blob it produced and
    returns the string with every unpaired surrogate replaced by U+FFFD,
    which is a well-formed string. *)
Theorem decrypt_of_encrypt_any_string (data : JSString) (w w' : World) :
  validMasterKey w ->
  MASTER_ENCRYPTION_KEY w' = MASTER_ENCRYPTION_KEY w ->
  isCodeUnits data = true ->
  exists blob w1,
    encryptEnv data w = (Ok blob, w1) /\
    fst (decryptEnv (blob_encryptedData blob) (blob_iv blob)
                    (blob_authTag blob) w')
      = Ok (toWellFormed data) /\
    isWellFormed (toWellFormed data) = true.
Proof.
  intros Hk E Hcu.
  destruct (decrypt_encrypt data w w' Hk E) as (blob & w1 & He & Hd).
  exists blob, w1. split; [exact He|]. split.
  - rewrite Hd, utf8_normalises by exact Hcu. reflexivity.
  - apply (toWellFormed_wellFormed_bounded (List.length data));
      [apply Nat.le_refl | exact Hcu].
Qed.

(** X2: without a valid master key nothing is encrypted or decrypted:
    [getMasterKey], [encryptEnv] and [decryptEnv] throw the same
    configuration error (the "not set" one exactly when the variable is
    missing or empty, the "invalid" one otherwise) and leave the world as
    it was: no random byte is drawn and no cipher is created. *)
Theorem crypto_needs_master_key
    (w : World) (data : JSString) (ct nonce tag : Buffer) :
  ~ validMasterKey w ->
  exists e,
    (e = MasterKeyNotSet \/ e = InvalidMasterKey) /\
    (e = MasterKeyNotSet <->
     MASTER_ENCRYPTION_KEY w = None \/ MASTER_ENCRYPTION_KEY w = Some ""%string) /\
    getMasterKey w = (Throw e, w) /\
    encryptEnv data w = (Throw e, w) /\
    decryptEnv ct nonce tag w = (Throw e, w).
Proof.
  intros Hnk.
  assert (H : exists e,
    (e = MasterKeyNotSet \/ e = InvalidMasterKey) /\
    (e = MasterKeyNotSet <->
     MASTER_ENCRYPTION_KEY w = None \/ MASTER_ENCRYPTION_KEY w = Some ""%string) /\
    getMasterKey w = (Throw e, w)).
  { unfold getMasterKey, bind, gets, tryCatch, ret, throw.
    destruct (MASTER_ENCRYPTION_KEY w) as [s|] eqn:Hs.
    - destruct (String.eqb_spec s "") as [->|Hne].
      + exists MasterKeyNotSet. repeat split; auto.
      + destruct (Nat.eqb_spec (List.length (base64Decode s)) KEY_LENGTH)
          as [Hlen|Hlen].
        * exfalso. apply Hnk. exists s. auto.
        * exists InvalidMasterKey. simpl. split; [auto|]. split; [|reflexivity].
          split; [discriminate|]. intros [H|[= H]]; [discriminate|].
          contradiction.
    - exists MasterKeyNotSet. repeat split; auto. }
  destruct H as (e & He & Hiff & Hg). exists e.
  split; [exact He|]. split; [exact Hiff|]. split; [exact Hg|].
  unfold encryptEnv, decryptEnv, bind. rewrite Hg. split; reflexivity.
Qed.

Lemma nextNonce_length (w : World) : List.length (nextNonce w) = IV_LENGTH.
Proof. unfold nextNonce. rewrite length_map, length_seq. reflexivity. Qed.

Lemma xorStream_length (ks : nat -> Z) (data : Buffer) :
  forall i, List.length (xorStream ks i data) = List.length data.
Proof.
  induction data as [|b t IH]; intros i; simpl; [reflexivity|].
  rewrite IH. reflexivity.
Qed.

(** X3: under a valid key [encryptEnv] always succeeds; the nonce and the
    tag of its blob have sixteen bytes each (the sizes [decryptEnv]
    insists on), the ciphertext has exactly as many bytes as the UTF-8
    encoding of the data, and each call draws the next sixteen bytes of the
    random source, so that two calls in a row never read the same
    position. *)
Theorem encryptEnv_blob_shape (d1 d2 : JSString) (w : World) :
  validMasterKey w ->
  exists b1 w1 b2 w2,
    encryptEnv d1 w = (Ok b1, w1) /\
    encryptEnv d2 w1 = (Ok b2, w2) /\
    List.length (blob_iv b1) = IV_LENGTH /\
    List.length (blob_authTag b1) = AUTH_TAG_LENGTH /\
    List.length (blob_encryptedData b1) = List.length (utf8Encode d1) /\
    blob_iv b1 = map (entropy w) (seq (entropyUsed w) 16) /\
    blob_iv b2 = map (entropy w) (seq (entropyUsed w + 16) 16) /\
    entropyUsed w2 = (entropyUsed w + 32)%nat.
Proof.
  intros Hk.
  set (w1 := setTrace (trace w ++ [EvCreateCipheriv (nextNonce w)])
                      (setEntropyUsed (entropyUsed w + IV_LENGTH) w)).
  assert (Hk1 : validMasterKey w1) by exact Hk.
  eexists. exists w1. eexists. eexists.
  split; [apply (encryptEnv_ok d1 w Hk)|].
  split; [apply (encryptEnv_ok d2 w1 Hk1)|].
  unfold sealed. cbn [blob_iv blob_authTag blob_encryptedData].
  split; [apply nextNonce_length|].
  split; [apply gcmTag_length|].
  split; [apply xorStream_length|].
  split; [reflexivity|]. split; [reflexivity|].
  simpl. unfold IV_LENGTH. lia.
Qed.

Lemma Buffer_eqb_eq (a b : Buffer) : Buffer_eqb a b = true <-> a = b.
Proof.
  revert b. induction a as [|x a IH]; intros [|y b]; simpl;
    try (split; [discriminate | discriminate]); [tauto|].
  rewrite andb_true_iff, Z.eqb_eq, IH. split.
  - intros [-> ->]. reflexivity.
  - intros [= -> ->]. auto.
Qed.

(** X4: with a valid key and a nonce and a tag of sixteen bytes,
    [decryptEnv] returns a plaintext only for the tag of the ciphertext
    under that key and nonce; any other tag gives the one generic
    decryption error.  Either way the decipher was created and nothing
    else happened. *)
Theorem decryptEnv_checks_tag (ct nonce tag : Buffer) (w : World) :
  validMasterKey w ->
  List.length nonce = IV_LENGTH ->
  List.length tag = AUTH_TAG_LENGTH ->
  snd (decryptEnv ct nonce tag w)
    = setTrace (trace w ++ [EvCreateDecipheriv nonce]) w /\
  (tag = gcmTag (masterKeyOf w) nonce ct ->
   fst (decryptEnv ct nonce tag w)
     = Ok (utf8Decode (xorStream (keystream (masterKeyOf w) nonce) 0 ct))) /\
  (tag <> gcmTag (masterKeyOf w) nonce ct ->
   fst (decryptEnv ct nonce tag w) = Throw DecryptionFailed).
Proof.
  intros Hk Hn Ht. unfold decryptEnv, bind.
  rewrite (getMasterKey_valid w Hk), Hn, Ht. simpl.
  unfold tryCatch, ret, throw.
  destruct (Buffer_eqb tag (gcmTag (masterKeyOf w) nonce ct)) eqn:E.
  - apply Buffer_eqb_eq in E. simpl. split; [reflexivity|].
    split; [reflexivity|]. intros H. contradiction.
  - simpl. split; [reflexivity|]. split; [|reflexivity].
    intros H. rewrite H, Buffer_eqb_refl in E. discriminate.
Qed.

(** ** lib/authorization.ts: ownership, and who gets through *)

Lemma requireProjectOwnership_found (req : Request) (w : World)
    (u : ObjectId) (p : IProject) :
  user req = Some u ->
  isValidObjectId (orElse (params_projectId req) (params_id req)) = true ->
  find (fun q => String.eqb (project_id q)
                   (castObjectId (orElse (params_projectId req) (params_id req))))
       (Projects w) = Some p ->
  requireProjectOwnership req w =
    (if negb (isProjectOwner u p) then
       answer 403 "Access denied: Only project owners can perform this action"
     else ret (Next p)) w.
Proof.
  intros Hu Hv Hf.
  unfold requireProjectOwnership, Project_findById. run. rewrite Hu.
  assert (Hne : String.eqb (orElse (params_projectId req) (params_id req)) ""
                = false).
  { unfold isValidObjectId in Hv.
    destruct (String.eqb _ ""); [discriminate | reflexivity]. }
  rewrite Hne, Hv. simpl. rewrite Hf.
  destruct (isProjectOwner u p); reflexivity.
Qed.

Lemma requireProjectOwnership_refuses (req : Request) (w : World)
    (u : ObjectId) (p : IProject) :
  user req = Some u ->
  isValidObjectId (orElse (params_projectId req) (params_id req)) = true ->
  find (fun q => String.eqb (project_id q)
                   (castObjectId (orElse (params_projectId req) (params_id req))))
       (Projects w) = Some p ->
  createdBy p <> u ->
  requireProjectOwnership req w =
    (Ok (Answered
           {| status := 403;
              body := JsonError
                "Access denied: Only project owners can perform this action" |}),
     w).
Proof.
  intros Hu Hv Hf Hne.
  rewrite (requireProjectOwnership_found req w u p Hu Hv Hf).
  unfold isProjectOwner.
  destruct (String.eqb_spec (createdBy p) u); [contradiction | reflexivity].
Qed.

(** X5: for an authenticated request with a well-formed project id,
    [requireProjectOwnership] answers 404 when no project has that id, lets
    the request through with the project attached when the user created
    it, and answers 403 for everybody else, members with [write]
    permission included; it never changes the world, and whoever it lets
    through is the creator of the attached project. *)
Theorem ownership_matrix (req : Request) (w : World) (u : ObjectId) :
  user req = Some u ->
  isValidObjectId (orElse (params_projectId req) (params_id req)) = true ->
  let lookup :=
    find (fun q => String.eqb (project_id q)
                     (castObjectId (orElse (params_projectId req)
                                           (params_id req))))
         (Projects w) in
  (lookup = None ->
   requireProjectOwnership req w =
     (Ok (Answered {| status := 404; body := JsonError "Project not found" |}),
      w)) /\
  (forall p, lookup = Some p -> createdBy p = u ->
             requireProjectOwnership req w = (Ok (Next p), w)) /\
  (forall p, lookup = Some p -> createdBy p <> u ->
             requireProjectOwnership req w =
               (Ok (Answered
                      {| status := 403;
                         body := JsonError
                           "Access denied: Only project owners can perform this action" |}),
                w)) /\
  (forall p w', requireProjectOwnership req w = (Ok (Next p), w') ->
                w' = w /\ createdBy p = u /\ In p (Projects w)).
Proof.
  intros Hu Hv lookup. subst lookup. split; [|split; [|split]].
  - intros Hf. unfold requireProjectOwnership, Project_findById. run.
    rewrite Hu.
    assert (Hne : String.eqb (orElse (params_projectId req) (params_id req)) ""
                  = false).
    { unfold isValidObjectId in Hv.
      destruct (String.eqb _ ""); [discriminate | reflexivity]. }
    rewrite Hne, Hv. simpl. rewrite Hf. reflexivity.
  - intros p Hf Ho. apply (requireProjectOwnership_pass req w u p Hu Hv Hf).
    unfold isProjectOwner. rewrite Ho. apply String.eqb_refl.
  - intros p Hf Ho. apply (requireProjectOwnership_refuses req w u p Hu Hv Hf Ho).
  - intros p w' Hg.
    pose proof (requireProjectOwnership_world req w) as Hw.
    rewrite Hg in Hw. simpl in Hw. subst w'.
    destruct (requireProjectOwnership_inv req w w p Hg)
      as (u' & Hu' & _ & Hf & Ho).
    rewrite Hu in Hu'. injection Hu' as <-.
    split; [reflexivity|]. split.
    + unfold isProjectOwner in Ho. apply String.eqb_eq. exact Ho.
    + apply (find_some _ _ Hf).
Qed.

(** X6: [requireProjectAccess] lets a request through only if it is
    authenticated and names a well-formed project id, the attached project
    is the stored one with that id, and the user either created it or is
    listed among its members with [write] permission, or with any
    permission when [read] is required; the world is as before. *)
Theorem access_only_for_the_entitled
    (required : Permission) (req : Request) (w w' : World) (p : IProject) :
  requireProjectAccess required req w = (Ok (Next p), w') ->
  w' = w /\
  exists u,
    user req = Some u /\
    isValidObjectId (orElse (params_projectId req) (params_id req)) = true /\
    In p (Projects w) /\
    project_id p = castObjectId (orElse (params_projectId req) (params_id req)) /\
    (createdBy p = u \/
     exists m, In m (members p) /\ member_userId m = u /\
               (member_permission m = write \/ required = read)).
Proof.
  intros Hg.
  pose proof (requireProjectAccess_world required req w) as Hw.
  rewrite Hg in Hw. simpl in Hw. subst w'. split; [reflexivity|].
  revert Hg. unfold requireProjectAccess, Project_findById. run.
  destruct (user req) as [u|]; [|discriminate].
  destruct (String.eqb _ ""); [discriminate|].
  destruct (isValidObjectId _) eqn:Hv; [|discriminate]. simpl.
  destruct (find _ _) as [q|] eqn:Hf; [|discriminate].
  destruct (find_some _ _ Hf) as [Hin Hid]. apply String.eqb_eq in Hid.
  destruct (isProjectOwner u q) eqn:Ho.
  - intros [= <-]. exists u. repeat split; auto.
    left. apply String.eqb_eq. exact Ho.
  - destruct (findMember u q) as [m|] eqn:Hm; [|discriminate].
    destruct (find_some _ _ Hm) as [Hmin Hmid]. apply String.eqb_eq in Hmid.
    destruct (member_permission m) eqn:Hp, required; simpl;
      try discriminate; intros [= <-]; exists u; repeat split; auto;
      right; exists m; rewrite Hp; auto.
Qed.

(** X9: the routes that edit or delete an environment file, download the
    audit log or remove a member are for the owner alone: from anybody
    else, a member with [write] permission included, each of them answers
    403 and leaves the world as it was. *)
Theorem owner_only_routes (req : Request) (w : World) (u : ObjectId)
    (p : IProject) :
  user req = Some u ->
  isValidObjectId (orElse (params_projectId req) (params_id req)) = true ->
  find (fun q => String.eqb (project_id q)
                   (castObjectId (orElse (params_projectId req) (params_id req))))
       (Projects w) = Some p ->
  createdBy p <> u ->
  let refusal :=
    (Ok {| status := 403;
           body := JsonError
             "Access denied: Only project owners can perform this action" |},
     w) in
  editRoute req w = refusal /\ deleteRoute req w = refusal /\
  logsDownloadRoute req w = refusal /\ removeMemberRoute req w = refusal.
Proof.
  intros Hu Hv Hf Hne refusal. subst refusal.
  pose proof (requireProjectOwnership_refuses req w u p Hu Hv Hf Hne) as Hg.
  unfold editRoute, editRouteWith, deleteRoute, deleteRouteWith,
    logsDownloadRoute, logsDownloadRouteWith, removeMemberRoute, guarded, bind.
  rewrite Hg. repeat split; reflexivity.
Qed.

(** X10: a user who neither created the project nor is among its members
    gets 403 from the upload, content and download routes, and a member
    with [read] permission gets 403 from the upload route; in each case
    the world is left as it was. *)
Theorem members_only_routes (req : Request) (w : World) (u : ObjectId)
    (p : IProject) :
  user req = Some u ->
  isValidObjectId (orElse (params_projectId req) (params_id req)) = true ->
  find (fun q => String.eqb (project_id q)
                   (castObjectId (orElse (params_projectId req) (params_id req))))
       (Projects w) = Some p ->
  createdBy p <> u ->
  (findMember u p = None ->
   let refusal :=
     (Ok {| status := 403;
            body := JsonError
              "Access denied: You do not have access to this project" |},
      w) in
   uploadRoute req w = refusal /\ contentRoute req w = refusal /\
   downloadRoute req w = refusal) /\
  (forall m, findMember u p = Some m -> member_permission m = read ->
             uploadRoute req w =
               (Ok {| status := 403;
                      body := JsonError
                        "Access denied: write permission required" |},
                w)).
Proof.
  intros Hu Hv Hf Hne.
  assert (Ho : isProjectOwner u p = false).
  { unfold isProjectOwner.
    destruct (String.eqb_spec (createdBy p) u); [contradiction | reflexivity]. }
  pose proof (requireProjectAccess_found write req w u p Hu Hv Hf) as Hw.
  pose proof (requireProjectAccess_found read req w u p Hu Hv Hf) as Hr.
  rewrite Ho in Hw, Hr.
  unfold uploadRoute, uploadRouteWith, contentRoute, downloadRoute,
    downloadRouteWith, guarded, bind.
  split.
  - intros Hm. cbv zeta. rewrite Hm in Hw, Hr.
    rewrite Hw, Hr. repeat split; reflexivity.
  - intros m Hm Hp. rewrite Hm, Hp in Hw. rewrite Hw. reflexivity.
Qed.

(** ** What the routes leave in place *)

Section Keeping.
Variable R : World -> World -> Prop.
Hypothesis R_refl : forall w, R w w.
Hypothesis R_trans : forall w1 w2 w3, R w1 w2 -> R w2 w3 -> R w1 w3.

Lemma keeps_still {A} (c : M A) : (forall w, snd (c w) = w) -> keeps R c.
Proof. intros H w. rewrite H. apply R_refl. Qed.

Lemma keeps_ret {A} (a : A) : keeps R (ret a).
Proof. intros w. apply R_refl. Qed.

Lemma keeps_throw {A} (e : Error) : keeps R (@throw A e).
Proof. intros w. apply R_refl. Qed.

Lemma keeps_gets {A} (f : World -> A) : keeps R (gets f).
Proof. intros w. apply R_refl. Qed.

Lemma keeps_bind {A B} (c : M A) (k : A -> M B) :
  keeps R c -> (forall a, keeps R (k a)) -> keeps R (bind c k).
Proof.
  intros Hc Hk w. unfold bind. specialize (Hc w).
  destruct (c w) as [[a|e] w1]; simpl in Hc; [|exact Hc].
  apply (R_trans w w1); [exact Hc | apply Hk].
Qed.

Lemma keeps_tryCatch {A} (c : M A) (h : Error -> M A) :
  keeps R c -> (forall e, keeps R (h e)) -> keeps R (tryCatch c h).
Proof.
  intros Hc Hh w. unfold tryCatch. specialize (Hc w).
  destruct (c w) as [[a|e] w1]; simpl in Hc; [exact Hc|].
  apply (R_trans w w1); [exact Hc | apply Hh].
Qed.

Lemma keeps_collect {A B} (xs : list A) (f : A -> M (list B)) :
  (forall x, keeps R (f x)) -> keeps R (collect xs f).
Proof.
  intros Hf. induction xs as [|x t IH]; simpl; [apply keeps_ret|].
  apply keeps_bind; [apply Hf|]. intros ys.
  apply keeps_bind; [exact IH|]. intros zs. apply keeps_ret.
Qed.

Lemma keeps_forEach {A} (xs : list A) (f : A -> M unit) :
  (forall x, keeps R (f x)) -> keeps R (forEach xs f).
Proof.
  intros Hf. induction xs as [|x t IH]; simpl; [apply keeps_ret|].
  apply keeps_bind; [apply Hf|]. intros _. exact IH.
Qed.

Lemma keeps_guarded (guard : M Guard) (handler : IProject -> M Response) :
  keeps R guard -> (forall p, keeps R (handler p)) ->
  keeps R (guarded guard handler).
Proof.
  intros Hg Hh. unfold guarded. apply keeps_bind; [exact Hg|].
  intros [res|p]; [apply keeps_ret | apply Hh].
Qed.

Lemma keeps_requireProjectAccess (required : Permission) (req : Request) :
  keeps R (requireProjectAccess required req).
Proof. apply keeps_still. apply requireProjectAccess_world. Qed.

Lemma keeps_requireProjectOwnership (req : Request) :
  keeps R (requireProjectOwnership req).
Proof. apply keeps_still. apply requireProjectOwnership_world. Qed.

Lemma keeps_getMasterKey : keeps R getMasterKey.
Proof. apply keeps_still. apply getMasterKey_world. Qed.

Lemma keeps_User_findById (id : ObjectId) : keeps R (User_findById id).
Proof.
  apply keeps_still. intros w. unfold User_findById.
  destruct (failUserFind w); reflexivity.
Qed.

End Keeping.

Lemma app_nil_end_exists {A} (l : list A) : exists new, l = l ++ new.
Proof. exists []. rewrite app_nil_r. reflexivity. Qed.

Lemma grows_refl (w : World) : grows w w.
Proof. repeat split; try apply app_nil_end_exists. Qed.

Lemma grows_trans (w1 w2 w3 : World) : grows w1 w2 -> grows w2 w3 -> grows w1 w3.
Proof.
  intros ((l1 & Hl1) & (t1 & Ht1) & Hu1 & Hs1 & He1 & Hk1)
         ((l2 & Hl2) & (t2 & Ht2) & Hu2 & Hs2 & He2 & Hk2).
  repeat split; try congruence.
  - exists (l1 ++ l2). rewrite Hl2, Hl1, app_assoc. reflexivity.
  - exists (t1 ++ t2). rewrite Ht2, Ht1, app_assoc. reflexivity.
Qed.

Lemma keepsHistory_refl (w : World) : keepsHistory w w.
Proof.
  split; [apply grows_refl|]. split; [reflexivity | apply app_nil_end_exists].
Qed.

Lemma keepsHistory_trans (w1 w2 w3 : World) :
  keepsHistory w1 w2 -> keepsHistory w2 w3 -> keepsHistory w1 w3.
Proof.
  intros (Hg1 & Hp1 & r1 & Hr1) (Hg2 & Hp2 & r2 & Hr2).
  split; [apply (grows_trans w1 w2 w3); assumption|].
  split; [congruence|].
  exists (r1 ++ r2). rewrite Hr2, Hr1, app_assoc. reflexivity.
Qed.

(** A world given by its fields is related to the one it was built from. *)
Ltac grown :=
  intros; unfold keepsHistory, grows; simpl;
  repeat split;
  first [ reflexivity
        | apply app_nil_end_exists
        | eexists; reflexivity
        | eexists; rewrite <- app_assoc; reflexivity ].

Lemma grows_emit (e : Event) : keeps grows (emit e).
Proof. intros w. grown. Qed.

Lemma keepsHistory_emit (e : Event) : keeps keepsHistory (emit e).
Proof. intros w. grown. Qed.

Lemma grows_randomBytes (n : nat) : keeps grows (randomBytes n).
Proof. intros w. grown. Qed.

Lemma keepsHistory_randomBytes (n : nat) : keeps keepsHistory (randomBytes n).
Proof. intros w. grown. Qed.

Lemma grows_EnvLog_create (entry : IEnvLog) : keeps grows (EnvLog_create entry).
Proof. intros w. unfold EnvLog_create. destruct (failEnvLogCreate w); grown. Qed.

Lemma keepsHistory_EnvLog_create (entry : IEnvLog) :
  keeps keepsHistory (EnvLog_create entry).
Proof. intros w. unfold EnvLog_create. destruct (failEnvLogCreate w); grown. Qed.

Lemma grows_EnvFile_create (pid : ObjectId) (env : Environment)
    (blob : EncryptedBlob) (v : Z) (u : ObjectId) :
  keeps grows (EnvFile_create pid env blob v u).
Proof. intros w. grown. Qed.

Lemma keepsHistory_EnvFile_create (pid : ObjectId) (env : Environment)
    (blob : EncryptedBlob) (v : Z) (u : ObjectId) :
  keeps keepsHistory (EnvFile_create pid env blob v u).
Proof. intros w. grown. Qed.

Lemma grows_EnvFile_save (row : IEnvFile) : keeps grows (EnvFile_save row).
Proof. intros w. grown. Qed.

Lemma grows_EnvFile_findByIdAndDelete (id : string) :
  keeps grows (EnvFile_findByIdAndDelete id).
Proof. intros w. grown. Qed.

Lemma grows_EnvFile_deleteMany (pid : ObjectId) :
  keeps grows (EnvFile_deleteMany pid).
Proof. intros w. grown. Qed.

Lemma grows_Project_save (p : IProject) : keeps grows (Project_save p).
Proof. intros w. grown. Qed.

Ltac frameWith refl trans :=
  repeat first
    [ apply (keeps_requireProjectAccess _ refl)
    | apply (keeps_requireProjectOwnership _ refl)
    | apply (keeps_getMasterKey _ refl)
    | apply (keeps_User_findById _ refl)
    | apply grows_randomBytes
    | apply keepsHistory_randomBytes
    | apply grows_EnvLog_create
    | apply keepsHistory_EnvLog_create
    | apply grows_EnvFile_create
    | apply keepsHistory_EnvFile_create
    | apply grows_EnvFile_save
    | apply grows_EnvFile_findByIdAndDelete
    | apply grows_EnvFile_deleteMany
    | apply grows_Project_save
    | apply grows_emit
    | apply keepsHistory_emit
    | apply (keeps_ret _ refl)
    | apply (keeps_throw _ refl)
    | apply (keeps_gets _ refl)
    | match goal with
      | |- keeps _ (match ?x with _ => _ end) => destruct x
      | |- keeps _ (if ?b then _ else _) => destruct b
      end
    | apply (keeps_collect _ refl trans); intro
    | apply (keeps_forEach _ refl trans); intro
    | apply (keeps_bind _ trans); [ | intro ]
    | apply (keeps_tryCatch _ trans); [ | intro ] ].

Ltac unfoldRoutes :=
  unfold uploadRoute, uploadRouteWith, uploadHandlerWith, storeUploadWith,
    contentRoute, contentHandler,
    downloadRoute, downloadRouteWith, downloadHandlerWith,
    editRoute, editRouteWith, editHandlerWith,
    deleteRoute, deleteRouteWith, deleteHandlerWith,
    logsDownloadRoute, logsDownloadRouteWith, logsDownloadHandlerWith,
    removeMemberRoute, removeMemberHandler,
    panicHandler, downloadStep, flushStep, revokeStep, exportProject,
    guarded, logEnvAction, encryptEnv, decryptEnv, respond,
    EnvFile_findView, EnvFile_findOne, EnvFile_find, EnvFile_findLatest,
    EnvLog_findRecent, EnvFile_countDocuments, Project_findById,
    Project_find_createdBy, UserSettings_findOne, populateUser;
  cbv zeta.

(** X11: the audit collection is append-only under every route: whatever
    the request, the upload, content, download, edit, delete, logs
    download, member removal and panic routes leave every entry of the
    audit collection in place and in order (they can only add at the end),
    and none of them touches the users, the settings, the secrets or the
    master key. *)
Theorem audit_log_is_append_only (req : Request) :
  keeps grows (uploadRoute req) /\
  keeps grows (contentRoute req) /\
  keeps grows (downloadRoute req) /\
  keeps grows (editRoute req) /\
  keeps grows (deleteRoute req) /\
  keeps grows (logsDownloadRoute req) /\
  keeps grows (removeMemberRoute req) /\
  keeps grows (panicHandler req).
Proof.
  repeat split; unfoldRoutes; frameWith grows_refl grows_trans.
Qed.

(** X12: uploading and reading never rewrite history: whatever the
    request, the upload, content, download and logs download routes leave
    every project as it was and every stored environment file in place,
    unchanged and in order; an upload can only add rows at the end. *)
Theorem reading_and_uploading_keep_history (req : Request) :
  keeps keepsHistory (uploadRoute req) /\
  keeps keepsHistory (contentRoute req) /\
  keeps keepsHistory (downloadRoute req) /\
  keeps keepsHistory (logsDownloadRoute req).
Proof.
  repeat split; unfoldRoutes;
    frameWith keepsHistory_refl keepsHistory_trans.
Qed.

(** ** routes/env.ts: what is served, and how the routes compose *)

Lemma requireProjectAccess_transfer (required : Permission) (req : Request)
    (w w1 : World) (g : Guard) :
  Projects w1 = Projects w ->
  requireProjectAccess required req w = (Ok g, w) ->
  requireProjectAccess required req w1 = (Ok g, w1).
Proof.
  intros Hp Hg.
  pose proof (requireProjectAccess_reads required req w1 w Hp) as Hf.
  pose proof (requireProjectAccess_world required req w1) as Hw.
  rewrite Hg in Hf.
  destruct (requireProjectAccess required req w1) as [o w0].
  simpl in Hf, Hw. subst. reflexivity.
Qed.

(** What the download route does when the row asked for is there and holds
    the encryption of [data]. *)
Lemma downloadRoute_run
    (dl : Request) (w : World) (p : IProject) (u : ObjectId) (s : string)
    (env : Environment) (f : IEnvFile) (nonce : Buffer) (data : JSString) :
  requireProjectAccess read dl w = (Ok (Next p), w) ->
  user dl = Some u ->
  query_environment dl = Some s ->
  parseEnvironment s = Some env ->
  match query_version dl with Some v => 1 <= v <= 10000 | None => True end ->
  requested dl env w = Some f ->
  validMasterKey w ->
  holds f (masterKeyOf w) nonce data ->
  let w1 := setTrace (trace w ++ [EvEnvFileFind; EvCreateDecipheriv nonce]) w in
  downloadRoute dl w =
    (Ok {| status := 200; body := SendEnv (utf8Decode (utf8Encode data)) |},
     match auditWrites (castObjectId (params_projectId dl)) u download s
             (Some downloadMetadata) (Some (envFile_id f)) (Some (version f)) w1
     with
     | Some entry => logged download (Some downloadMetadata) entry w1
     | None => attempted download (Some downloadMetadata) w1
     end).
Proof.
  intros Hg Hu Hqe Hparse Hv Hreq Hk Hholds w1.
  unfold downloadRoute, downloadRouteWith, guarded, bind. rewrite Hg.
  unfold downloadHandlerWith, tryCatch, bind.
  rewrite Hqe, Hu. cbv beta iota. rewrite Hparse. cbv beta iota.
  unfold requested in Hreq.
  set (w0 := setTrace (trace w ++ [EvEnvFileFind]) w).
  assert (Hk0 : validMasterKey w0) by exact Hk.
  assert (Hd := decryptEnv_holds f nonce data w0 Hk0 Hholds).
  assert (Ew : setTrace (trace w0 ++ [EvCreateDecipheriv nonce]) w0 = w1).
  { unfold w1, w0. simpl. rewrite <- app_assoc. reflexivity. }
  rewrite Ew in Hd.
  destruct (query_version dl) as [v|].
  - assert (Hrange : (1 <=? v) && (v <=? 10000) = true).
    { apply andb_true_iff. split; apply Z.leb_le; lia. }
    rewrite Hrange. cbv beta iota. cbn [negb andb].
    unfold EnvFile_findOne, bind, emit, modify, gets. cbn [fst snd].
    change (EnvFiles (setTrace (trace w ++ [EvEnvFileFind]) w))
      with (EnvFiles w).
    rewrite Hreq. fold w0. rewrite Hd.
    rewrite logEnvAction_run. unfold respond, ret.
    destruct (auditWrites _ _ _ _ _ _ _ _); reflexivity.
  - cbn [negb andb].
    unfold EnvFile_findLatest, bind, emit, modify, gets. cbn [fst snd].
    change (EnvFiles (setTrace (trace w ++ [EvEnvFileFind]) w))
      with (EnvFiles w).
    change (fun r : IEnvFile => inProject (params_projectId dl) env r)
      with (inProject (params_projectId dl) env).
    rewrite Hreq. fold w0. rewrite Hd.
    rewrite logEnvAction_run. unfold respond, ret.
    destruct (auditWrites _ _ _ _ _ _ _ _); reflexivity.
Qed.

Lemma requested_row (dl : Request) (env : Environment) (w : World)
    (f : IEnvFile) :
  requested dl env w = Some f ->
  In f (EnvFiles w) /\
  projectId f = castObjectId (params_projectId dl) /\
  environment f = env /\
  match query_version dl with
  | Some v => version f = v
  | None =>
      forall r, In r (EnvFiles w) ->
                projectId r = castObjectId (params_projectId dl) ->
                environment r = env -> version r <= version f
  end.
Proof.
  unfold requested. destruct (query_version dl) as [v|]; intros H.
  - destruct (find_some _ _ H) as [Hin Hsel].
    apply andb_true_iff in Hsel. destruct Hsel as [Hp Hv].
    unfold inProject in Hp. apply andb_true_iff in Hp. destruct Hp as [Hp He].
    apply String.eqb_eq in Hp. apply Environment_eqb_eq in He.
    apply Z.eqb_eq in Hv. auto.
  - pose proof (latestOf_max
                  (filter (inProject (params_projectId dl) env) (EnvFiles w)))
      as Hmax.
    rewrite H in Hmax. destruct Hmax as [Hin Hmax].
    apply filter_In in Hin. destruct Hin as [Hin Hp].
    unfold inProject in Hp. apply andb_true_iff in Hp. destruct Hp as [Hp He].
    apply String.eqb_eq in Hp. apply Environment_eqb_eq in He.
    repeat split; auto.
    intros r Hr Hrp Hre. apply Hmax. apply filter_In. split; [exact Hr|].
    unfold inProject. rewrite Hrp, Hre, String.eqb_refl, Environment_eqb_refl.
    reflexivity.
Qed.

(** X13: a download by a user with read access serves one stored row of
    the project and environment asked for: the row of the requested
    version, or, when no version is asked for, a row of the greatest
    version.  The response is the decrypted text of that row with status
    200, the rows are left as they were, and the audit logger is called
    with action [download] after the decryption; the entry it writes names
    the row and the version served. *)
Theorem download_serves_and_records
    (dl : Request) (w : World) (p : IProject) (u : ObjectId) (s : string)
    (env : Environment) (f : IEnvFile) (nonce : Buffer) (data : JSString) :
  requireProjectAccess read dl w = (Ok (Next p), w) ->
  user dl = Some u ->
  query_environment dl = Some s ->
  parseEnvironment s = Some env ->
  match query_version dl with Some v => 1 <= v <= 10000 | None => True end ->
  requested dl env w = Some f ->
  validMasterKey w ->
  holds f (masterKeyOf w) nonce data ->
  exists w' audit,
    downloadRoute dl w =
      (Ok {| status := 200; body := SendEnv (utf8Decode (utf8Encode data)) |},
       w') /\
    In f (EnvFiles w) /\
    projectId f = castObjectId (params_projectId dl) /\
    environment f = env /\
    match query_version dl with
    | Some v => version f = v
    | None =>
        forall r, In r (EnvFiles w) ->
                  projectId r = castObjectId (params_projectId dl) ->
                  environment r = env -> version r <= version f
    end /\
    EnvFiles w' = EnvFiles w /\
    trace w' =
      trace w ++ [EvEnvFileFind; EvCreateDecipheriv nonce;
                  EvLogEnvAction download downloadMetadata] ++ audit /\
    ((audit = [] /\ EnvLogs w' = EnvLogs w) \/
     (exists entry,
         audit = [EvEnvLogCreate entry] /\
         EnvLogs w' = EnvLogs w ++ [entry] /\
         log_action entry = download /\
         performedBy entry = u /\
         log_envFileId entry = Some (envFile_id f) /\
         log_version entry = Some (version f))).
Proof.
  intros Hg Hu Hqe Hparse Hv Hreq Hk Hholds.
  pose proof (downloadRoute_run dl w p u s env f nonce data
                Hg Hu Hqe Hparse Hv Hreq Hk Hholds) as Hrun.
  cbv zeta in Hrun.
  destruct (requested_row dl env w f Hreq) as (Hin & Hp & He & Hver).
  destruct (auditWrites _ _ _ _ _ _ _ _) as [entry|] eqn:Ha.
  - eexists. exists [EvEnvLogCreate entry]. split; [exact Hrun|].
    repeat (split; [assumption|]).
    split; [reflexivity|].
    split; [simpl; rewrite <- app_assoc; reflexivity|].
    right. exists entry.
    destruct (auditWrites_action _ _ _ _ _ _ _ _ _ Ha)
      as (H1 & _ & _ & H4 & H5 & H6).
    auto 8.
  - eexists. exists []. split; [exact Hrun|].
    repeat (split; [assumption|]).
    split; [reflexivity|].
    split; [simpl; rewrite <- app_assoc; reflexivity|].
    left. split; reflexivity.
Qed.





Lemma requireProjectAccess_outcomes (required : Permission) (req : Request)
    (w : World) :
  (exists p, requireProjectAccess required req w = (Ok (Next p), w)) \/
  (exists code msg,
      requireProjectAccess required req w =
        (Ok (Answered {| status := code; body := JsonError msg |}), w) /\
      400 <= code).
Proof.
  unfold requireProjectAccess, Project_findById. run.
  destruct (user req);
    [|right; eexists; eexists; split; [reflexivity | lia]].
  destruct (String.eqb _ "");
    [right; eexists; eexists; split; [reflexivity | lia]|].
  destruct (isValidObjectId _);
    [|right; eexists; eexists; split; [reflexivity | lia]].
  simpl.
  destruct (find _ _) as [p|];
    [|right; eexists; eexists; split; [reflexivity | lia]].
  destruct (isProjectOwner _ p); [left; eexists; reflexivity|].
  destruct (findMember _ p);
    [|right; eexists; eexists; split; [reflexivity | lia]].
  destruct (negb _);
    [right; eexists; eexists; split; [reflexivity | lia]|].
  left; eexists; reflexivity.
Qed.

Lemma export_events_are_no_log_calls (evs : list Event) :
  forallb isExportEvent evs = true -> filter isLogCall evs = [].
Proof.
  induction evs as [|e t IH]; simpl; [reflexivity|].
  intros H. apply andb_true_iff in H. destruct H as [He Ht].
  destruct e; try discriminate; simpl; apply IH; exact Ht.
Qed.

(** X15: whatever the request, the download route answers (it never
    throws) and never changes the rows or the projects, and it records
    exactly what it serves: either the answer is a plaintext with status
    200 and the audit logger was called once, with action [download], or
    the answer is an error of status 400 or more, the logger was not called
    and the audit collection is as before. *)
Theorem download_records_what_it_serves (req : Request) (w : World) :
  exists res w' evs,
    downloadRoute req w = (Ok res, w') /\
    trace w' = trace w ++ evs /\
    EnvFiles w' = EnvFiles w /\
    Projects w' = Projects w /\
    ((exists data, res = {| status := 200; body := SendEnv data |} /\
        filter isLogCall evs = [EvLogEnvAction download downloadMetadata]) \/
     (400 <= status res /\ filter isLogCall evs = [] /\
      EnvLogs w' = EnvLogs w)).
Proof.
  assert (Hquiet : forall res w1 evs,
    400 <= status res -> forallb isExportEvent evs = true ->
    w1 = setTrace (trace w ++ evs) w ->
    downloadRoute req w = (Ok res, w1) ->
    exists res w' evs,
      downloadRoute req w = (Ok res, w') /\
      trace w' = trace w ++ evs /\
      EnvFiles w' = EnvFiles w /\
      Projects w' = Projects w /\
      ((exists data, res = {| status := 200; body := SendEnv data |} /\
          filter isLogCall evs = [EvLogEnvAction download downloadMetadata]) \/
       (400 <= status res /\ filter isLogCall evs = [] /\
        EnvLogs w' = EnvLogs w))).
  { intros res w1 evs Hst Hall -> Hrun. exists res. eexists. exists evs.
    split; [exact Hrun|]. repeat (split; [reflexivity|]).
    right. split; [exact Hst|]. split; [|reflexivity].
    apply export_events_are_no_log_calls. exact Hall. }
  destruct (requireProjectAccess_outcomes read req w)
    as [(p & Hg)|(code & msg & Hg & Hcode)].
  2:{ apply (Hquiet {| status := code; body := JsonError msg |} w []);
        [exact Hcode | reflexivity
         | rewrite app_nil_r, setTrace_same; reflexivity |].
      unfold downloadRoute, downloadRouteWith, guarded, bind. rewrite Hg.
      reflexivity. }
  unfold downloadRoute, downloadRouteWith, guarded, bind in Hquiet |- *.
  rewrite Hg in Hquiet |- *.
  unfold downloadHandlerWith, tryCatch, bind in Hquiet |- *.
  match goal with
  | |- context [if negb ?b then _ else _] => destruct b
  end; cbn [negb] in Hquiet |- *.
  2:{ apply (Hquiet {| status := 400; body := JsonValidationErrors |} w []);
        [simpl; lia | reflexivity
         | rewrite app_nil_r, setTrace_same; reflexivity | reflexivity]. }
  set (w0 := setTrace (trace w ++ [EvEnvFileFind]) w) in *.
  assert (Hfound : forall f,
    exists res w' evs,
      (let (o, w') :=
         (let (o, w') :=
            decryptEnv (encryptedData f) (iv f) (authTag f) w0 in
          match o with
          | Ok a =>
              match user req with
              | Some userId =>
                  logEnvAction (castObjectId (params_projectId req)) userId
                    download
                    match query_environment req with
                    | Some s => s
                    | None => ""%string
                    end
                    (Some downloadMetadata) (Some (envFile_id f))
                    (Some (version f)) ;;;
                  respond 200 (SendEnv a)
              | None => respond 401 (JsonError "Not authenticated")
              end w'
          | Throw e => (Throw e, w')
          end) in
       match o with
       | Ok a => (Ok a, w')
       | Throw _ =>
           respond 500 (JsonError "Failed to download environment file") w'
       end) = (Ok res, w') /\
      trace w' = trace w ++ evs /\
      EnvFiles w' = EnvFiles w /\
      Projects w' = Projects w /\
      ((exists data, res = {| status := 200; body := SendEnv data |} /\
          filter isLogCall evs = [EvLogEnvAction download downloadMetadata]) \/
       (400 <= status res /\ filter isLogCall evs = [] /\
        EnvLogs w' = EnvLogs w))).
  { intros f.
    pose proof (decryptEnv_extends (encryptedData f) (iv f) (authTag f) w0)
      as Hd.
    destruct (decryptEnv (encryptedData f) (iv f) (authTag f) w0)
      as [[plaintext|e] w2]; simpl in Hd;
      destruct Hd as (evs & -> & Hall).
    - destruct (user req) as [u|].
      + unfold bind. rewrite logEnvAction_run. unfold respond, ret.
        assert (Hlog : filter isLogCall
                         ([EvEnvFileFind] ++ evs
                            ++ [EvLogEnvAction download downloadMetadata])
                       = [EvLogEnvAction download downloadMetadata]).
        { simpl. rewrite filter_app.
          rewrite (export_events_are_no_log_calls evs Hall). reflexivity. }
        destruct (auditWrites _ _ _ _ _ _ _ _) as [entry|].
        * eexists. eexists.
          exists ([EvEnvFileFind] ++ evs
                    ++ [EvLogEnvAction download downloadMetadata]
                    ++ [EvEnvLogCreate entry]).
          split; [reflexivity|].
          split; [simpl; repeat rewrite <- app_assoc; reflexivity|].
          split; [reflexivity|]. split; [reflexivity|].
          left. eexists. split; [reflexivity|].
          rewrite !app_assoc, filter_app, <- !app_assoc, Hlog. reflexivity.
        * eexists. eexists.
          exists ([EvEnvFileFind] ++ evs
                    ++ [EvLogEnvAction download downloadMetadata]).
          split; [reflexivity|].
          split; [simpl; repeat rewrite <- app_assoc; reflexivity|].
          split; [reflexivity|]. split; [reflexivity|].
          left. eexists. split; [reflexivity | exact Hlog].
      + eexists. eexists. exists ([EvEnvFileFind] ++ evs).
        split; [reflexivity|].
        split; [simpl; repeat rewrite <- app_assoc; reflexivity|].
        split; [reflexivity|]. split; [reflexivity|].
        right. split; [simpl; lia|]. split; [|reflexivity].
        simpl. apply export_events_are_no_log_calls. exact Hall.
    - eexists. eexists. exists ([EvEnvFileFind] ++ evs).
      split; [reflexivity|].
      split; [simpl; repeat rewrite <- app_assoc; reflexivity|].
      split; [reflexivity|]. split; [reflexivity|].
      right. split; [simpl; lia|]. split; [|reflexivity].
      simpl. apply export_events_are_no_log_calls. exact Hall. }
  destruct (query_version req) as [v|].
  - unfold EnvFile_findOne, bind, emit, modify, gets in Hquiet |- *.
    cbn [fst snd] in Hquiet |- *. fold w0 in Hquiet |- *.
    destruct (find _ (EnvFiles w0)) as [f|].
    + apply Hfound.
    + apply (Hquiet
               {| status := 404;
                  body := JsonError "Environment file not found" |}
               w0 [EvEnvFileFind]);
        [simpl; lia | reflexivity | reflexivity | reflexivity].
  - unfold EnvFile_findLatest, bind, emit, modify, gets in Hquiet |- *.
    cbn [fst snd] in Hquiet |- *. fold w0 in Hquiet |- *.
    destruct (latestOf _) as [f|].
    + apply Hfound.
    + apply (Hquiet
               {| status := 404;
                  body := JsonError "Environment file not found" |}
               w0 [EvEnvFileFind]);
        [simpl; lia | reflexivity | reflexivity | reflexivity].
Qed.


Lemma contentRoute_missing (req : Request) (w : World) (p : IProject) :
  requireProjectAccess read req w = (Ok (Next p), w) ->
  isValidObjectId (params_projectId req) = true ->
  isValidObjectId (params_envFileId req) = true ->
  find (byIdInProject (params_envFileId req) (params_projectId req))
       (EnvFiles w) = None ->
  fst (contentRoute req w)
    = Ok {| status := 404; body := JsonError "Environment file not found" |}.
Proof.
  intros Hg Hpid Hfid Hfind.
  unfold contentRoute, guarded, bind. rewrite Hg.
  unfold contentHandler, tryCatch, bind. rewrite Hpid, Hfid. simpl.
  unfold EnvFile_findOne, bind, emit, modify, gets. simpl. rewrite Hfind.
  reflexivity.
Qed.


Lemma find_after_remove {A} (key : A -> string) (P : A -> bool)
    (l : list A) (x : A) :
  NoDup (map key l) ->
  (forall r, P r = true -> key r = key x) ->
  find P (removeFirst (fun r => String.eqb (key r) (key x)) l) = None.
Proof.
  intros Hnd HP. induction l as [|y t IH]; [reflexivity|].
  simpl in Hnd. inversion Hnd as [|? ? Hnotin Hnd']; subst.
  simpl. destruct (String.eqb_spec (key y) (key x)) as [E|E].
  - destruct (find P t) as [r|] eqn:Hf; [|reflexivity].
    destruct (find_some _ _ Hf) as [Hr HPr].
    exfalso. apply Hnotin. rewrite E, <- (HP r HPr). apply in_map. exact Hr.
  - simpl. destruct (P y) eqn:Hy; [exfalso; apply E, HP, Hy|].
    apply IH. exact Hnd'.
Qed.

Lemma removeFirst_keeps_others {A} (sel : A -> bool) (l : list A) (r : A) :
  In r l -> sel r = false -> In r (removeFirst sel l).
Proof.
  induction l as [|y t IH]; [contradiction|].
  intros [->|Hin] Hsel; simpl.
  - rewrite Hsel. left. reflexivity.
  - destruct (sel y); [exact Hin|]. right. apply IH; assumption.
Qed.



(** X17: after the owner has deleted a row, the content route answers 404
    for it, the row is no longer stored, and every other row still is. *)
Theorem delete_then_gone
    (req rd : Request) (w : World) (p p' : IProject) (f : IEnvFile)
    (u : ObjectId) :
  requireProjectOwnership req w = (Ok (Next p), w) ->
  user req = Some u ->
  isValidObjectId (params_projectId req) = true ->
  isValidObjectId (params_envFileId req) = true ->
  find (byIdInProject (params_envFileId req) (params_projectId req))
       (EnvFiles w) = Some f ->
  NoDup (map envFile_id (EnvFiles w)) ->
  params_projectId rd = params_projectId req ->
  params_envFileId rd = params_envFileId req ->
  requireProjectAccess read rd w = (Ok (Next p'), w) ->
  exists w1,
    deleteRoute req w =
      (Ok {| status := 200;
             body := JsonMessage "Environment file deleted successfully" |},
       w1) /\
    fst (contentRoute rd w1)
      = Ok {| status := 404; body := JsonError "Environment file not found" |} /\
    (forall r, In r (EnvFiles w1) -> envFile_id r <> envFile_id f) /\
    (forall r, In r (EnvFiles w) -> envFile_id r <> envFile_id f ->
               In r (EnvFiles w1)).
Proof.
  intros Hg Hu Hpid Hfid Hfind Hnd Hrp Hrf Hrg.
  pose proof (deleteRoute_found req w p f u Hg Hu Hpid Hfid Hfind) as Hrun.
  destruct (find_some _ _ Hfind) as [Hin Hsel].
  unfold byIdInProject in Hsel. apply andb_true_iff in Hsel.
  destruct Hsel as [Hid _]. apply String.eqb_eq in Hid.
  assert (Hw1 : exists w1,
    deleteRoute req w =
      (Ok {| status := 200;
             body := JsonMessage "Environment file deleted successfully" |},
       w1) /\
    EnvFiles w1 =
      removeFirst (fun r => String.eqb (envFile_id r) (envFile_id f))
                  (EnvFiles w) /\
    Projects w1 = Projects w).
  { rewrite Hrun, Hid. unfold EnvFile_findByIdAndDelete. run.
    destruct (auditWrites _ _ _ _ _ _ _ _); eexists;
      (split; [reflexivity|]); split; reflexivity. }
  destruct Hw1 as (w1 & Hdel & Hfiles & Hproj).
  exists w1. split; [exact Hdel|]. split; [|split].
  - apply (contentRoute_missing rd w1 p').
    + apply (requireProjectAccess_transfer read rd w w1 _ Hproj Hrg).
    + rewrite Hrp. exact Hpid.
    + rewrite Hrf. exact Hfid.
    + rewrite Hrp, Hrf, Hfiles.
      apply (find_after_remove envFile_id); [exact Hnd|].
      intros r Hr. unfold byIdInProject in Hr. apply andb_true_iff in Hr.
      destruct Hr as [Hr _]. apply String.eqb_eq in Hr. congruence.
  - intros r Hr Heq. rewrite Hfiles in Hr.
    assert (Hnone :
      find (fun y => String.eqb (envFile_id y) (envFile_id f))
           (removeFirst (fun y => String.eqb (envFile_id y) (envFile_id f))
                        (EnvFiles w)) = None).
    { apply (find_after_remove envFile_id); [exact Hnd|].
      intros y Hy. apply String.eqb_eq. exact Hy. }
    apply (find_none _ _ Hnone) in Hr. rewrite Heq, String.eqb_refl in Hr.
    discriminate.
  - intros r Hr Hne. rewrite Hfiles. apply removeFirst_keeps_others; [exact Hr|].
    apply String.eqb_neq. exact Hne.
Qed.



(** ** routes/projects.ts: members come and go *)












(** X22: the project list shows a user exactly what the read guard opens
    to them: with distinct, canonical project identifiers in the store, a
    stored project is in the list the route returns if and only if the
    read guard lets the user's request for that project through. *)
Theorem listing_is_what_the_read_guard_opens
    (req : Request) (w : World) (u : ObjectId) :
  user req = Some u ->
  NoDup (map project_id (Projects w)) ->
  (forall p, In p (Projects w) ->
             isValidObjectId (project_id p) = true /\
             castObjectId (project_id p) = project_id p) ->
  exists ps,
    listProjectsRoute req w =
      (Ok {| list_status := 200; list_body := ListingProjects ps |}, w) /\
    forall p,
      In p ps <->
      In p (Projects w) /\
      requireProjectAccess read (requestFor u (project_id p)) w
        = (Ok (Next p), w).
Proof.
  intros Hu Hnd Hids.
  unfold listProjectsRoute, tryCatch, Project_find_mine, bind, gets, ret.
  rewrite Hu. eexists. split; [reflexivity|].
  intros p. rewrite <- in_rev, filter_In.
  assert (Hguard : In p (Projects w) ->
    requireProjectAccess read (requestFor u (project_id p)) w =
      (if isProjectOwner u p then ret (Next p)
       else match findMember u p with
            | None =>
                answer 403
                  "Access denied: You do not have access to this project"
            | Some member => ret (Next p)
            end) w).
  { intros Hin. destruct (Hids p Hin) as [Hv Hc].
    rewrite (requireProjectAccess_found read (requestFor u (project_id p)) w
               u p eq_refl).
    - destruct (isProjectOwner u p); [reflexivity|].
      destruct (findMember u p) as [m|]; [|reflexivity].
      destruct (member_permission m); reflexivity.
    - exact Hv.
    - change (find (fun q => String.eqb (project_id q)
                               (castObjectId (project_id p)))
                   (Projects w) = Some p).
      rewrite Hc. apply (find_by_key project_id); auto. }
  split.
  - intros [Hin Hsel]. split; [exact Hin|]. rewrite (Hguard Hin).
    unfold isProjectOwner. apply orb_true_iff in Hsel.
    destruct Hsel as [Ho|Hm]; [rewrite Ho; reflexivity|].
    destruct (String.eqb (createdBy p) u); [reflexivity|].
    unfold findMember.
    destruct (find _ (members p)) as [m|] eqn:Hf; [reflexivity|].
    apply existsb_exists in Hm. destruct Hm as (m & Hin' & Hm).
    rewrite (find_none _ _ Hf m Hin') in Hm. discriminate.
  - intros [Hin Hpass]. split; [exact Hin|]. rewrite (Hguard Hin) in Hpass.
    unfold isProjectOwner in Hpass.
    destruct (String.eqb (createdBy p) u); [reflexivity|]. simpl.
    unfold findMember in Hpass.
    destruct (find _ (members p)) as [m|] eqn:Hf; [|discriminate].
    apply existsb_exists. exists m. apply (find_some _ _ Hf).
Qed.

(** ** routes/settings.ts: the panic route, sub-action by sub-action *)

(** The three sub-actions of a configured panic, in order. *)
Lemma panicHandler_steps (req : Request) (w : World) (u : ObjectId)
    (s : IUserSettings) :
  user req = Some u ->
  find (fun s => String.eqb (settings_userId s) u) (UserSettings w) = Some s ->
  flushEnvs (panicButton s) || revokeCollaborators (panicButton s)
    || downloadEnvs (panicButton s) = true ->
  exists dl w1 fl w2 rv w3,
    (if downloadEnvs (panicButton s) then downloadStep (ownedBy u w)
     else ret (false, None)) w = (Ok dl, w1) /\
    (if flushEnvs (panicButton s) then flushStep (ownedBy u w)
     else ret (false, None)) w1 = (Ok fl, w2) /\
    (if revokeCollaborators (panicButton s) then revokeStep (ownedBy u w)
     else ret false) w2 = (Ok rv, w3) /\
    panicHandler req w =
      (Ok {| status := 200;
             body := JsonPanic
                       {| result_downloadEnvs := fst dl;
                          result_downloadContent := snd dl;
                          result_flushEnvs := fst fl;
                          result_flushedCount := snd fl;
                          result_revokeCollaborators := rv |} |},
       w3).
Proof.
  intros Hu Hs Hsome.
  unfold panicHandler, tryCatch, bind. rewrite Hu.
  unfold UserSettings_findOne, Project_find_createdBy, gets. rewrite Hs.
  assert (Hnone : negb (flushEnvs (panicButton s))
                  && negb (revokeCollaborators (panicButton s))
                  && negb (downloadEnvs (panicButton s)) = false).
  { destruct (flushEnvs _), (revokeCollaborators _), (downloadEnvs _);
      try reflexivity; discriminate. }
  rewrite Hnone. cbv beta. fold (ownedBy u w).
  assert (Hdl : exists dl w1,
    (if downloadEnvs (panicButton s) then downloadStep (ownedBy u w)
     else ret (false, None)) w = (Ok dl, w1)).
  { destruct (downloadEnvs (panicButton s)).
    - destruct (downloadStep_run (ownedBy u w) w) as (es & w1 & Hd & _).
      eexists. eexists. exact Hd.
    - eexists. eexists. reflexivity. }
  destruct Hdl as (dl & w1 & Hd). rewrite Hd.
  assert (Hfl : exists fl w2,
    (if flushEnvs (panicButton s) then flushStep (ownedBy u w)
     else ret (false, None)) w1 = (Ok fl, w2)).
  { destruct (flushEnvs (panicButton s)).
    - destruct (flushStep_run (ownedBy u w) w1) as (n & Hf).
      eexists. eexists. exact Hf.
    - eexists. eexists. reflexivity. }
  destruct Hfl as (fl & w2 & Hf). rewrite Hf.
  assert (Hrv : exists rv w3,
    (if revokeCollaborators (panicButton s) then revokeStep (ownedBy u w)
     else ret false) w2 = (Ok rv, w3)).
  { destruct (revokeCollaborators (panicButton s)).
    - destruct (revokeStep_run (ownedBy u w) w2) as (w3 & Hr & _).
      eexists. eexists. exact Hr.
    - eexists. eexists. reflexivity. }
  destruct Hrv as (rv & w3 & Hr). rewrite Hr.
  exists dl, w1, fl, w2, rv, w3.
  repeat split; first [reflexivity | assumption].
Qed.

(** X23: a panic does only what is enabled.  Without settings, or with
    settings in which no action is enabled, the route answers 400 and
    leaves the world as it was; with settings, the environment files are
    left as they were unless the flush is enabled, and the projects are
    left as they were unless the revocation is enabled. *)
Theorem panic_does_only_what_is_enabled
    (req : Request) (w : World) (u : ObjectId) :
  user req = Some u ->
  let settings :=
    find (fun s => String.eqb (settings_userId s) u) (UserSettings w) in
  (settings = None ->
   panicHandler req w =
     (Ok {| status := 400; body := JsonError "Panic button not configured" |},
      w)) /\
  (forall s, settings = Some s ->
     flushEnvs (panicButton s) = false ->
     revokeCollaborators (panicButton s) = false ->
     downloadEnvs (panicButton s) = false ->
     panicHandler req w =
       (Ok {| status := 400; body := JsonError "No panic actions configured" |},
        w)) /\
  (forall s, settings = Some s ->
     (flushEnvs (panicButton s) = false ->
      EnvFiles (snd (panicHandler req w)) = EnvFiles w) /\
     (revokeCollaborators (panicButton s) = false ->
      Projects (snd (panicHandler req w)) = Projects w)).
Proof.
  intros Hu settings. subst settings. split; [|split].
  - intros Hs. unfold panicHandler, tryCatch, bind. rewrite Hu.
    unfold UserSettings_findOne, gets. rewrite Hs. reflexivity.
  - intros s Hs H1 H2 H3. unfold panicHandler, tryCatch, bind. rewrite Hu.
    unfold UserSettings_findOne, gets. rewrite Hs, H1, H2, H3. reflexivity.
  - intros s Hs.
    destruct (flushEnvs (panicButton s) || revokeCollaborators (panicButton s)
              || downloadEnvs (panicButton s)) eqn:Hsome.
    + destruct (panicHandler_steps req w u s Hu Hs Hsome)
        as (dl & w1 & fl & w2 & rv & w3 & Hd & Hf & Hr & Hrun).
      rewrite Hrun. simpl.
      assert (H1 : EnvFiles w1 = EnvFiles w /\ Projects w1 = Projects w).
      { destruct (downloadEnvs (panicButton s)).
        - destruct (downloadStep_run (ownedBy u w) w)
            as (es & w1' & Hd' & _ & (evs & -> & _)).
          rewrite Hd' in Hd. injection Hd as _ <-. split; reflexivity.
        - injection Hd as _ <-. split; reflexivity. }
      assert (H2 : Projects w2 = Projects w1 /\
                   (flushEnvs (panicButton s) = false ->
                    EnvFiles w2 = EnvFiles w1)).
      { destruct (flushEnvs (panicButton s)).
        - destruct (flushStep_run (ownedBy u w) w1) as (n & Hf').
          rewrite Hf' in Hf. injection Hf as _ <-.
          split; [reflexivity | discriminate].
        - injection Hf as _ <-. split; reflexivity. }
      assert (H3 : EnvFiles w3 = EnvFiles w2 /\
                   (revokeCollaborators (panicButton s) = false ->
                    Projects w3 = Projects w2)).
      { destruct (revokeCollaborators (panicButton s)).
        - destruct (revokeStep_run (ownedBy u w) w2)
            as (w3' & Hr' & (ps & evs & -> & _)).
          rewrite Hr' in Hr. injection Hr as _ <-.
          split; [reflexivity | discriminate].
        - injection Hr as _ <-. split; reflexivity. }
      destruct H1 as [E1 P1], H2 as [P2 E2], H3 as [E3 P3]. split.
      * intros Hoff. rewrite E3, (E2 Hoff). exact E1.
      * intros Hoff. rewrite (P3 Hoff), P2. exact P1.
    + apply orb_false_iff in Hsome. destruct Hsome as [Hsome H3].
      apply orb_false_iff in Hsome. destruct Hsome as [H1 H2].
      unfold panicHandler, tryCatch, bind. rewrite Hu.
      unfold UserSettings_findOne, gets. rewrite Hs, H1, H2, H3.
      split; reflexivity.
Qed.

Lemma same_key_same_element {A} (key : A -> string) (l : list A) (x y : A) :
  NoDup (map key l) -> In x l -> In y l -> key x = key y -> x = y.
Proof.
  induction l as [|z t IH]; [contradiction|].
  simpl. intros Hnd Hx Hy E. inversion Hnd as [|? ? Hz Hnd']; subst.
  destruct Hx as [->|Hx], Hy as [->|Hy].
  - reflexivity.
  - exfalso. apply Hz. rewrite E. apply in_map. exact Hy.
  - exfalso. apply Hz. rewrite <- E. apply in_map. exact Hx.
  - apply IH; assumption.
Qed.

Lemma replaceFirst_unique {A} (key : A -> string) (l : list A) (x x' : A) :
  NoDup (map key l) ->
  replaceFirst (fun q => String.eqb (key q) (key x)) x' l
  = map (fun q => if String.eqb (key q) (key x) then x' else q) l.
Proof.
  induction l as [|y t IH]; [reflexivity|].
  simpl. intros Hnd. inversion Hnd as [|? ? Hy Hnd']; subst.
  destruct (String.eqb_spec (key y) (key x)) as [E|E].
  - f_equal. rewrite <- (map_id t) at 1. apply map_ext_in.
    intros q Hq. destruct (String.eqb_spec (key q) (key x)) as [E'|];
      [|reflexivity].
    exfalso. apply Hy. rewrite E, <- E'. apply in_map. exact Hq.
  - f_equal. apply IH. exact Hnd'.
Qed.

Lemma NoDup_map_filter {A} (key : A -> string) (f : A -> bool) (l : list A) :
  NoDup (map key l) -> NoDup (map key (filter f l)).
Proof.
  induction l as [|x t IH]; simpl; intros Hnd; [constructor|].
  inversion Hnd as [|? ? Hx Hnd']; subst.
  destruct (f x); simpl; [|apply IH; exact Hnd'].
  constructor; [|apply IH; exact Hnd'].
  intros Hin. apply Hx. apply in_map_iff in Hin.
  destruct Hin as (y & Hy & Hin). apply filter_In in Hin.
  rewrite <- Hy. apply in_map. apply Hin.
Qed.

(** Revoking the projects of [todo] one after the other empties the member
    list of exactly these projects. *)
Lemma fold_revokeOne (todo : list IProject) :
  forall cur,
    NoDup (map project_id cur) ->
    NoDup (map project_id todo) ->
    (forall p, In p todo -> In p cur) ->
    fold_left revokeOne todo cur
    = map (fun q =>
             if existsb (fun p => String.eqb (project_id q) (project_id p)) todo
             then withMembers q [] else q)
          cur.
Proof.
  induction todo as [|p t IH]; intros cur Hcur Htodo Hin.
  - simpl. symmetry. apply map_id.
  - simpl. unfold revokeOne at 2.
    rewrite (replaceFirst_unique project_id cur p (withMembers p []) Hcur).
    set (h := fun q => if String.eqb (project_id q) (project_id p)
                       then withMembers p [] else q).
    assert (Hids : map project_id (map h cur) = map project_id cur).
    { rewrite map_map. apply map_ext. intros q. unfold h.
      destruct (String.eqb_spec (project_id q) (project_id p)) as [E|];
        [simpl; symmetry; exact E | reflexivity]. }
    inversion Htodo as [|? ? Hp Ht]; subst.
    rewrite IH.
    + rewrite map_map. apply map_ext_in. intros q Hq. unfold h.
      destruct (String.eqb_spec (project_id q) (project_id p)) as [E|E].
      * assert (q = p).
        { apply (same_key_same_element project_id cur); auto.
          apply Hin. left. reflexivity. }
        subst q. simpl. destruct (existsb _ t); reflexivity.
      * simpl. reflexivity.
    + rewrite Hids. exact Hcur.
    + exact Ht.
    + intros p' Hp'.
      assert (Hne : project_id p' <> project_id p).
      { intros E. apply Hp. rewrite <- E. apply in_map. exact Hp'. }
      replace p' with (h p').
      * apply in_map. apply Hin. right. exact Hp'.
      * unfold h. destruct (String.eqb_spec (project_id p') (project_id p));
          [contradiction | reflexivity].
Qed.

Lemma forEach_save_projects (projects : list IProject) :
  forall w,
    exists evs,
      forEach projects (fun p => Project_save (withMembers p [])) w
      = (Ok tt,
         setTrace (trace w ++ evs)
           (setProjects (fold_left revokeOne projects (Projects w)) w)).
Proof.
  induction projects as [|p t IH]; intros w.
  - exists []. simpl. unfold ret.
    rewrite app_nil_r, setProjects_same, setTrace_same. reflexivity.
  - simpl. unfold bind at 1.
    assert (Hsave : Project_save (withMembers p []) w =
      (Ok tt,
       setTrace (trace w ++ [EvProjectSave (project_id p)])
         (setProjects (revokeOne (Projects w) p) w)))
      by reflexivity.
    rewrite Hsave.
    match type of Hsave with
    | _ = (_, ?w1) => destruct (IH w1) as (evs & Hrun)
    end.
    rewrite Hrun. exists (EvProjectSave (project_id p) :: evs).
    simpl. rewrite <- app_assoc. reflexivity.
Qed.

(** X24: a panic with the revocation enabled empties the member list of
    every project the user created and of no other: with distinct project
    identifiers, the projects afterwards are the projects before, each in
    its place, those of the user without members and the others, in which
    the user may be a collaborator, unchanged. *)
Theorem panic_revokes_collaborators
    (req : Request) (w : World) (u : ObjectId) (s : IUserSettings) :
  user req = Some u ->
  find (fun s => String.eqb (settings_userId s) u) (UserSettings w) = Some s ->
  revokeCollaborators (panicButton s) = true ->
  NoDup (map project_id (Projects w)) ->
  exists results w',
    panicHandler req w
      = (Ok {| status := 200; body := JsonPanic results |}, w') /\
    result_revokeCollaborators results = true /\
    Projects w' = revoked u (Projects w) /\
    (forall p, In p (Projects w') -> createdBy p = u -> members p = []) /\
    (forall p, In p (Projects w) -> createdBy p <> u -> In p (Projects w')).
Proof.
  intros Hu Hs Hrev Hnd.
  assert (Hsome : flushEnvs (panicButton s) || revokeCollaborators (panicButton s)
                  || downloadEnvs (panicButton s) = true).
  { rewrite Hrev. destruct (flushEnvs _); reflexivity. }
  destruct (panicHandler_steps req w u s Hu Hs Hsome)
    as (dl & w1 & fl & w2 & rv & w3 & Hd & Hf & Hr & Hrun).
  assert (P1 : Projects w1 = Projects w).
  { destruct (downloadEnvs (panicButton s)).
    - destruct (downloadStep_run (ownedBy u w) w)
        as (es & w1' & Hd' & _ & (evs & -> & _)).
      rewrite Hd' in Hd. injection Hd as _ <-. reflexivity.
    - injection Hd as _ <-. reflexivity. }
  assert (P2 : Projects w2 = Projects w1).
  { destruct (flushEnvs (panicButton s)).
    - destruct (flushStep_run (ownedBy u w) w1) as (n & Hf').
      rewrite Hf' in Hf. injection Hf as _ <-. reflexivity.
    - injection Hf as _ <-. reflexivity. }
  rewrite Hrev in Hr. unfold revokeStep, tryCatch, bind in Hr.
  destruct (forEach_save_projects (ownedBy u w) w2) as (evs & Hsave).
  rewrite Hsave in Hr. injection Hr as <- <-.
  assert (P3 : fold_left revokeOne (ownedBy u w) (Projects w2)
               = revoked u (Projects w)).
  { rewrite P2, P1. unfold ownedBy.
    rewrite fold_revokeOne.
    - unfold revoked. apply map_ext_in. intros q Hq.
      destruct (String.eqb_spec (createdBy q) u) as [E|E].
      + replace (existsb _ _) with true; [reflexivity|].
        symmetry. apply existsb_exists. exists q.
        split; [|apply String.eqb_refl].
        apply filter_In. split; [exact Hq|]. rewrite E. apply String.eqb_refl.
      + replace (existsb _ _) with false; [reflexivity|].
        symmetry. apply not_true_is_false. intros Hex.
        apply existsb_exists in Hex. destruct Hex as (p & Hp & Hid).
        apply filter_In in Hp. destruct Hp as [Hp Hown].
        apply String.eqb_eq in Hid, Hown.
        assert (q = p)
          by (apply (same_key_same_element project_id (Projects w)); auto).
        subst p. contradiction.
    - exact Hnd.
    - apply NoDup_map_filter. exact Hnd.
    - intros p Hp. apply filter_In in Hp. apply Hp. }
  eexists. eexists. split; [exact Hrun|]. simpl.
  split; [reflexivity|]. split; [exact P3|]. rewrite P3. split.
  - intros p Hp Hown. unfold revoked in Hp. apply in_map_iff in Hp.
    destruct Hp as (q & Hq & Hin).
    destruct (String.eqb_spec (createdBy q) u) as [E|E]; subst p;
      [reflexivity | contradiction].
  - intros p Hp Hown. unfold revoked. apply in_map_iff. exists p.
    split; [|exact Hp].
    destruct (String.eqb_spec (createdBy p) u); [contradiction | reflexivity].
Qed.

(** *** The export *)

Lemma upsertLatest_keys (r : IEnvFile) (acc : list (Environment * IEnvFile))
    (env : Environment) :
  In env (map fst (upsertLatest r acc)) <->
  env = environment r \/ In env (map fst acc).
Proof.
  induction acc as [|[e cur] t IH]; simpl.
  - split; [intros [H|[]]; left; symmetry; exact H | intros [H|[]]; left; symmetry; exact H].
  - destruct (Environment_eqb e (environment r)) eqn:E.
    + apply Environment_eqb_eq in E.
      destruct (version cur <? version r); simpl; subst e;
        split; try tauto; intros [H|H]; auto.
    + simpl. rewrite IH. tauto.
Qed.

Lemma upsertLatest_NoDup (r : IEnvFile) (acc : list (Environment * IEnvFile)) :
  NoDup (map fst acc) -> NoDup (map fst (upsertLatest r acc)).
Proof.
  induction acc as [|[e cur] t IH]; simpl; intros Hnd.
  - constructor; [intros [] | constructor].
  - inversion Hnd as [|? ? He Hnd']; subst.
    destruct (Environment_eqb e (environment r)) eqn:E.
    + destruct (version cur <? version r); simpl; exact Hnd.
    + simpl. constructor; [|apply IH; exact Hnd'].
      intros Hin. apply upsertLatest_keys in Hin. destruct Hin as [Hin|Hin].
      * subst e. rewrite Environment_eqb_refl in E. discriminate.
      * contradiction.
Qed.

Lemma upsertLatest_entries (r : IEnvFile) (acc : list (Environment * IEnvFile))
    (env : Environment) (f : IEnvFile) :
  NoDup (map fst acc) ->
  In (env, f) (upsertLatest r acc) ->
  (In (env, f) acc /\ (env <> environment r \/ version r <= version f)) \/
  (f = r /\ env = environment r /\
   forall c, In (env, c) acc -> version c < version r).
Proof.
  induction acc as [|[e cur] t IH]; simpl; intros Hnd Hin.
  - destruct Hin as [[= <- <-]|[]]. right. repeat split. intros c [].
  - inversion Hnd as [|? ? He Hnd']; subst.
    assert (Htail : forall c, In (e, c) t -> False).
    { intros c Hc. apply He. apply (in_map fst) in Hc. exact Hc. }
    destruct (Environment_eqb e (environment r)) eqn:E.
    + apply Environment_eqb_eq in E.
      destruct (Z.ltb_spec (version cur) (version r)) as [Hlt|Hge].
      * destruct Hin as [[= <- <-]|Hin].
        -- right. split; [reflexivity|]. split; [exact E|].
           intros c [[= <-]|Hc]; [exact Hlt | destruct (Htail c Hc)].
        -- left. split; [right; exact Hin|]. left. intros ->.
           rewrite <- E in Hin. exact (Htail f Hin).
      * destruct Hin as [[= <- <-]|Hin].
        -- left. split; [left; reflexivity|]. right. exact Hge.
        -- left. split; [right; exact Hin|]. left. intros ->.
           rewrite <- E in Hin. exact (Htail f Hin).
    + assert (Hne : e <> environment r).
      { intros ->. rewrite Environment_eqb_refl in E. discriminate. }
      destruct Hin as [[= <- <-]|Hin].
      * left. split; [left; reflexivity|]. left. exact Hne.
      * destruct (IH Hnd' Hin) as [[H1 H2]|(H1 & H2 & H3)].
        -- left. split; [right; exact H1 | exact H2].
        -- right. split; [exact H1|]. split; [exact H2|].
           intros c [[= Hec _]|Hc]; [congruence|].
           apply H3. exact Hc.
Qed.

(** What [latestByEnv] holds: one entry for each environment that has a
    row, and in it a row of that environment of greatest version. *)
Lemma latestByEnv_spec (rows : list IEnvFile) :
  NoDup (map fst (latestByEnv rows)) /\
  (forall g, In g rows -> In (environment g) (map fst (latestByEnv rows))) /\
  (forall env f, In (env, f) (latestByEnv rows) ->
     In f rows /\ environment f = env /\
     forall g, In g rows -> environment g = env -> version g <= version f).
Proof.
  unfold latestByEnv.
  induction rows as [|r rows IH] using rev_ind.
  - simpl. split; [constructor|]. split; [intros g []|intros env f []].
  - rewrite fold_left_app. simpl.
    set (acc := fold_left (fun acc envFile => upsertLatest envFile acc) rows [])
      in *.
    destruct IH as (Hnd & Hcover & Hmax).
    split; [apply upsertLatest_NoDup; exact Hnd|]. split.
    + intros g Hg. apply upsertLatest_keys. apply in_app_or in Hg.
      destruct Hg as [Hg|[<-|[]]]; [right; apply Hcover; exact Hg|].
      left. reflexivity.
    + intros env f Hin.
      destruct (upsertLatest_entries r acc env f Hnd Hin)
        as [[Hacc Hr]|(-> & -> & Hlt)].
      * destruct (Hmax env f Hacc) as (Hf & He & Hle).
        split; [apply in_or_app; left; exact Hf|]. split; [exact He|].
        intros g Hg Hge. apply in_app_or in Hg.
        destruct Hg as [Hg|[<-|[]]]; [apply Hle; assumption|].
        destruct Hr as [Hr|Hr]; [symmetry in Hge; contradiction | exact Hr].
      * split; [apply in_or_app; right; left; reflexivity|].
        split; [reflexivity|].
        intros g Hg Hge. apply in_app_or in Hg.
        destruct Hg as [Hg|[<-|[]]]; [|lia].
        pose proof (Hcover g Hg) as Hkey. rewrite Hge in Hkey.
        apply in_map_iff in Hkey. destruct Hkey as ([e c] & He & Hc).
        simpl in He. subst e.
        destruct (Hmax _ c Hc) as (_ & _ & Hle).
        specialize (Hle g Hg Hge). specialize (Hlt c Hc). lia.
Qed.

Lemma collect_members {A B} (I : World -> Prop) (Q : A -> B -> Prop)
    (f : A -> M (list B)) (xs : list A) :
  (forall x w, In x xs -> I w ->
     exists ys w', f x w = (Ok ys, w') /\ I w' /\
                   forall y, In y ys -> Q x y) ->
  forall w, I w ->
    exists ys w', collect xs f w = (Ok ys, w') /\ I w' /\
                  forall y, In y ys -> exists x, In x xs /\ Q x y.
Proof.
  induction xs as [|x t IH]; intros Hf w Hw.
  - exists [], w. split; [reflexivity|]. split; [exact Hw|]. intros y [].
  - destruct (Hf x w (or_introl eq_refl) Hw) as (ys & w1 & Hx & Hw1 & Hys).
    destruct (IH (fun x' w' Hin => Hf x' w' (or_intror Hin)) w1 Hw1)
      as (zs & w2 & Ht & Hw2 & Hzs).
    exists (ys ++ zs), w2. simpl. unfold bind. rewrite Hx, Ht.
    split; [reflexivity|]. split; [exact Hw2|].
    intros y Hy. apply in_app_or in Hy. destruct Hy as [Hy|Hy].
    + exists x. split; [left; reflexivity | apply Hys; exact Hy].
    + destruct (Hzs y Hy) as (x' & Hin & Hq). exists x'.
      split; [right; exact Hin | exact Hq].
Qed.

Lemma decryptEnv_reads_the_key (ct nonce tag : Buffer) (w0 w : World) :
  extends isExportEvent w0 w ->
  fst (decryptEnv ct nonce tag w) = fst (decryptEnv ct nonce tag w0).
Proof.
  intros (evs & -> & _).
  unfold decryptEnv, getMasterKey, bind, gets, tryCatch, ret, throw, emit,
    modify.
  simpl.
  destruct (MASTER_ENCRYPTION_KEY w0) as [k|]; [|reflexivity].
  destruct (String.eqb k ""); [reflexivity|].
  destruct (negb (List.length (base64Decode k) =? KEY_LENGTH)%nat);
    [reflexivity|]. simpl.
  destruct (negb (List.length nonce =? IV_LENGTH)%nat); [reflexivity|].
  destruct (negb (List.length tag =? AUTH_TAG_LENGTH)%nat); [reflexivity|].
  simpl. destruct (Buffer_eqb _ _); reflexivity.
Qed.

Lemma exportProject_spec (w0 : World) (p : IProject) (w : World) :
  extends isExportEvent w0 w ->
  exists es w',
    exportProject p w = (Ok es, w') /\
    extends isExportEvent w0 w' /\
    forall e, In e es -> exportedFrom w0 p e.
Proof.
  intros Hext.
  unfold exportProject, EnvFile_find, bind, emit, modify, gets. simpl.
  set (w1 := setTrace (trace w ++ [EvEnvFileFind]) w).
  assert (Hext1 : extends isExportEvent w0 w1).
  { apply (extends_trans _ w0 w); [exact Hext|].
    apply extends_one. reflexivity. }
  assert (Hfiles : EnvFiles w = EnvFiles w0)
    by (destruct Hext as (evs & -> & _); reflexivity).
  rewrite Hfiles.
  set (rows := rev (filter (fun r => String.eqb (projectId r) (project_id p))
                           (EnvFiles w0))).
  fold (latestByEnv rows).
  destruct (latestByEnv_spec rows) as (_ & _ & Hmax).
  match goal with
  | |- context [collect (latestByEnv rows) ?f] =>
      destruct (collect_members (extends isExportEvent w0)
                  (fun entry e => In entry (latestByEnv rows) /\
                                  export_projectName e = project_name p /\
                                  export_environment e = fst entry /\
                                  export_version e = version (snd entry) /\
                                  fst (decryptEnv (encryptedData (snd entry))
                                         (iv (snd entry))
                                         (authTag (snd entry)) w0)
                                    = Ok (export_content e))
                  f (latestByEnv rows)) with (w := w1)
        as (es & w' & Hrun & Hw' & Hes)
  end.
  - intros entry w2 Hin Hw2. unfold tryCatch, bind.
    pose proof (decryptEnv_extends (encryptedData (snd entry))
                  (iv (snd entry)) (authTag (snd entry)) w2) as Hd.
    pose proof (decryptEnv_reads_the_key (encryptedData (snd entry))
                  (iv (snd entry)) (authTag (snd entry)) w0 w2 Hw2) as Hk.
    destruct (decryptEnv _ _ _ w2) as [[content|err] w3]; simpl in Hd, Hk.
    + eexists. eexists. split; [reflexivity|].
      split; [apply (extends_trans _ w0 w2); assumption|].
      intros y [<-|[]]. simpl. repeat split; auto.
    + exists [], w3. split; [reflexivity|].
      split; [apply (extends_trans _ w0 w2); assumption|].
      intros y [].
  - exact Hext1.
  - exists es, w'. split; [exact Hrun|]. split; [exact Hw'|].
    intros e He. destruct (Hes e He) as ([env f] & _ & Hin & Hn & Henv & Hv & Hd).
    simpl in Henv, Hv, Hd.
    destruct (Hmax env f Hin) as (Hf & Hfe & Hle).
    unfold rows in Hf. apply in_rev in Hf. apply filter_In in Hf.
    destruct Hf as [Hf Hp]. apply String.eqb_eq in Hp.
    split; [exact Hn|]. exists f.
    split; [exact Hf|]. split; [exact Hp|].
    split; [congruence|]. split; [congruence|]. split; [|exact Hd].
    intros g Hg Hgp Hge. apply Hle; [|congruence].
    unfold rows. apply -> in_rev. apply filter_In. split; [exact Hg|].
    rewrite Hgp. apply String.eqb_refl.
Qed.

(** X25: the export of a panic holds current secrets only: when the
    export is enabled the route answers 200 with the exported blocks, and
    every block is the decrypted text of a stored row of a project the
    user created, labelled with the name of that project and with the
    environment and the version of the row, and no row of that project
    and environment has a greater version. *)
Theorem panic_exports_latest_versions
    (req : Request) (w : World) (u : ObjectId) (s : IUserSettings) :
  user req = Some u ->
  find (fun s => String.eqb (settings_userId s) u) (UserSettings w) = Some s ->
  downloadEnvs (panicButton s) = true ->
  exists results w' es,
    panicHandler req w
      = (Ok {| status := 200; body := JsonPanic results |}, w') /\
    result_downloadEnvs results = true /\
    result_downloadContent results = Some es /\
    forall e, In e es ->
      exists p, In p (Projects w) /\ createdBy p = u /\ exportedFrom w p e.
Proof.
  intros Hu Hs Hdl.
  assert (Hsome : flushEnvs (panicButton s) || revokeCollaborators (panicButton s)
                  || downloadEnvs (panicButton s) = true).
  { rewrite Hdl. apply orb_true_r. }
  destruct (panicHandler_steps req w u s Hu Hs Hsome)
    as (dl & w1 & fl & w2 & rv & w3 & Hd & _ & _ & Hrun).
  rewrite Hdl in Hd.
  destruct (downloadStep_run (ownedBy u w) w) as (es & w1' & Hd' & Hes & _).
  rewrite Hd' in Hd. injection Hd as <- <-.
  eexists. eexists. exists es. split; [exact Hrun|]. simpl.
  split; [reflexivity|]. split; [reflexivity|].
  destruct (collect_members (extends isExportEvent w) (exportedFrom w)
              exportProject (ownedBy u w)) with (w := w)
    as (ys & w' & Hc & _ & Hys).
  - intros p w0 _ Hw0. apply exportProject_spec. exact Hw0.
  - apply extends_refl.
  - rewrite Hc in Hes. injection Hes as ->.
    intros e He. destruct (Hys e He) as (p & Hp & Hq).
    unfold ownedBy in Hp. apply filter_In in Hp. destruct Hp as [Hp Hown].
    apply String.eqb_eq in Hown. exists p. auto.
Qed.

(** ** lib/secure-logger.ts: what never reaches the log *)

Lemma sanitizeLogData_array (items : list JSValue) :
  sanitizeLogData (JSArray items) = JSArray (map loggedValue items).
Proof. reflexivity. Qed.

Lemma sanitizeLogData_object (fields : list (JSString * JSValue)) :
  sanitizeLogData (JSObject fields) =
    JSObject
      (flat_map
         (fun entry =>
            if assigns (fst entry) then
              [(fst entry,
                if isSensitive (fst entry) then JSStr (units "[REDACTED]")
                else loggedValue (snd entry))]
            else [])
         fields).
Proof. reflexivity. Qed.

Lemma loggedValue_redacted (v : JSValue) :
  redacted (sanitizeLogData v) = true -> redacted (loggedValue v) = true.
Proof. destruct v; simpl; auto. Qed.

Lemma sanitizeLogData_redacted (data : JSValue) :
  redacted (sanitizeLogData data) = true.
Proof.
  induction data using JSValue_nested_ind; try reflexivity.
  - simpl. destruct (100 <? List.length s)%nat; reflexivity.
  - rewrite sanitizeLogData_array. simpl. apply forallb_forall.
    intros v Hv. apply in_map_iff in Hv. destruct Hv as (x & <- & Hx).
    apply loggedValue_redacted.
    rewrite Forall_forall in H. apply H. exact Hx.
  - rewrite sanitizeLogData_object. simpl. apply forallb_forall.
    intros e He. apply in_flat_map in He. destruct He as (entry & Hin & He).
    destruct (assigns (fst entry)); [|contradiction].
    destruct He as [<-|[]]. simpl.
    destruct (isSensitive (fst entry)); [reflexivity|].
    apply loggedValue_redacted.
    rewrite Forall_forall in H. apply (H entry Hin).
Qed.

Lemma loggedValue_idempotent (v : JSValue) :
  sanitizeLogData (sanitizeLogData v) = sanitizeLogData v ->
  loggedValue (loggedValue v) = loggedValue v.
Proof.
  destruct v; try reflexivity; intros H; exact H.
Qed.

Lemma sanitizeLogData_idempotent (data : JSValue) :
  sanitizeLogData (sanitizeLogData data) = sanitizeLogData data.
Proof.
  induction data using JSValue_nested_ind; try reflexivity.
  - simpl. destruct (100 <? List.length s)%nat eqn:E; simpl;
      [reflexivity | rewrite E; reflexivity].
  - rewrite !sanitizeLogData_array. f_equal. rewrite map_map.
    apply map_ext_in. intros v Hv. apply loggedValue_idempotent.
    rewrite Forall_forall in H. apply H. exact Hv.
  - rewrite !sanitizeLogData_object. f_equal.
    induction fields as [|entry t IH]; [reflexivity|].
    inversion H as [|? ? Hentry Ht]; subst.
    simpl. destruct (assigns (fst entry)) eqn:Ha; simpl.
    + rewrite Ha. simpl. rewrite (IH Ht). f_equal. f_equal.
      destruct (isSensitive (fst entry)); [reflexivity|].
      apply loggedValue_idempotent. exact Hentry.
    + apply IH. exact Ht.
Qed.

(** X26: nothing sensitive comes out of [sanitizeLogData]: whatever the
    data, in the result every field whose key contains "password",
    "token", "secret", "key", "credential" or "auth", in any case and at
    any depth, holds the string "[REDACTED]", and no Buffer is left
    anywhere; a string of more than 100 characters given as the data
    itself is replaced; and sanitizing again changes nothing. *)
Theorem sanitizeLogData_hides_secrets (data : JSValue) :
  redacted (sanitizeLogData data) = true /\
  (forall s, data = JSStr s -> (100 < List.length s)%nat ->
             sanitizeLogData data = JSStr (units "[Large data omitted]")) /\
  sanitizeLogData (sanitizeLogData data) = sanitizeLogData data.
Proof.
  split; [apply sanitizeLogData_redacted|].
  split; [|apply sanitizeLogData_idempotent].
  intros s -> Hlen. simpl.
  destruct (Nat.ltb_spec 100 (List.length s)); [reflexivity | lia].
Qed.

(** ** middleware/validation.ts: the sanitizers *)

Lemma trimStart_noSpaceAhead (s : JSString) : noSpaceAhead (trimStart s) = true.
Proof.
  induction s as [|c t IH]; simpl; [reflexivity|].
  destruct (isWhiteSpace c) eqn:E; [exact IH|]. simpl. rewrite E. reflexivity.
Qed.

Lemma trimStart_fixed (s : JSString) : noSpaceAhead s = true -> trimStart s = s.
Proof.
  destruct s as [|c t]; simpl; [reflexivity|].
  destruct (isWhiteSpace c); [discriminate | reflexivity].
Qed.

Lemma trimStart_suffix (s : JSString) : exists p, s = p ++ trimStart s.
Proof.
  induction s as [|c t IH]; simpl; [exists []; reflexivity|].
  destruct (isWhiteSpace c); [|exists []; reflexivity].
  destruct IH as (p & Hp). exists (c :: p). simpl. rewrite <- Hp. reflexivity.
Qed.

Lemma noSpaceAhead_prefix (a b : JSString) :
  noSpaceAhead (a ++ b) = true -> noSpaceAhead a = true.
Proof. destruct a; simpl; auto. Qed.

Lemma trim_noSpaceAhead (s : JSString) :
  noSpaceAhead (trim s) = true /\ noSpaceAhead (rev (trim s)) = true.
Proof.
  unfold trim. split.
  - destruct (trimStart_suffix (rev (trimStart s))) as (p & Hp).
    apply (noSpaceAhead_prefix _ (rev p)).
    rewrite <- rev_app_distr, <- Hp, rev_involutive.
    apply trimStart_noSpaceAhead.
  - rewrite rev_involutive. apply trimStart_noSpaceAhead.
Qed.

Lemma trim_idempotent (s : JSString) : trim (trim s) = trim s.
Proof.
  destruct (trim_noSpaceAhead s) as [H1 H2].
  unfold trim at 1. rewrite (trimStart_fixed _ H1), (trimStart_fixed _ H2).
  apply rev_involutive.
Qed.

Lemma trimStart_incl (s : JSString) (c : Z) : In c (trimStart s) -> In c s.
Proof.
  destruct (trimStart_suffix s) as (p & Hp). intros H. rewrite Hp.
  apply in_or_app. right. exact H.
Qed.

Lemma trim_incl (s : JSString) (c : Z) : In c (trim s) -> In c s.
Proof.
  unfold trim. intros H. apply in_rev in H. apply trimStart_incl in H.
  apply in_rev in H. apply trimStart_incl in H. exact H.
Qed.

Lemma sanitizeString_is_tidy (v : JSValue) : tidy (sanitizeString v) = true.
Proof.
  unfold tidy. destruct v; try reflexivity. simpl.
  destruct (trim_noSpaceAhead (filter (fun c => negb (c =? 0)) s)) as [H1 H2].
  rewrite H1, H2, !andb_true_r. apply forallb_forall.
  intros c Hc. apply trim_incl in Hc. apply filter_In in Hc. apply Hc.
Qed.

Lemma tidy_fixed (s : JSString) :
  tidy s = true -> sanitizeString (JSStr s) = s.
Proof.
  unfold tidy. intros H. apply andb_true_iff in H. destruct H as [H H3].
  apply andb_true_iff in H. destruct H as [H1 H2].
  simpl. rewrite filter_all.
  - unfold trim. rewrite (trimStart_fixed _ H2), (trimStart_fixed _ H3).
    apply rev_involutive.
  - intros c Hc. rewrite forallb_forall in H1. apply H1. exact Hc.
Qed.

(** X27: what [sanitizeString] returns holds no NUL character and
    neither starts nor ends with white space; it holds only characters of
    the string it was given (nothing when it was given no string), and
    sanitizing it again changes nothing. *)
Theorem sanitizeString_tidies (v : JSValue) :
  tidy (sanitizeString v) = true /\
  (forall c, In c (sanitizeString v) ->
             c <> 0 /\ exists s, v = JSStr s /\ In c s) /\
  sanitizeString (JSStr (sanitizeString v)) = sanitizeString v.
Proof.
  split; [apply sanitizeString_is_tidy|]. split.
  - intros c Hc. destruct v; try contradiction. simpl in Hc.
    apply trim_incl in Hc. apply filter_In in Hc. destruct Hc as [Hin Hnz].
    split; [|exists s; auto].
    apply negb_true_iff in Hnz. apply Z.eqb_neq. exact Hnz.
  - apply tidy_fixed. apply sanitizeString_is_tidy.
Qed.










End Properties.

(** * The statements at work on the demo store *)

Lemma demoKey_valid (w : World) :
  MASTER_ENCRYPTION_KEY w = MASTER_ENCRYPTION_KEY demoWorld ->
  @validMasterKey demoRuntime w.
Proof.
  intros E. exists "AAECAwQFBgcICQoLDA0ODxAREhMUFRYXGBkaGxwdHh8=".
  split; [exact E|]. split; [discriminate | reflexivity].
Defined.

Lemma NoDup_two {A} (a b : A) : a <> b -> NoDup [a; b].
Proof.
  intros H. constructor.
  - intros [E|[]]. apply H. symmetry. exact E.
  - constructor; [intros [] | constructor].
Defined.

Lemma demoProjects_distinct : NoDup (map project_id (Projects demoWorld)).
Proof. apply NoDup_two. discriminate. Defined.

(** C1 on the demo store: Bob (write member of alpha) passes the write
    guard, Carol (read member) passes the read guard and is refused by the
    write guard, Dave (no member) is refused, Alice (owner) passes. *)
Lemma permission_matrix_witness :
  requireProjectAccess write (asUser (Some bob) demoRequest) demoWorld
    = (Ok (Next projectA), demoWorld) /\
  requireProjectAccess read (asUser (Some carol) demoRequest) demoWorld
    = (Ok (Next projectA), demoWorld) /\
  denied (requireProjectAccess write (asUser (Some carol) demoRequest)
            demoWorld) demoWorld /\
  denied (requireProjectAccess read (asUser (Some dave) demoRequest)
            demoWorld) demoWorld /\
  requireProjectAccess write demoRequest demoWorld
    = (Ok (Next projectA), demoWorld).
Proof.
  assert (Hmembers : NoDup (map member_userId (members projectA)))
    by (apply NoDup_two; discriminate).
  assert (HinA : In projectA (Projects demoWorld)) by (left; reflexivity).
  split; [|split; [|split; [|split]]].
  - destruct (proj2 (permission_matrix demoWorld (asUser (Some bob) demoRequest)
                       bob write eq_refl eq_refl demoProjects_distinct)
                projectA HinA eq_refl Hmembers) as (_ & Hwrite & _).
    apply Hwrite. left. reflexivity.
  - destruct (proj2 (permission_matrix demoWorld
                       (asUser (Some carol) demoRequest)
                       carol read eq_refl eq_refl demoProjects_distinct)
                projectA HinA eq_refl Hmembers) as (_ & _ & Hread & _).
    apply Hread. right. left. reflexivity.
  - destruct (proj2 (permission_matrix demoWorld
                       (asUser (Some carol) demoRequest)
                       carol write eq_refl eq_refl demoProjects_distinct)
                projectA HinA eq_refl Hmembers) as (_ & _ & _ & Hdeny & _).
    apply Hdeny; [right; left; reflexivity | discriminate].
  - destruct (proj2 (permission_matrix demoWorld
                       (asUser (Some dave) demoRequest)
                       dave read eq_refl eq_refl demoProjects_distinct)
                projectA HinA eq_refl Hmembers) as (_ & _ & _ & _ & Hnone).
    apply Hnone; [discriminate|].
    intros m [<-|[<-|[]]]; discriminate.
  - destruct (proj2 (permission_matrix demoWorld demoRequest
                       alice write eq_refl eq_refl demoProjects_distinct)
                projectA HinA eq_refl Hmembers) as (Hown & _).
    apply Hown. reflexivity.
Defined.

(** C2 on the demo store: "A=1" comes back from decryption. *)
Lemma encrypt_decrypt_roundtrip_witness :
  exists blob w1,
    @encryptEnv demoRuntime [65; 61; 49] demoWorld = (Ok blob, w1) /\
    fst (@decryptEnv demoRuntime (blob_encryptedData blob) (blob_iv blob)
           (blob_authTag blob) demoWorld) = Ok [65; 61; 49].
Proof.
  apply (@encrypt_decrypt_roundtrip demoRuntime [65; 61; 49] demoWorld demoWorld).
  - reflexivity.
  - vm_compute. discriminate.
  - apply demoKey_valid. reflexivity.
  - reflexivity.
Defined.

(** C2 as stated fails: a string of one unpaired surrogate, well within
    50 KiB, comes back from decryption as U+FFFD. *)
Lemma lone_surrogate_not_restored :
  Z.of_nat (List.length [0xD800]) <= MAX_CONTENT /\
  @validMasterKey demoRuntime demoWorld /\
  (exists blob w1,
      @encryptEnv demoRuntime [0xD800] demoWorld = (Ok blob, w1) /\
      fst (@decryptEnv demoRuntime (blob_encryptedData blob) (blob_iv blob)
             (blob_authTag blob) demoWorld) = Ok [0xFFFD]) /\
  [0xFFFD] <> [0xD800].
Proof.
  split; [vm_compute; discriminate|].
  split; [apply demoKey_valid; reflexivity|].
  split; [|discriminate].
  destruct (@decrypt_encrypt demoRuntime [0xD800] demoWorld demoWorld
              (demoKey_valid demoWorld eq_refl) eq_refl)
    as (blob & w1 & He & Hd).
  exists blob, w1. split; [exact He|]. rewrite Hd. reflexivity.
Qed.

(** C4 on the demo store: a blob with nonce and tag of 16 bytes reaches the
    decipher; one with a tag of 12 bytes is rejected before. *)
Lemma decryptEnv_length_validation_witness :
  trace (snd (@decryptEnv demoRuntime [1; 2; 3] (repeat 0 16) (repeat 0 16)
                demoWorld))
    = trace demoWorld ++ [EvCreateDecipheriv (repeat 0 16)] /\
  snd (@decryptEnv demoRuntime [1; 2; 3] (repeat 0 16) (repeat 0 12)
         demoWorld) = demoWorld.
Proof.
  split.
  - apply (proj1 (@decryptEnv_length_validation demoRuntime [1; 2; 3]
                    (repeat 0 16) (repeat 0 16) demoWorld
                    (demoKey_valid demoWorld eq_refl))).
    split; reflexivity.
  - apply (proj2 (@decryptEnv_length_validation demoRuntime [1; 2; 3]
                    (repeat 0 16) (repeat 0 12) demoWorld
                    (demoKey_valid demoWorld eq_refl))).
    right. vm_compute. discriminate.
Defined.

(** C4 as stated fails: a nonce of 12 bytes with a tag of 16 bytes is
    within the sizes the claim accepts, and [decryptEnv] rejects it without
    creating the decipher. *)
Lemma nonce_of_12_bytes_rejected :
  (12 <= List.length (repeat 0 12) <= 16)%nat /\
  List.length (repeat 0 16) = 16%nat /\
  @validMasterKey demoRuntime demoWorld /\
  @decryptEnv demoRuntime [1; 2; 3] (repeat 0 12) (repeat 0 16) demoWorld
    = (Throw (InvalidIVLength 12), demoWorld).
Proof.
  split; [vm_compute; split; repeat constructor|].
  split; [reflexivity|].
  split; [apply demoKey_valid; reflexivity|].
  reflexivity.
Qed.



Lemma demoRows_distinct : NoDup (map envFile_id (EnvFiles demoWorld2)).
Proof. apply NoDup_two. discriminate. Defined.



(** C7 on the demo store: Alice's panic (export and flush) deletes the two
    rows of alpha, which she owns, keeps the row of beta, in which she is a
    collaborator, and keeps the secret. *)
Lemma panic_flush_witness :
  exists results w',
    @panicHandler demoRuntime demoRequest demoWorld3
      = (Ok {| status := 200; body := JsonPanic results |}, w') /\
    map projectId (EnvFiles w') = [project_id projectB] /\
    Secrets w' = [demoSecret] /\
    result_flushEnvs results = true.
Proof.
  destruct (@panic_flush demoRuntime demoRequest demoWorld3 alice
              (nth 0 (UserSettings demoWorld3)
                   {| settings_userId := ""; flushDuration := None;
                      panicButton := {| flushEnvs := false;
                                        revokeCollaborators := false;
                                        downloadEnvs := false;
                                        askConfirmation := true |} |}))
    as (results & w' & exported & revoked & Hrun & Hflush & Hfiles & _ & _
        & Hsecrets & _).
  - reflexivity.
  - reflexivity.
  - reflexivity.
  - apply NoDup_two. discriminate.
  - exists results, w'. split; [exact Hrun|].
    split; [rewrite Hfiles; reflexivity|].
    split; [exact Hsecrets | exact Hflush].
Defined.

(** C8 on the demo store: Alice's upload gets the same response whether
    the audit queries fail or not. *)
Lemma audit_failure_is_contained_witness :
  fst (@uploadRoute demoRuntime demoRequest demoWorld)
  = fst (@uploadRoute demoRuntime demoRequest (setFaults true true demoWorld)).
Proof.
  destruct (proj2 (@audit_failure_is_contained demoRuntime) demoRequest
              demoWorld (setFaults true true demoWorld) eq_refl)
    as ((_ & Hsame & _) & _).
  exact Hsame.
Defined.

(** C9 on the demo store: removing Dave, who is no member of alpha,
    answers 200 and leaves the projects as they were. *)
Lemma removeMember_idempotent_witness :
  exists doc w',
    removeMemberRoute demoRemoval demoWorld
      = (Ok {| status := 200; body := JsonProject doc |}, w') /\
    Projects w' = Projects demoWorld.
Proof.
  apply (proj1 removeMember_idempotent demoRemoval demoWorld projectA).
  - reflexivity.
  - reflexivity.
  - intros m [<-|[<-|[]]]; discriminate.
Defined.

(** C10 on the demo store: Carol, a read member, gets "A=1" from the
    content route and the audit collection is unchanged. *)
Lemma content_route_returns_plaintext_unlogged_witness :
  exists w',
    @contentRoute demoRuntime
       (withEnvFileId "e00000000000000000000000" (asUser (Some carol) demoRequest))
       demoWorld2
      = (Ok {| status := 200; body := JsonContent [65; 61; 49] |}, w') /\
    EnvLogs w' = EnvLogs demoWorld2 /\
    trace w' = trace demoWorld2
                 ++ [EvEnvFileFind; EvCreateDecipheriv (iv demoRow1)].
Proof.
  apply (@content_route_returns_plaintext_unlogged demoRuntime
           (withEnvFileId "e00000000000000000000000"
              (asUser (Some carol) demoRequest))
           demoWorld2 projectA demoRow1 (iv demoRow1) [65; 61; 49]).
  - reflexivity.
  - reflexivity.
  - reflexivity.
  - reflexivity.
  - apply demoKey_valid. reflexivity.
  - repeat split.
  - reflexivity.
Defined.

(** * The further properties at work on the demo store *)

(** X1 on the demo store: a high surrogate followed by "A" comes back as
    U+FFFD followed by "A". *)
Lemma decrypt_of_encrypt_any_string_witness :
  exists blob w1,
    @encryptEnv demoRuntime [0xD800; 65] demoWorld = (Ok blob, w1) /\
    fst (@decryptEnv demoRuntime (blob_encryptedData blob) (blob_iv blob)
                     (blob_authTag blob) demoWorld)
      = Ok (toWellFormed [0xD800; 65]) /\
    isWellFormed (toWellFormed [0xD800; 65]) = true.
Proof.
  apply (@decrypt_of_encrypt_any_string demoRuntime [0xD800; 65]
           demoWorld demoWorld).
  - apply demoKey_valid. reflexivity.
  - reflexivity.
  - reflexivity.
Defined.

(** X2 on the demo store without its key. *)
Lemma crypto_needs_master_key_witness :
  exists e,
    (e = MasterKeyNotSet \/ e = InvalidMasterKey) /\
    (e = MasterKeyNotSet <->
     MASTER_ENCRYPTION_KEY demoWorldNoKey = None \/
     MASTER_ENCRYPTION_KEY demoWorldNoKey = Some ""%string) /\
    @getMasterKey demoRuntime demoWorldNoKey = (Throw e, demoWorldNoKey) /\
    @encryptEnv demoRuntime [65] demoWorldNoKey = (Throw e, demoWorldNoKey) /\
    @decryptEnv demoRuntime [1] [] [] demoWorldNoKey
      = (Throw e, demoWorldNoKey).
Proof.
  apply (@crypto_needs_master_key demoRuntime demoWorldNoKey [65] [1] [] []).
  intros (s & Hs & _). discriminate.
Defined.

(** X3 on the demo store: two encryptions in a row. *)
Lemma encryptEnv_blob_shape_witness :
  exists b1 w1 b2 w2,
    @encryptEnv demoRuntime [65] demoWorld = (Ok b1, w1) /\
    @encryptEnv demoRuntime [66] w1 = (Ok b2, w2) /\
    List.length (blob_iv b1) = IV_LENGTH /\
    List.length (blob_authTag b1) = AUTH_TAG_LENGTH /\
    List.length (blob_encryptedData b1) = List.length (utf8Encode [65]) /\
    blob_iv b1 = map (entropy demoWorld) (seq (entropyUsed demoWorld) 16) /\
    blob_iv b2 = map (entropy demoWorld) (seq (entropyUsed demoWorld + 16) 16) /\
    entropyUsed w2 = (entropyUsed demoWorld + 32)%nat.
Proof.
  apply (@encryptEnv_blob_shape demoRuntime [65] [66] demoWorld).
  apply demoKey_valid. reflexivity.
Defined.

(** X4 on the demo store: the first row with its own tag, and with sixteen
    zero bytes in its place. *)
Lemma decryptEnv_checks_tag_witness :
  snd (@decryptEnv demoRuntime (encryptedData demoRow1) (iv demoRow1) zeroTag
         demoWorld2)
    = setTrace (trace demoWorld2 ++ [EvCreateDecipheriv (iv demoRow1)])
               demoWorld2 /\
  (zeroTag = @gcmTag demoRuntime (@masterKeyOf demoRuntime demoWorld2)
               (iv demoRow1) (encryptedData demoRow1) ->
   fst (@decryptEnv demoRuntime (encryptedData demoRow1) (iv demoRow1) zeroTag
          demoWorld2)
     = Ok (utf8Decode
             (xorStream (@keystream demoRuntime
                           (@masterKeyOf demoRuntime demoWorld2) (iv demoRow1))
                        0 (encryptedData demoRow1)))) /\
  (zeroTag <> @gcmTag demoRuntime (@masterKeyOf demoRuntime demoWorld2)
                (iv demoRow1) (encryptedData demoRow1) ->
   fst (@decryptEnv demoRuntime (encryptedData demoRow1) (iv demoRow1) zeroTag
          demoWorld2)
     = Throw DecryptionFailed).
Proof.
  apply (@decryptEnv_checks_tag demoRuntime (encryptedData demoRow1)
           (iv demoRow1) zeroTag demoWorld2).
  - apply demoKey_valid. reflexivity.
  - reflexivity.
  - reflexivity.
Defined.

(** X5 on the demo store: Bob, a member of alpha with [write] permission,
    is not let through by the ownership guard. *)
Lemma ownership_matrix_witness :
  requireProjectOwnership (asUser (Some bob) demoRequest) demoWorld =
    (Ok (Answered
           {| status := 403;
              body := JsonError
                "Access denied: Only project owners can perform this action" |}),
     demoWorld).
Proof.
  destruct (ownership_matrix (asUser (Some bob) demoRequest) demoWorld bob
              eq_refl eq_refl) as (_ & _ & H & _).
  apply (H projectA); [reflexivity | discriminate].
Defined.

(** X6 on the demo store: Carol passes the read guard as a listed
    member. *)
Lemma access_only_for_the_entitled_witness :
  demoWorld = demoWorld /\
  exists u,
    user (asUser (Some carol) demoRequest) = Some u /\
    isValidObjectId
      (orElse (params_projectId (asUser (Some carol) demoRequest))
              (params_id (asUser (Some carol) demoRequest))) = true /\
    In projectA (Projects demoWorld) /\
    project_id projectA =
      castObjectId
        (orElse (params_projectId (asUser (Some carol) demoRequest))
                (params_id (asUser (Some carol) demoRequest))) /\
    (createdBy projectA = u \/
     exists m, In m (members projectA) /\ member_userId m = u /\
               (member_permission m = write \/ read = read)).
Proof.
  apply (access_only_for_the_entitled read (asUser (Some carol) demoRequest)
           demoWorld demoWorld projectA).
  reflexivity.
Defined.

(** X7 on the demo store: the read guard and [getUserProjectPermission]
    agree on Carol. *)
Lemma requireProjectAccess_getUserProjectPermission_witness :
  (exists p, requireProjectAccess read (asUser (Some carol) demoRequest)
               demoWorld = (Ok (Next p), demoWorld)) <->
  (exists perm,
      getUserProjectPermission carol
        (orElse (params_projectId (asUser (Some carol) demoRequest))
                (params_id (asUser (Some carol) demoRequest))) demoWorld
        = (Ok (Some perm), demoWorld) /\
      (perm = write \/ read = read)).
Proof.
  apply (requireProjectAccess_getUserProjectPermission read
           (asUser (Some carol) demoRequest) carol demoWorld).
  - reflexivity.
  - reflexivity.
Defined.

(** X9 on the demo store: Bob cannot edit, delete, download the audit log
    of alpha or remove a member from it. *)
Lemma owner_only_routes_witness :
  let req := asUser (Some bob) demoEdit in
  let refusal :=
    (Ok {| status := 403;
           body := JsonError
             "Access denied: Only project owners can perform this action" |},
     demoWorld2) in
  @editRoute demoRuntime req demoWorld2 = refusal /\
  deleteRoute req demoWorld2 = refusal /\
  logsDownloadRoute req demoWorld2 = refusal /\
  removeMemberRoute req demoWorld2 = refusal.
Proof.
  apply (@owner_only_routes demoRuntime (asUser (Some bob) demoEdit)
           demoWorld2 bob projectA).
  - reflexivity.
  - reflexivity.
  - reflexivity.
  - discriminate.
Defined.

(** X10 on the demo store: Dave gets nothing from alpha and Carol cannot
    upload to it. *)
Lemma members_only_routes_witness :
  @contentRoute demoRuntime (asUser (Some dave) demoEdit) demoWorld2 =
    (Ok {| status := 403;
           body := JsonError
             "Access denied: You do not have access to this project" |},
     demoWorld2) /\
  @uploadRoute demoRuntime (asUser (Some carol) demoRequest) demoWorld2 =
    (Ok {| status := 403;
           body := JsonError "Access denied: write permission required" |},
     demoWorld2).
Proof.
  split.
  - destruct (@members_only_routes demoRuntime (asUser (Some dave) demoEdit)
                demoWorld2 dave projectA eq_refl eq_refl eq_refl)
      as [H _]; [discriminate|].
    apply (H eq_refl).
  - destruct (@members_only_routes demoRuntime
                (asUser (Some carol) demoRequest)
                demoWorld2 carol projectA eq_refl eq_refl eq_refl)
      as [_ H]; [discriminate|].
    apply (H {| member_userId := carol; member_permission := read |});
      reflexivity.
Defined.

(** X13 on the demo store: Carol's download of (alpha, dev) serves "A=2",
    the text of version 2. *)
Lemma download_serves_and_records_witness :
  exists w',
    @downloadRoute demoRuntime demoDownload demoWorld2
      = (Ok {| status := 200; body := SendEnv [65; 61; 50] |}, w') /\
    EnvFiles w' = EnvFiles demoWorld2 /\
    version demoRow2 = 2.
Proof.
  destruct (@download_serves_and_records demoRuntime demoDownload demoWorld2
              projectA carol "dev" dev demoRow2 (iv demoRow2) [65; 61; 50])
    as (w' & audit & Hrun & _ & _ & _ & _ & Hfiles & _).
  - reflexivity.
  - reflexivity.
  - reflexivity.
  - reflexivity.
  - exact I.
  - reflexivity.
  - apply demoKey_valid. reflexivity.
  - repeat split.
  - exists w'. split; [exact Hrun|]. split; [exact Hfiles | reflexivity].
Defined.



(** X17 on the demo store: Alice deletes the first row; Carol gets 404
    for it and the second row is still there. *)
Lemma delete_then_gone_witness :
  exists w1,
    deleteRoute demoEdit demoWorld2 =
      (Ok {| status := 200;
             body := JsonMessage "Environment file deleted successfully" |},
       w1) /\
    fst (@contentRoute demoRuntime demoRead w1)
      = Ok {| status := 404; body := JsonError "Environment file not found" |} /\
    In demoRow2 (EnvFiles w1).
Proof.
  destruct (@delete_then_gone demoRuntime demoEdit demoRead demoWorld2
              projectA projectA demoRow1 alice)
    as (w1 & Hrun & Hgone & _ & Hkept).
  - reflexivity.
  - reflexivity.
  - reflexivity.
  - reflexivity.
  - reflexivity.
  - exact demoRows_distinct.
  - reflexivity.
  - reflexivity.
  - reflexivity.
  - exists w1. split; [exact Hrun|]. split; [exact Hgone|].
    apply Hkept; [right; left; reflexivity | discriminate].
Defined.





(** X22 on the demo store: Carol's list holds alpha, of which she is a
    member, and not beta. *)
Lemma listing_is_what_the_read_guard_opens_witness :
  exists ps,
    listProjectsRoute (asUser (Some carol) demoRequest) demoWorld =
      (Ok {| list_status := 200; list_body := ListingProjects ps |},
       demoWorld) /\
    In projectA ps /\ ~ In projectB ps.
Proof.
  destruct (listing_is_what_the_read_guard_opens
              (asUser (Some carol) demoRequest) demoWorld carol)
    as (ps & Hrun & Hps).
  - reflexivity.
  - exact demoProjects_distinct.
  - intros p [<-|[<-|[]]]; split; reflexivity.
  - exists ps. split; [exact Hrun|]. split.
    + apply Hps. split; [left; reflexivity | reflexivity].
    + intros Hin. apply Hps in Hin. destruct Hin as [_ Hpass].
      discriminate.
Defined.

(** X23 on the demo store: Bob has no settings, so his panic does
    nothing. *)
Lemma panic_does_only_what_is_enabled_witness :
  @panicHandler demoRuntime (asUser (Some bob) demoRequest) demoWorld3 =
    (Ok {| status := 400; body := JsonError "Panic button not configured" |},
     demoWorld3).
Proof.
  destruct (@panic_does_only_what_is_enabled demoRuntime
              (asUser (Some bob) demoRequest) demoWorld3 bob eq_refl)
    as (H & _).
  apply H. reflexivity.
Defined.

(** X24 on the demo store: Alice's panic, set to revoke only, empties the
    members of alpha and leaves beta, Bob's project in which she is a
    collaborator, as it was. *)
Lemma panic_revokes_collaborators_witness :
  exists results w',
    @panicHandler demoRuntime demoRequest demoWorldRevoke
      = (Ok {| status := 200; body := JsonPanic results |}, w') /\
    result_revokeCollaborators results = true /\
    Projects w' = [withMembers projectA []; projectB].
Proof.
  destruct (@panic_revokes_collaborators demoRuntime demoRequest
              demoWorldRevoke alice revokeOnly)
    as (results & w' & Hrun & Hrv & Hps & _).
  - reflexivity.
  - reflexivity.
  - reflexivity.
  - exact demoProjects_distinct.
  - exists results, w'. split; [exact Hrun|]. split; [exact Hrv|].
    rewrite Hps. reflexivity.
Defined.

(** X25 on the demo store: Alice's panic exports alpha. *)
Lemma panic_exports_latest_versions_witness :
  exists results w' es,
    @panicHandler demoRuntime demoRequest demoWorld3
      = (Ok {| status := 200; body := JsonPanic results |}, w') /\
    result_downloadContent results = Some es /\
    forall e, In e es ->
      exists p, In p (Projects demoWorld3) /\ createdBy p = alice /\
                @exportedFrom demoRuntime demoWorld3 p e.
Proof.
  destruct (@panic_exports_latest_versions demoRuntime demoRequest demoWorld3
              alice (nth 0 (UserSettings demoWorld3) revokeOnly))
    as (results & w' & es & Hrun & _ & Hes & Hall).
  - reflexivity.
  - reflexivity.
  - reflexivity.
  - exists results, w', es. auto.
Defined.
